(** * Rfits: the Rcpp binding of CFITSIO (src/Rfits.cpp)

    A shallow embedding of the exported functions of [Rfits.cpp].  The CFITSIO
    library itself is an external collaborator: it is taken as a parameter (a
    transition function on an abstract world), and every wrapper is a program
    in a small monad of state and exceptions that records each library call,
    the status it returned and what was printed, and in which a run can also
    end in a fault: an allocation refused, or a step that C++ leaves
    undefined. *)

From Stdlib Require Import ZArith List String Bool Lia DecimalString.
Import ListNotations.
Open Scope string_scope.
Open Scope Z_scope.

(** ** Constants of [cfitsio/fitsio.h]

    The header is included by the source but is not part of the repository, so
    the constants the wrappers compare against are a parameter. *)

Record Header : Type := {
  TBYTE : Z; TSTRING : Z; TUSHORT : Z; TSHORT : Z; TUINT : Z; TINT : Z;
  TLONG : Z; TINT32BIT : Z; TFLOAT : Z; TLONGLONG : Z; TDOUBLE : Z;
  READONLY : Z; READWRITE : Z; CASEINSEN : Z; BINARY_TBL : Z;
  COL_NOT_FOUND : Z
}.

(** The values CFITSIO's header gives them.  [TINT32BIT] and [TLONG] are the
    same number there. *)
Definition fitsio_h : Header := {|
  TBYTE := 11; TSTRING := 16; TUSHORT := 20; TSHORT := 21; TUINT := 30;
  TINT := 31; TLONG := 41; TINT32BIT := 41; TFLOAT := 42; TLONGLONG := 81;
  TDOUBLE := 82;
  READONLY := 0; READWRITE := 1; CASEINSEN := 0; BINARY_TBL := 2;
  COL_NOT_FOUND := 219
|}.

(** ** C objects

    Integers are [Z]; a [float] or [double] is carried as its bit pattern, the
    wrappers never compute with one.  The element types of the buffers the
    wrappers allocate: *)

Inductive ctype : Type :=
| c_uchar | c_short | c_ushort | c_int | c_uint | c_long | c_int64
| c_float | c_double.

(** Object sizes in bytes (LP64) and whether the stored pattern is read back
    as a signed integer. *)
Definition sizeof (t : ctype) : nat :=
  match t with
  | c_uchar => 1
  | c_short | c_ushort => 2
  | c_int | c_uint | c_float => 4
  | c_long | c_int64 | c_double => 8
  end%nat.

Definition is_signed (t : ctype) : bool :=
  match t with
  | c_short | c_int | c_long | c_int64 => true
  | _ => false
  end.

(** Little-endian object representation. *)
Fixpoint le_bytes (n : nat) (v : Z) : list Z :=
  match n with
  | O => []
  | S k => (v mod 256) :: le_bytes k (v / 256)
  end.

Fixpoint le_value (bs : list Z) : Z :=
  match bs with
  | [] => 0
  | b :: r => b + 256 * le_value r
  end.

Definition decode (t : ctype) (bs : list Z) : Z :=
  let u := le_value bs in
  if is_signed t && (2 ^ (8 * Z.of_nat (sizeof t) - 1) <=? u)
  then u - 2 ^ (8 * Z.of_nat (sizeof t))
  else u.

(** [n] consecutive objects of [k] bytes each. *)
Fixpoint chunks (k n : nat) (bs : list Z) : list (list Z) :=
  match n with
  | O => []
  | S m => firstn k bs :: chunks k m (skipn k bs)
  end.

(** What a [std::vector<buf>(n)] holds after the library stored the elements
    [cells], each as an object of type [src], at its start: the vector is
    zero-initialised, the library writes [sizeof src] bytes per element, and
    the vector is read back [sizeof buf] bytes at a time.  This is the
    content of the vector only: whether the library stored past its end is
    [overruns] below, which the wrappers' readers test before they use it. *)
Definition fill (buf src : ctype) (n : nat) (cells : list Z) : list Z :=
  let written := flat_map (le_bytes (sizeof src)) cells in
  let room := (n * sizeof buf)%nat in
  let mem := firstn room (written ++ repeat 0 room) in
  map (decode buf) (chunks (sizeof buf) n mem).

(** Conversion to a 32-bit [int] (an element of an R integer vector). *)
Definition to_int (z : Z) : Z := (z + 2 ^ 31) mod 2 ^ 32 - 2 ^ 31.

(** An element of an R numeric vector: a [double], given by its bit pattern,
    or as the conversion of a [float] or of an integer. *)
Inductive rdouble : Type :=
| DBits (bits : Z)
| DOfFloat (bits : Z)
| DOfInt (z : Z).

(** The R values the wrappers return.  A matrix is its numbers of rows and
    of columns and its elements in R's storage order, column after column:
    the element at row [i] and column [j] (from 0) is the one at index
    [i + j * nrow]. *)
Inductive SEXP : Type :=
| IntegerVector (l : list Z)
| NumericVector (l : list rdouble) (class : option string)
| StringVector (l : list string)
| IntegerMatrix (nrow ncol : Z) (l : list Z)
| NumericMatrix (nrow ncol : Z) (l : list rdouble).

(** The argument a wrapper receives as [SEXP data]: [INTEGER(data)],
    [REAL(data)] (bit patterns) or its strings. *)
Inductive rdata : Type :=
| RInts (l : list Z)
| RReals (l : list Z)
| RStrs (l : list string).

Definition INTEGER (d : rdata) : list Z :=
  match d with RInts l => l | RReals l => l | RStrs _ => [] end.
Definition REAL (d : rdata) : list Z :=
  match d with RInts l => l | RReals l => l | RStrs _ => [] end.
Definition STRINGS (d : rdata) : list string :=
  match d with RStrs l => l | _ => [] end.

(** ** The CFITSIO calls the wrappers make

    One constructor per library function, named as the source names it after
    [fits_].  The [fitsfile *] argument is left out: each wrapper holds one
    handle at a time, the one its open call returned.  The trailing
    [int *status] is the first component of the library's answer, except for
    [get_colname], which the source calls with a status it keeps across calls. *)

(** A pointer argument: an array of C objects of one type, or of C strings. *)
Inductive cbuf : Type :=
| BufVals (elt : ctype) (vals : list Z)
| BufStrs (strs : list string).

(** A [nulval] argument: the null pointer, or the address of a variable of
    the given type holding the given value. *)
Definition nulval := option (ctype * Z).

(** A [long *] argument: the address of an array of [long]s, or an integer
    cast to a pointer, which is the address of no object. *)
Inductive long_ptr : Type :=
| array_of (vals : list Z)
| address (a : Z).

Inductive call : Type :=
| open_file (filename : string) (mode : Z)
| open_image (filename : string) (mode : Z)
| create_file (filename : string)
| create_hdu
| create_tbl (tbltype naxis2 tfields : Z) (ttype tform tunit : list string)
             (extname : string)
| create_img (bitpix naxis : Z) (naxes : list Z)
| close_file
| movabs_hdu (hdunum : Z)
| delete_hdu
| get_num_rows
| get_num_cols
| get_coltype (colnum : Z)
| get_col_display_width (colnum : Z)
| get_colname (casesen : Z) (templt : string) (colnum : Z) (status_in : Z)
| read_col (datatype colnum firstrow firstelem nelem : Z) (nul : nulval)
| write_col (datatype colnum firstrow firstelem nelem : Z) (array : cbuf)
| read_key (datatype : Z) (keyname : string)
| update_key (datatype : Z) (keyname : string) (value : cbuf) (comm : string)
| delete_key (keyname : string)
| get_hdrpos
| read_record (keynum : Z)
| delete_record (keynum : Z)
| read_img (datatype firstelem nelem : Z) (nul : nulval)
| read_subset (datatype : Z) (fpixel lpixel : list Z) (inc : long_ptr)
              (nul : nulval)
| write_pix (datatype : Z) (fpixel : list Z) (nelem : Z) (array : cbuf).

(** The name the [fits_invoke] macro stringizes. *)
Definition call_name (c : call) : string :=
  match c with
  | open_file _ _ => "open_file"
  | open_image _ _ => "open_image"
  | create_file _ => "create_file"
  | create_hdu => "create_hdu"
  | create_tbl _ _ _ _ _ _ _ => "create_tbl"
  | create_img _ _ _ => "create_img"
  | close_file => "close_file"
  | movabs_hdu _ => "movabs_hdu"
  | delete_hdu => "delete_hdu"
  | get_num_rows => "get_num_rows"
  | get_num_cols => "get_num_cols"
  | get_coltype _ => "get_coltype"
  | get_col_display_width _ => "get_col_display_width"
  | get_colname _ _ _ _ => "get_colname"
  | read_col _ _ _ _ _ _ => "read_col"
  | write_col _ _ _ _ _ _ => "write_col"
  | read_key _ _ => "read_key"
  | update_key _ _ _ _ => "update_key"
  | delete_key _ => "delete_key"
  | get_hdrpos => "get_hdrpos"
  | read_record _ => "read_record"
  | delete_record _ => "delete_record"
  | read_img _ _ _ _ => "read_img"
  | read_subset _ _ _ _ _ => "read_subset"
  | write_pix _ _ _ _ => "write_pix"
  end.

(** What a call stores through its output pointers.  For an array output
    the library says which C type it stored the elements as. *)
Inductive reply : Type :=
| RNone
| RInt (v : Z)
| RColtype (typecode repeat width : Z)
| RHdrpos (nkeys keypos : Z)
| RColname (colname : string) (colnum : Z)
| RCells (elt : ctype) (cells : list Z)
| RStrings (strs : list string)
| RString (s : string).

Definition reply_int (r : reply) : Z :=
  match r with RInt v => v | _ => 0 end.
Definition reply_typecode (r : reply) : Z :=
  match r with RColtype t _ _ => t | _ => 0 end.
Definition reply_nkeys (r : reply) : Z :=
  match r with RHdrpos n _ => n | _ => 0 end.
Definition reply_cells (r : reply) : list Z :=
  match r with RCells _ l => l | _ => [] end.
Definition reply_elt (buf : ctype) (r : reply) : ctype :=
  match r with RCells t _ => t | _ => buf end.
Definition reply_strings (r : reply) : list string :=
  match r with RStrings l => l | _ => [] end.
Definition reply_string (r : reply) : string :=
  match r with RString s => s | _ => "" end.

(** The library: a transition on its world for every call, giving the status
    and the outputs, and [fits_get_errstatus]. *)
Record Cfitsio (W : Type) : Type := {
  ffcall : call -> W -> Z * reply * W;
  ffgerr : Z -> string
}.
Arguments ffcall {W} _ _ _.
Arguments ffgerr {W} _ _.

(** ** The monad of the wrappers *)

(** A wrapper returns, or throws a [std::runtime_error] with a message, or
    its run ends in one of the ways below, none of which is a return or an
    exception of the wrapper's own: [std::vector]'s constructor refuses a
    negative size with a [std::length_error], R refuses a matrix with a
    negative extent, and a store outside a vector, a library write past the
    end of the buffer it was handed and an [int] product outside the range
    of [int] are undefined in C++.  These arise from what a caller passes
    (axes, corners of a rectangle) and from what the library stores; the
    counts the library reports (rows, columns, header cards) are taken to be
    counts, so not negative. *)
Inductive failure : Type :=
| length_error
| negative_extent
| out_of_bounds
| buffer_overrun
| signed_overflow.

Inductive result (A : Type) : Type :=
| Ok (a : A)
| Throw (what : string)
| Fault (f : failure).
Arguments Ok {A} _.
Arguments Throw {A} _.
Arguments Fault {A} _.

(** One library call and the status it returned. *)
Definition event : Type := call * Z.

(** The state a wrapper threads: the library's world, the calls made so far
    (latest first) and the lines printed on [Rcpp::Rcout] (latest first). *)
Record state (W : Type) : Type := {
  world : W;
  trace : list event;
  rcout : list string
}.
Arguments world {W} _.
Arguments trace {W} _.
Arguments rcout {W} _.

Definition M (W A : Type) : Type := state W -> result A * state W.

Definition ret {W A} (a : A) : M W A := fun s => (Ok a, s).

Definition bind {W A B} (m : M W A) (k : A -> M W B) : M W B :=
  fun s => match m s with
           | (Ok a, s') => k a s'
           | (Throw e, s') => (Throw e, s')
           | (Fault f, s') => (Fault f, s')
           end.

Definition throw {W A} (what : string) : M W A := fun s => (Throw what, s).

Definition fail_with {W A} (f : failure) : M W A := fun s => (Fault f, s).

Definition print {W} (line : string) : M W unit :=
  fun s => (Ok tt, {| world := world s; trace := trace s;
                      rcout := line :: rcout s |}).

Notation "x <- m ;; k" := (bind m (fun x => k))
  (at level 61, m at next level, right associativity).
Notation "m ;;; k" := (bind m (fun _ => k))
  (at level 61, right associativity).

Definition init {W} (w : W) : state W :=
  {| world := w; trace := []; rcout := [] |}.

(** ** The wrappers *)

Section Wrappers.

Context {W : Type}.
Variable K : Header.
Variable L : Cfitsio W.

(** A library call as the source makes it: the world moves on and the call is
    recorded with the status it returned. *)
Definition ff (c : call) : M W (Z * reply) :=
  fun s =>
    let '(status, r, w') := ffcall L c (world s) in
    (Ok (status, r),
     {| world := w'; trace := (c, status) :: trace s; rcout := rcout s |}).

(** The message of the exception.  The source copies the library's text
    through [char err_msg[30]], which holds a text of at most 29 characters;
    the message is given here as the source builds it from a text that
    fits. *)
Definition fits_status_to_exception (func_name : string) (status : Z) : string :=
  "Error when invoking fits_" ++ func_name ++ ": " ++ ffgerr L status.

Definition _fits_invoke (func_name : string) (c : call) : M W reply :=
  sr <- ff c ;;
  if fst sr =? 0 then ret (snd sr)
  else throw (fits_status_to_exception func_name (fst sr)).

Definition fits_invoke (c : call) : M W reply := _fits_invoke (call_name c) c.

Definition fits_safe_open_file (filename : string) (mode : Z) : M W reply :=
  sr <- ff (open_file filename mode) ;;
  if fst sr =? 0 then ret (snd sr)
  else throw (fits_status_to_exception "open_file" (fst sr)).

(** The buffer [std::vector<buf>(n)] after a successful array read. *)
Definition filled (buf : ctype) (n : Z) (r : reply) : list Z :=
  fill buf (reply_elt buf r) (Z.to_nat n) (reply_cells r).

(** The library stored more bytes than [std::vector<buf>(n)] has. *)
Definition overruns (buf : ctype) (n : Z) (r : reply) : bool :=
  (Z.to_nat n * sizeof buf
   <? List.length (reply_cells r) * sizeof (reply_elt buf r))%nat.

(** The vector after a successful array read into [std::vector<buf>(n)]. *)
Definition received (buf : ctype) (n : Z) (r : reply) : M W (list Z) :=
  if overruns buf n r then fail_with buffer_overrun
  else ret (filled buf n r).

(** [int npixels = naxis1 * naxis2]. *)
Definition in_int (z : Z) : bool := (- 2 ^ 31 <=? z) && (z <? 2 ^ 31).

Definition int_mul (a b : Z) : M W Z :=
  if negb (in_int (a * b)) then fail_with signed_overflow else ret (a * b).

(** [std::vector<T> pixels(npixels)]. *)
Definition new_vector (n : Z) : M W unit :=
  if n <? 0 then fail_with length_error else ret tt.

(** [NumericMatrix pixel_matrix(naxis1, naxis2)], and the same for an
    [IntegerMatrix]. *)
Definition new_matrix (n1 n2 : Z) : M W unit :=
  if (n1 <? 0) || (n2 <? 0) then fail_with negative_extent else ret tt.

(** [n] C strings, initially empty, after the library stored its strings. *)
Definition filled_strings (n : Z) (r : reply) : list string :=
  firstn (Z.to_nat n) (reply_strings r ++ repeat "" (Z.to_nat n)).

(** A numeric branch of [Cfits_read_col]: the datatype it asks the library
    for, the [nullval] variable whose address it passes, the element type of
    its [col] vector and the R vector it builds from it. *)
Record col_branch : Type := {
  cb_datatype : Z;
  cb_nullval : ctype * Z;
  cb_buf : ctype;
  cb_out : list Z -> SEXP
}.

Definition int_vector (col : list Z) : SEXP := IntegerVector (map to_int col).

(** [std::memcpy] of the 64-bit integers onto the doubles of the result. *)
Definition memcpy_double (col : list Z) : list rdouble :=
  map (fun z => DBits (z mod 2 ^ 64)) col.

(** The [else if] chain of [Cfits_read_col] after the string branch, in the
    source's order. *)
Definition col_dispatch (typecode : Z) : option col_branch :=
  if typecode =? TBYTE K then
    Some {| cb_datatype := TBYTE K; cb_nullval := (c_int, 0);
            cb_buf := c_uchar; cb_out := int_vector |}
  else if typecode =? TINT K then
    Some {| cb_datatype := TINT K; cb_nullval := (c_int, -999);
            cb_buf := c_int; cb_out := int_vector |}
  else if typecode =? TUINT K then
    Some {| cb_datatype := TUINT K; cb_nullval := (c_uint, 0);
            cb_buf := c_uint; cb_out := int_vector |}
  else if typecode =? TINT32BIT K then
    Some {| cb_datatype := TINT32BIT K; cb_nullval := (c_long, 0);
            cb_buf := c_long; cb_out := int_vector |}
  else if typecode =? TSHORT K then
    Some {| cb_datatype := TSHORT K; cb_nullval := (c_short, -128);
            cb_buf := c_short; cb_out := int_vector |}
  else if typecode =? TUSHORT K then
    Some {| cb_datatype := TUSHORT K; cb_nullval := (c_ushort, 255);
            cb_buf := c_ushort; cb_out := int_vector |}
  else if typecode =? TFLOAT K then
    Some {| cb_datatype := TFLOAT K; cb_nullval := (c_float, -999);
            cb_buf := c_float;
            cb_out := fun col => NumericVector (map DOfFloat col) None |}
  else if typecode =? TLONG K then
    Some {| cb_datatype := TLONG K; cb_nullval := (c_long, -999);
            cb_buf := c_long;
            cb_out := fun col => NumericVector (map DOfInt col) None |}
  else if typecode =? TLONGLONG K then
    Some {| cb_datatype := TLONGLONG K; cb_nullval := (c_long, -999);
            cb_buf := c_int64;
            cb_out := fun col =>
              NumericVector (memcpy_double col) (Some "integer64") |}
  else if typecode =? TDOUBLE K then
    Some {| cb_datatype := TDOUBLE K; cb_nullval := (c_double, -999);
            cb_buf := c_double;
            cb_out := fun col => NumericVector (map DBits col) None |}
  else None.

Definition Cfits_read_col (filename : string) (colref ext : Z) : M W SEXP :=
  fits_safe_open_file filename (READONLY K) ;;;
  fits_invoke (movabs_hdu ext) ;;;
  r <- fits_invoke get_num_rows ;;
  let nrow := reply_int r in
  r <- fits_invoke (get_coltype colref) ;;
  let typecode := reply_typecode r in
  if typecode =? TSTRING K then
    fits_invoke (get_col_display_width colref) ;;;
    r <- fits_invoke (read_col (TSTRING K) colref 1 1 nrow None) ;;
    fits_invoke close_file ;;;
    ret (StringVector (filled_strings nrow r))
  else
    match col_dispatch typecode with
    | Some b =>
        r <- fits_invoke (read_col (cb_datatype b) colref 1 1 nrow
                                   (Some (cb_nullval b))) ;;
        col <- received (cb_buf b) nrow r ;;
        fits_invoke close_file ;;;
        ret (cb_out b col)
    | None => throw "unsupported type"
    end.

Definition Cfits_read_nrow (filename : string) (ext : Z) : M W Z :=
  fits_safe_open_file filename (READONLY K) ;;;
  fits_invoke (movabs_hdu ext) ;;;
  r <- fits_invoke get_num_rows ;;
  fits_invoke close_file ;;;
  ret (to_int (reply_int r)).

Definition Cfits_read_ncol (filename : string) (ext : Z) : M W Z :=
  fits_safe_open_file filename (READONLY K) ;;;
  fits_invoke (movabs_hdu ext) ;;;
  r <- fits_invoke get_num_cols ;;
  fits_invoke close_file ;;;
  ret (reply_int r).

(** The state of the enumeration loop of [Cfits_read_colname]: the variables
    [colref], [status] and [ii], the [colname] buffer and the vector [out]. *)
Record colname_loop : Type := {
  cl_colref : Z;
  cl_status : Z;
  cl_ii : Z;
  cl_colname : string;
  cl_out : list string
}.

(** [out[i] = v]: the vector after the store, or nothing when [i] is not an
    index of the vector. *)
Fixpoint store_at {A} (i : nat) (v : A) (out : list A) : option (list A) :=
  match out, i with
  | [], _ => None
  | _ :: t, O => Some (v :: t)
  | h :: t, S j => option_map (cons h) (store_at j v t)
  end.

(** One execution of the loop body.  [fits_get_colname] is called directly,
    not through [fits_invoke], and the source does not compare [ii] with the
    length of [out] before it stores.  The counter starts at 0 and a store at
    [ii] is inside the vector only while [ii] is below its length, so [ii]
    never passes that length by more than one. *)
Definition colname_body (c : colname_loop) : M W colname_loop :=
  sr <- ff (get_colname (CASEINSEN K) "*" (cl_colref c) (cl_status c)) ;;
  let status := fst sr in
  let colname := match snd sr with RColname n _ => n | _ => cl_colname c end in
  let colref := match snd sr with RColname _ k => k | _ => cl_colref c end in
  if negb (status =? COL_NOT_FOUND K) then
    match store_at (Z.to_nat (cl_ii c)) colname (cl_out c) with
    | Some out =>
        ret {| cl_colref := colref; cl_status := status; cl_ii := cl_ii c + 1;
               cl_colname := colname; cl_out := out |}
    | None => fail_with out_of_bounds
    end
  else
    ret {| cl_colref := colref; cl_status := status; cl_ii := cl_ii c + 1;
           cl_colname := colname; cl_out := cl_out c |}.

(** [while (status != COL_NOT_FOUND)], run for at most [fuel] executions of
    the body.  The flag says whether the loop has exited; when it is [false]
    the loop is still running after [fuel] executions. *)
Fixpoint colname_while (fuel : nat) (c : colname_loop)
    : M W (bool * colname_loop) :=
  if cl_status c =? COL_NOT_FOUND K then ret (true, c)
  else match fuel with
       | O => ret (false, c)
       | S n => c' <- colname_body c ;; colname_while n c'
       end.

Definition colname_init (colref ncol : Z) : colname_loop :=
  {| cl_colref := colref; cl_status := 0; cl_ii := 0; cl_colname := "";
     cl_out := repeat "" (Z.to_nat ncol) |}.

Definition Cfits_read_colname (fuel : nat) (filename : string)
    (colref ext : Z) : M W (option SEXP) :=
  fits_safe_open_file filename (READONLY K) ;;;
  fits_invoke (movabs_hdu ext) ;;;
  r <- fits_invoke get_num_cols ;;
  let ncol := reply_int r in
  ec <- colname_while fuel (colname_init colref ncol) ;;
  if fst ec then
    fits_invoke close_file ;;;
    ret (Some (StringVector (cl_out (snd ec))))
  else ret None.

Definition Cfits_create_bintable (filename : string) (tfields : Z)
    (ttypes tforms tunits : list string) (extname : string) : M W unit :=
  fits_invoke (create_file filename) ;;;
  fits_invoke create_hdu ;;;
  fits_invoke (create_tbl (BINARY_TBL K) 0 tfields ttypes tforms tunits
                          extname) ;;;
  fits_invoke close_file ;;;
  ret tt.

Definition Cfits_write_col (filename : string) (data : rdata)
    (nrow colref ext typecode : Z) : M W unit :=
  fits_safe_open_file filename (READWRITE K) ;;;
  fits_invoke (movabs_hdu ext) ;;;
  (if typecode =? TSTRING K then
     fits_invoke (write_col typecode colref 1 1 nrow
                    (BufStrs (firstn (Z.to_nat nrow) (STRINGS data)))) ;;;
     ret tt
   else if typecode =? TINT K then
     fits_invoke (write_col typecode colref 1 1 nrow
                    (BufVals c_int (INTEGER data))) ;;;
     ret tt
   else if typecode =? TLONGLONG K then
     fits_invoke (write_col typecode colref 1 1 nrow
                    (BufVals c_double (REAL data))) ;;;
     ret tt
   else if typecode =? TDOUBLE K then
     fits_invoke (write_col typecode colref 1 1 nrow
                    (BufVals c_double (REAL data))) ;;;
     ret tt
   else ret tt) ;;;
  fits_invoke close_file ;;;
  ret tt.

Definition Cfits_read_key (filename keyname : string) (typecode ext : Z)
    : M W SEXP :=
  fits_safe_open_file filename (READWRITE K) ;;;
  fits_invoke (movabs_hdu ext) ;;;
  if typecode =? TDOUBLE K then
    r <- fits_invoke (read_key (TDOUBLE K) keyname) ;;
    keyvalue <- received c_double 1 r ;;
    fits_invoke close_file ;;;
    ret (NumericVector (map DBits keyvalue) None)
  else if typecode =? TSTRING K then
    r <- fits_invoke (read_key (TSTRING K) keyname) ;;
    fits_invoke close_file ;;;
    ret (StringVector [reply_string r])
  else throw "unsupported type".

Definition Cfits_update_key (filename : string) (keyvalue : rdata)
    (keyname comment : string) (ext typecode : Z) : M W unit :=
  fits_safe_open_file filename (READWRITE K) ;;;
  fits_invoke (movabs_hdu ext) ;;;
  (if typecode =? TSTRING K then
     fits_invoke (update_key typecode keyname
                    (BufStrs (firstn 1 (STRINGS keyvalue))) comment) ;;;
     ret tt
   else if typecode =? TINT K then
     fits_invoke (update_key typecode keyname
                    (BufVals c_int (INTEGER keyvalue)) comment) ;;;
     ret tt
   else if typecode =? TLONGLONG K then
     fits_invoke (update_key typecode keyname
                    (BufVals c_double (REAL keyvalue)) comment) ;;;
     ret tt
   else if typecode =? TDOUBLE K then
     fits_invoke (update_key typecode keyname
                    (BufVals c_double (REAL keyvalue)) comment) ;;;
     ret tt
   else ret tt) ;;;
  fits_invoke close_file ;;;
  ret tt.

Definition Cfits_create_image (filename : string) (bitpix naxis1 naxis2 : Z)
    : M W unit :=
  fits_invoke (create_file filename) ;;;
  fits_invoke create_hdu ;;;
  fits_invoke (create_img bitpix 2 [naxis1; naxis2]) ;;;
  fits_invoke close_file ;;;
  ret tt.

(** A branch of the image readers: the element type of its [pixels] vector
    and the R matrix it copies the vector into. *)
Record img_branch : Type := {
  ib_buf : ctype;
  ib_out : Z -> Z -> list Z -> SEXP
}.

Definition numeric_matrix (conv : Z -> rdouble) (n1 n2 : Z) (pixels : list Z)
    : SEXP := NumericMatrix n1 n2 (map conv pixels).
Definition integer_matrix (n1 n2 : Z) (pixels : list Z) : SEXP :=
  IntegerMatrix n1 n2 (map to_int pixels).

(** The [if] chain on [datatype], the same in [Cfits_read_img] and in
    [Cfits_read_img_subset]. *)
Definition img_dispatch (datatype : Z) : option img_branch :=
  if datatype =? TFLOAT K then
    Some {| ib_buf := c_float; ib_out := numeric_matrix DOfFloat |}
  else if datatype =? TDOUBLE K then
    Some {| ib_buf := c_double; ib_out := numeric_matrix DBits |}
  else if datatype =? TBYTE K then
    Some {| ib_buf := c_int; ib_out := integer_matrix |}
  else if datatype =? TSHORT K then
    Some {| ib_buf := c_short; ib_out := integer_matrix |}
  else if datatype =? TLONG K then
    Some {| ib_buf := c_long; ib_out := integer_matrix |}
  else None.

Definition Cfits_read_img (filename : string) (naxis1 naxis2 ext datatype : Z)
    : M W SEXP :=
  fits_invoke (open_image filename (READONLY K)) ;;;
  fits_invoke (movabs_hdu ext) ;;;
  npixels <- int_mul naxis1 naxis2 ;;
  match img_dispatch datatype with
  | Some b =>
      new_vector npixels ;;;
      r <- fits_invoke (read_img datatype 1 npixels (Some (c_int, 0))) ;;
      pixels <- received (ib_buf b) npixels r ;;
      fits_invoke close_file ;;;
      new_matrix naxis1 naxis2 ;;;
      ret (ib_out b naxis1 naxis2 pixels)
  | None => throw "unsupported type"
  end.

Definition Cfits_write_image (filename : string) (data : rdata)
    (datatype naxis1 naxis2 ext : Z) : M W unit :=
  let nelements := naxis1 * naxis2 in
  let fpixel := [1; 1] in
  fits_safe_open_file filename (READWRITE K) ;;;
  fits_invoke (movabs_hdu ext) ;;;
  (if datatype =? TINT K then
     fits_invoke (write_pix datatype fpixel nelements
                    (BufVals c_int (INTEGER data))) ;;; ret tt
   else if datatype =? TSHORT K then
     fits_invoke (write_pix datatype fpixel nelements
                    (BufVals c_int (INTEGER data))) ;;; ret tt
   else if datatype =? TLONG K then
     fits_invoke (write_pix datatype fpixel nelements
                    (BufVals c_int (INTEGER data))) ;;; ret tt
   else if datatype =? TDOUBLE K then
     fits_invoke (write_pix datatype fpixel nelements
                    (BufVals c_double (REAL data))) ;;; ret tt
   else if datatype =? TFLOAT K then
     fits_invoke (write_pix datatype fpixel nelements
                    (BufVals c_double (REAL data))) ;;; ret tt
   else ret tt) ;;;
  fits_invoke close_file ;;;
  ret tt.

(** [for (ii = from; ii <= from + n - 1; ii++)], collecting what the body
    gives. *)
Fixpoint for_loop {A} (n : nat) (ii : Z) (body : Z -> M W A) : M W (list A) :=
  match n with
  | O => ret []
  | S m =>
      a <- body ii ;;
      rest <- for_loop m (ii + 1) body ;;
      ret (a :: rest)
  end.

Definition Cfits_read_header (filename : string) (ext : Z) : M W SEXP :=
  fits_invoke (open_image filename (READONLY K)) ;;;
  fits_invoke (movabs_hdu ext) ;;;
  r <- fits_invoke get_hdrpos ;;
  let nkeys := reply_nkeys r in
  out <- for_loop (Z.to_nat nkeys) 1
           (fun ii => r <- fits_invoke (read_record ii) ;;
                      ret (reply_string r)) ;;
  fits_invoke close_file ;;;
  ret (StringVector out).

Definition Cfits_delete_HDU (filename : string) (ext : Z) : M W unit :=
  fits_invoke (open_image filename (READWRITE K)) ;;;
  fits_invoke (movabs_hdu ext) ;;;
  fits_invoke delete_hdu ;;;
  fits_invoke close_file ;;;
  ret tt.

Definition Cfits_delete_key (filename keyname : string) (ext : Z) : M W unit :=
  fits_invoke (open_image filename (READWRITE K)) ;;;
  fits_invoke (movabs_hdu ext) ;;;
  fits_invoke (delete_key keyname) ;;;
  fits_invoke close_file ;;;
  ret tt.

Definition decimal (z : Z) : string := NilZero.string_of_int (Z.to_int z).

(** The line [Rcpp::Rcout << "The key is" << ii << std::endl] prints. *)
Definition key_line (ii : Z) : string := "The key is" ++ decimal ii.

(** The body of the loop of [Cfits_delete_header]. *)
Definition delete_round (ii : Z) : M W reply :=
  print (key_line ii) ;;; fits_invoke (delete_record 2).

Definition Cfits_delete_header (filename : string) (ext : Z) : M W unit :=
  fits_invoke (open_image filename (READWRITE K)) ;;;
  fits_invoke (movabs_hdu ext) ;;;
  r <- fits_invoke get_hdrpos ;;
  let nkeys := reply_nkeys r in
  for_loop (Z.to_nat (nkeys - 1)) 2 delete_round ;;;
  fits_invoke close_file ;;;
  ret tt.

(** The extents are computed as the source computes them, and [inc] is the
    integer 1 cast to [long *], as in the source. *)
Definition Cfits_read_img_subset (filename : string)
    (fpixel0 fpixel1 lpixel0 lpixel1 ext datatype : Z) : M W SEXP :=
  fits_invoke (open_image filename (READONLY K)) ;;;
  fits_invoke (movabs_hdu ext) ;;;
  let fpixel := [fpixel0; fpixel1] in
  let lpixel := [lpixel0; lpixel1] in
  let naxis1 := to_int (lpixel1 - fpixel0 + 1) in
  let naxis2 := to_int (lpixel1 - lpixel0 + 1) in
  npixels <- int_mul naxis1 naxis2 ;;
  let inc := address 1 in
  match img_dispatch datatype with
  | Some b =>
      new_vector npixels ;;;
      r <- fits_invoke (read_subset datatype fpixel lpixel inc
                                    (Some (c_int, 0))) ;;
      pixels <- received (ib_buf b) npixels r ;;
      fits_invoke close_file ;;;
      new_matrix naxis1 naxis2 ;;;
      ret (ib_out b naxis1 naxis2 pixels)
  | None => throw "unsupported type"
  end.

End Wrappers.

(** ** The exported interface

    The sixteen functions [Rfits.cpp] marks [Rcpp::export], with their
    arguments, and what a call hands back to R. *)

Inductive operation : Type :=
| op_read_col (filename : string) (colref ext : Z)
| op_read_nrow (filename : string) (ext : Z)
| op_read_ncol (filename : string) (ext : Z)
| op_read_colname (filename : string) (colref ext : Z)
| op_create_bintable (filename : string) (tfields : Z)
                     (ttypes tforms tunits : list string) (extname : string)
| op_write_col (filename : string) (data : rdata) (nrow colref ext typecode : Z)
| op_read_key (filename keyname : string) (typecode ext : Z)
| op_update_key (filename : string) (keyvalue : rdata)
                (keyname comment : string) (ext typecode : Z)
| op_create_image (filename : string) (bitpix naxis1 naxis2 : Z)
| op_read_img (filename : string) (naxis1 naxis2 ext datatype : Z)
| op_write_image (filename : string) (data : rdata)
                 (datatype naxis1 naxis2 ext : Z)
| op_read_header (filename : string) (ext : Z)
| op_delete_HDU (filename : string) (ext : Z)
| op_delete_key (filename keyname : string) (ext : Z)
| op_delete_header (filename : string) (ext : Z)
| op_read_img_subset (filename : string)
                     (fpixel0 fpixel1 lpixel0 lpixel1 ext datatype : Z).

Inductive value : Type :=
| VSexp (v : SEXP)
| VInt (n : Z)
| VUnit
| VRunning.

Definition fmap {W A B} (f : A -> B) (m : M W A) : M W B :=
  a <- m ;; ret (f a).

(** [fuel] bounds the enumeration loop of [Cfits_read_colname], the only
    loop without a bound of its own; [VRunning] says it is still running. *)
Definition run {W} (K : Header) (L : Cfitsio W) (fuel : nat) (op : operation)
    : M W value :=
  match op with
  | op_read_col f c e => fmap VSexp (Cfits_read_col K L f c e)
  | op_read_nrow f e => fmap VInt (Cfits_read_nrow K L f e)
  | op_read_ncol f e => fmap VInt (Cfits_read_ncol K L f e)
  | op_read_colname f c e =>
      fmap (fun o => match o with Some v => VSexp v | None => VRunning end)
           (Cfits_read_colname K L fuel f c e)
  | op_create_bintable f n ty tf tu x =>
      fmap (fun _ => VUnit) (Cfits_create_bintable K L f n ty tf tu x)
  | op_write_col f d n c e t =>
      fmap (fun _ => VUnit) (Cfits_write_col K L f d n c e t)
  | op_read_key f k t e => fmap VSexp (Cfits_read_key K L f k t e)
  | op_update_key f v k c e t =>
      fmap (fun _ => VUnit) (Cfits_update_key K L f v k c e t)
  | op_create_image f b n1 n2 =>
      fmap (fun _ => VUnit) (Cfits_create_image L f b n1 n2)
  | op_read_img f n1 n2 e d => fmap VSexp (Cfits_read_img K L f n1 n2 e d)
  | op_write_image f d t n1 n2 e =>
      fmap (fun _ => VUnit) (Cfits_write_image K L f d t n1 n2 e)
  | op_read_header f e => fmap VSexp (Cfits_read_header K L f e)
  | op_delete_HDU f e => fmap (fun _ => VUnit) (Cfits_delete_HDU K L f e)
  | op_delete_key f k e => fmap (fun _ => VUnit) (Cfits_delete_key K L f k e)
  | op_delete_header f e =>
      fmap (fun _ => VUnit) (Cfits_delete_header K L f e)
  | op_read_img_subset f f0 f1 l0 l1 e d =>
      fmap VSexp (Cfits_read_img_subset K L f f0 f1 l0 l1 e d)
  end.

(** Handles: a successful open or create hands one out, every [close_file]
    call gives one back. *)
Definition opens_handle (e : event) : bool :=
  match e with
  | (open_file _ _, st) | (open_image _ _, st) | (create_file _, st) => st =? 0
  | _ => false
  end.

Definition closes_handle (e : event) : bool :=
  match e with
  | (close_file, _) => true
  | _ => false
  end.

Definition opened (tr : list event) : nat := List.length (filter opens_handle tr).
Definition closed (tr : list event) : nat := List.length (filter closes_handle tr).

(** ** Properties of runs and of the library *)

Definition thrown {A} (r : result A) : option string :=
  match r with Ok _ => None | Throw e => Some e | Fault _ => None end.

Definition is_colname (c : call) : bool :=
  match c with get_colname _ _ _ _ => true | _ => false end.

Definition is_delete_record (e : event) : bool :=
  match fst e with delete_record _ => true | _ => false end.

Section Discipline.

Context {W : Type}.
Variable L : Cfitsio W.

(** The events in [exempt] apart, a status is acted on at once: an event is
    quiet when its status is zero or when it is exempt.  A run of quiet
    events has raised no exception for a status: it has returned, or ended
    otherwise, or refused a type code.  A status that is not zero, of an
    event that is not exempt, is the latest event of the run, which then
    threw the message built from the name of that call and the library's
    text for the status. *)
Variable exempt : event -> bool.

Definition quiet (e : event) : Prop := snd e = 0 \/ exempt e = true.

Definition raised (e : event) (t : option string) : Prop :=
  snd e <> 0 /\ exempt e = false /\
  t = Some (fits_status_to_exception L (call_name (fst e)) (snd e)).

Definition unraised (t : option string) : Prop :=
  t = None \/ t = Some "unsupported type".

Definition checked (evs : list event) (t : option string) : Prop :=
  (Forall quiet evs /\ unraised t) \/
  exists e rest, evs = e :: rest /\ raised e t /\ Forall quiet rest.

(** A run from [s] that ended in [s'] with [r] kept the discipline. *)
Definition disciplined {A} (s : state W) (out : result A * state W) : Prop :=
  exists evs, trace (snd out) = (evs ++ trace s)%list /\ checked evs (thrown (fst out)).

End Discipline.

(** The events of the [fits_get_colname] calls. *)
Definition is_lookup (e : event) : bool := is_colname (fst e).

(** A computation keeps the discipline when all its runs do, the
    [fits_get_colname] calls left aside. *)
Definition keeps {W A} (L : Cfitsio W) (m : M W A) : Prop :=
  forall s, disciplined L is_lookup s (m s).

(** The status [COL_NOT_UNIQUE] of [fitsio.h].  The source does not name it:
    its loop only compares with [COL_NOT_FOUND].  It is the status CFITSIO's
    lookup returns with a name when the template matches further names. *)
Definition COL_NOT_UNIQUE : Z := 237.

(** The two statuses by which a lookup enumerates: a name and more to come,
    and no name left. *)
Definition enumeration (K : Header) (e : event) : bool :=
  is_colname (fst e)
  && ((snd e =? COL_NOT_UNIQUE) || (snd e =? COL_NOT_FOUND K)).

(** The events the statement on status checking speaks of: a lookup that
    succeeded or returned an enumeration status, and any other call whose
    status, when it is not 0, has a text that fits [err_msg]. *)
Definition covered {W} (K : Header) (L : Cfitsio W) (e : event) : Prop :=
  if is_colname (fst e)
  then snd e = 0 \/ enumeration K e = true
  else snd e <> 0 -> (String.length (ffgerr L (snd e)) < 30)%nat.

(** The state after one more call. *)
Definition after {W} (s : state W) (c : call) (status : Z) (w' : W) : state W :=
  {| world := w'; trace := (c, status) :: trace s; rcout := rcout s |}.

(** Deleting the element at index [i]. *)
Fixpoint remove_at {A} (i : nat) (l : list A) : list A :=
  match l, i with
  | [], _ => []
  | _ :: t, O => t
  | h :: t, S j => h :: remove_at j t
  end.

(** What [Cfits_delete_header] needs of the library for the header of HDU
    [ext] of [filename], seen through [hdr]: opening, moving, counting and
    closing succeed and leave the cards alone, the count is the number of
    cards, and deleting record [k] takes out the [k]-th card. *)
Record HeaderStore {W} (K : Header) (L : Cfitsio W) (filename : string)
    (ext : Z) (hdr : W -> list string) : Prop := {
  hs_open : forall w, exists r w',
    ffcall L (open_image filename (READWRITE K)) w = (0, r, w') /\
    hdr w' = hdr w;
  hs_movabs : forall w, exists r w',
    ffcall L (movabs_hdu ext) w = (0, r, w') /\ hdr w' = hdr w;
  hs_hdrpos : forall w, exists keypos w',
    ffcall L get_hdrpos w
      = (0, RHdrpos (Z.of_nat (List.length (hdr w))) keypos, w') /\
    hdr w' = hdr w;
  hs_delete : forall k w, 1 <= k <= Z.of_nat (List.length (hdr w)) ->
    exists r w',
      ffcall L (delete_record k) w = (0, r, w') /\
      hdr w' = remove_at (Z.to_nat (k - 1)) (hdr w);
  hs_close : forall w, exists r w',
    ffcall L close_file w = (0, r, w') /\ hdr w' = hdr w
}.

(** The values an object of a C type can hold. *)
Definition in_range (t : ctype) (z : Z) : Prop :=
  if is_signed t
  then - 2 ^ (8 * Z.of_nat (sizeof t) - 1) <= z
       < 2 ^ (8 * Z.of_nat (sizeof t) - 1)
  else 0 <= z < 2 ^ (8 * Z.of_nat (sizeof t)).

(** The codes the dispatch chains compare against are pairwise different;
    [TLONG] is left out, the header may give it the number of [TINT32BIT]. *)
Definition codes_distinct (K : Header) : Prop :=
  NoDup [TSTRING K; TBYTE K; TINT K; TUINT K; TINT32BIT K; TSHORT K;
         TUSHORT K; TFLOAT K; TLONGLONG K; TDOUBLE K].



(** The first [n] objects of type [t] in the memory of an array that holds
    at least as many. *)
Definition objects (t : ctype) (n : Z) (array : cbuf) : list Z :=
  match array with
  | BufVals elt vals => fill t elt (Z.to_nat n) vals
  | BufStrs _ => []
  end.

(** The numeric cases of [Cfits_write_col], for a write of well-formed R
    data (R integers are 32-bit, an R double has a 64-bit pattern): the type
    code, the data and its length, the array the wrapper passes, the C type
    the library moves elements of that code as, the sentinel
    [Cfits_read_col] reads such a column with, and the R vector that holds
    the same values. *)
Inductive numeric_case (K : Header)
    : Z -> rdata -> Z -> cbuf -> ctype -> ctype * Z -> SEXP -> Prop :=
| case_int (l : list Z) :
    Forall (in_range c_int) l ->
    numeric_case K (TINT K) (RInts l) (Z.of_nat (List.length l))
                 (BufVals c_int l) c_int (c_int, -999) (IntegerVector l)
| case_longlong (l : list Z) :
    Forall (in_range c_double) l ->
    numeric_case K (TLONGLONG K) (RReals l) (Z.of_nat (List.length l))
                 (BufVals c_double l) c_int64 (c_long, -999)
                 (NumericVector (map DBits l) (Some "integer64"))
| case_double (l : list Z) :
    Forall (in_range c_double) l ->
    numeric_case K (TDOUBLE K) (RReals l) (Z.of_nat (List.length l))
                 (BufVals c_double l) c_double (c_double, -999)
                 (NumericVector (map DBits l) None).

(** The shape of a returned matrix. *)
Definition dims (v : SEXP) : option (Z * Z) :=
  match v with
  | IntegerMatrix r c _ | NumericMatrix r c _ => Some (r, c)
  | _ => None
  end.

(** The counter values of [for (ii = from; ...; ii++)] over [n] rounds. *)
Fixpoint counters (n : nat) (from : Z) : list Z :=
  match n with
  | O => []
  | S m => from :: counters m (from + 1)
  end.

(** ** A small library to run the wrappers on

    An in-memory stand-in for CFITSIO with one table column, one image and one
    header, used to evaluate the wrappers on concrete inputs.  Calls listed in
    [faults] fail with the status given there and change nothing.  The
    stand-in never reads through the [inc] pointer of [read_subset]. *)

Module Toy.

Record world : Type := {
  handles : Z;
  cards : list string;
  colnames : list string;
  cursor : nat;
  coltype : Z;
  cells : list (option Z);
  axes : Z * Z;
  pixels : list Z
}.

(** The C type CFITSIO stores elements of a datatype code as, by the
    numbers of [fitsio_h]. *)
Definition elt_of (datatype : Z) : ctype :=
  if datatype =? 11 then c_uchar
  else if datatype =? 20 then c_ushort
  else if datatype =? 21 then c_short
  else if datatype =? 30 then c_uint
  else if datatype =? 31 then c_int
  else if datatype =? 41 then c_long
  else if datatype =? 42 then c_float
  else if datatype =? 81 then c_int64
  else c_double.

Definition set_handles (w : world) (h : Z) : world :=
  {| handles := h; cards := cards w; colnames := colnames w;
     cursor := cursor w; coltype := coltype w; cells := cells w;
     axes := axes w; pixels := pixels w |}.
Definition set_cards (w : world) (c : list string) : world :=
  {| handles := handles w; cards := c; colnames := colnames w;
     cursor := cursor w; coltype := coltype w; cells := cells w;
     axes := axes w; pixels := pixels w |}.
Definition set_cursor (w : world) (k : nat) : world :=
  {| handles := handles w; cards := cards w; colnames := colnames w;
     cursor := k; coltype := coltype w; cells := cells w;
     axes := axes w; pixels := pixels w |}.
Definition set_cells (w : world) (c : list (option Z)) : world :=
  {| handles := handles w; cards := cards w; colnames := colnames w;
     cursor := cursor w; coltype := coltype w; cells := c;
     axes := axes w; pixels := pixels w |}.
Definition set_pixels (w : world) (p : list Z) : world :=
  {| handles := handles w; cards := cards w; colnames := colnames w;
     cursor := cursor w; coltype := coltype w; cells := cells w;
     axes := axes w; pixels := p |}.

(** The pixels of the rectangle from [(f0, f1)] to [(l0, l1)], first axis
    running fastest. *)
Definition rectangle (w : world) (f0 f1 l0 l1 : Z) : list Z :=
  flat_map
    (fun j => map (fun i => nth (i + j * Z.to_nat (fst (axes w))) (pixels w) 0)
                  (seq (Z.to_nat (f0 - 1)) (Z.to_nat (l0 - f0 + 1))))
    (seq (Z.to_nat (f1 - 1)) (Z.to_nat (l1 - f1 + 1))).

Definition null_value (nul : nulval) : Z :=
  match nul with Some (_, v) => v | None => 0 end.

Definition serve (c : call) (w : world) : Z * reply * world :=
  match c with
  | open_file _ _ | open_image _ _ | create_file _ =>
      (0, RNone, set_handles w (handles w + 1))
  | close_file => (0, RNone, set_handles w (handles w - 1))
  | movabs_hdu _ => (0, RInt 0, w)
  | get_num_rows => (0, RInt (Z.of_nat (List.length (cells w))), w)
  | get_num_cols => (0, RInt (Z.of_nat (List.length (colnames w))), w)
  | get_coltype _ => (0, RColtype (coltype w) 1 8, w)
  | get_col_display_width _ => (0, RInt 10, w)
  | get_colname _ _ colnum status_in =>
      if (0 <? status_in) && negb (status_in =? 237) then (status_in, RNone, w)
      else
        let k := if status_in =? 237 then cursor w else O in
        match nth_error (colnames w) k with
        | Some n => (237, RColname n (Z.of_nat k + 1), set_cursor w (S k))
        | None => (219, RNone, w)
        end
  | read_col datatype _ _ _ nelem nul =>
      (0, RCells (elt_of datatype)
                 (map (fun c => match c with
                                | Some v => v
                                | None => null_value nul
                                end)
                      (firstn (Z.to_nat nelem) (cells w))), w)
  | write_col datatype _ _ _ nelem (BufVals elt vals) =>
      (0, RNone,
       set_cells w (map Some (fill (elt_of datatype) elt (Z.to_nat nelem) vals)))
  | read_key _ _ => (202, RNone, w)
  | get_hdrpos =>
      (0, RHdrpos (Z.of_nat (List.length (cards w)))
                  (Z.of_nat (List.length (cards w)) + 1), w)
  | read_record k =>
      match nth_error (cards w) (Z.to_nat (k - 1)) with
      | Some card => if 1 <=? k then (0, RString card, w) else (203, RNone, w)
      | None => (203, RNone, w)
      end
  | delete_record k =>
      if (1 <=? k) && (k <=? Z.of_nat (List.length (cards w)))
      then (0, RNone, set_cards w (remove_at (Z.to_nat (k - 1)) (cards w)))
      else (203, RNone, w)
  | read_img datatype firstelem nelem _ =>
      (0, RCells (elt_of datatype)
                 (firstn (Z.to_nat nelem)
                         (skipn (Z.to_nat (firstelem - 1)) (pixels w))), w)
  | read_subset datatype [f0; f1] [l0; l1] _ _ =>
      (0, RCells (elt_of datatype) (rectangle w f0 f1 l0 l1), w)
  | write_pix datatype _ nelem (BufVals elt vals) =>
      (0, RNone,
       set_pixels w (fill (elt_of datatype) elt (Z.to_nat nelem) vals))
  | _ => (0, RNone, w)
  end.

Definition fault (faults : list (string * Z)) (c : call) : option Z :=
  match find (fun f => String.eqb (fst f) (call_name c)) faults with
  | Some f => Some (snd f)
  | None => None
  end.

Definition errstatus (status : Z) : string :=
  if status =? 104 then "could not open the named file"
  else if status =? 202 then "keyword not found in header"
  else if status =? 203 then "keyword number out of bounds"
  else if status =? 219 then "named column not found"
  else if status =? 252 then "1st key not SIMPLE or XTENSION"
  else "unknown error status".

Definition lib (faults : list (string * Z)) : Cfitsio world := {|
  ffcall := fun c w =>
    match fault faults c with
    | Some status => (status, RNone, w)
    | None => serve c w
    end;
  ffgerr := errstatus
|}.

Definition blank : world := {|
  handles := 0; cards := []; colnames := []; cursor := O; coltype := 82;
  cells := []; axes := (0, 0); pixels := []
|}.

(** A table of two columns whose first column holds [cs] as type [t]. *)
Definition table (t : Z) (cs : list (option Z)) : world := {|
  handles := 0; cards := ["XTENSION"; "BITPIX"; "NAXIS"];
  colnames := ["X"; "NAME"]; cursor := O; coltype := t; cells := cs;
  axes := (0, 0); pixels := []
|}.

(** An image of [n1] by [n2] pixels with a header of three cards. *)
Definition image (n1 n2 : Z) (ps : list Z) : world := {|
  handles := 0; cards := ["SIMPLE"; "BITPIX"; "NAXIS"]; colnames := [];
  cursor := O; coltype := 82; cells := []; axes := (n1, n2); pixels := ps
|}.

End Toy.

(** ** The life of the handle

    What the calls of a run do to the one [fitsfile *] a wrapper holds: no
    handle yet, a handle held, the handle given back.  A successful open or
    create hands it out, [fits_close_file] gives it back, every other call
    needs it.  A call without a handle, a second open while one is held and
    any call after the close fall outside the protocol. *)

Inductive hstate : Type := Fresh | Held | Released.

Definition is_open_call (c : call) : bool :=
  match c with
  | open_file _ _ | open_image _ _ | create_file _ => true
  | _ => false
  end.

Definition handle_step (q : hstate) (e : event) : option hstate :=
  match q with
  | Fresh =>
      if is_open_call (fst e)
      then Some (if snd e =? 0 then Held else Fresh)
      else None
  | Held =>
      match fst e with
      | close_file => Some Released
      | c => if is_open_call c then None else Some Held
      end
  | Released => None
  end.

(** The state after a trace (latest call first). *)
Fixpoint handle_state (tr : list event) : option hstate :=
  match tr with
  | [] => Some Fresh
  | e :: older =>
      match handle_state older with
      | Some q => handle_step q e
      | None => None
      end
  end.

(** What the protocol asks of a finished run: a normal return has given the
    handle back, a loop still running holds it, a run that ended otherwise
    has at least stayed inside the protocol. *)
Definition handle_ok {W} (out : result value * state W) : Prop :=
  match fst out with
  | Ok VRunning => handle_state (trace (snd out)) = Some Held
  | Ok _ => handle_state (trace (snd out)) = Some Released
  | Throw _ => handle_state (trace (snd out)) <> None
  | Fault _ => handle_state (trace (snd out)) <> None
  end.

(** ** Calls that change the file *)

Definition mutates (c : call) : bool :=
  match c with
  | create_file _ | create_hdu | create_tbl _ _ _ _ _ _ _ | create_img _ _ _
  | delete_hdu | write_col _ _ _ _ _ _ | update_key _ _ _ _ | delete_key _
  | delete_record _ | write_pix _ _ _ _ => true
  | _ => false
  end.

(** The exported functions whose name says they read. *)
Definition is_reader (op : operation) : bool :=
  match op with
  | op_read_col _ _ _ | op_read_nrow _ _ | op_read_ncol _ _
  | op_read_colname _ _ _ | op_read_key _ _ _ _ | op_read_img _ _ _ _ _
  | op_read_header _ _ | op_read_img_subset _ _ _ _ _ _ _ => true
  | _ => false
  end.

(** Every call a computation makes satisfies [P]. *)
Definition emits {W A} (P : event -> Prop) (m : M W A) : Prop :=
  forall s, exists evs,
    trace (snd (m s)) = (evs ++ trace s)%list /\ Forall P evs.

(** ** Sizes of results *)

(** The number of elements of an R value. *)
Definition vlength (v : SEXP) : nat :=
  match v with
  | IntegerVector l | IntegerMatrix _ _ l => List.length l
  | NumericVector l _ | NumericMatrix _ _ l => List.length l
  | StringVector l => List.length l
  end.

(** ** Library behaviour the readers are checked against *)

(** What [Cfits_read_header] needs of the library for the header of HDU
    [ext] of [filename], seen through [hdr]: none of its calls changes the
    cards, the count is the number of cards, and reading record [k] gives
    the [k]-th card. *)
Record HeaderReader {W} (K : Header) (L : Cfitsio W) (filename : string)
    (ext : Z) (hdr : W -> list string) : Prop := {
  hr_open : forall w, exists r w',
    ffcall L (open_image filename (READONLY K)) w = (0, r, w') /\
    hdr w' = hdr w;
  hr_movabs : forall w, exists r w',
    ffcall L (movabs_hdu ext) w = (0, r, w') /\ hdr w' = hdr w;
  hr_hdrpos : forall w, exists keypos w',
    ffcall L get_hdrpos w
      = (0, RHdrpos (Z.of_nat (List.length (hdr w))) keypos, w') /\
    hdr w' = hdr w;
  hr_record : forall k card w,
    nth_error (hdr w) k = Some card ->
    exists w',
      ffcall L (read_record (Z.of_nat k + 1)) w = (0, RString card, w') /\
      hdr w' = hdr w;
  hr_close : forall w, exists r w',
    ffcall L close_file w = (0, r, w') /\ hdr w' = hdr w
}.

(** The answers of the library to the lookups of [Cfits_read_colname], as
    the loop makes them one after the other from world [w] with the status
    and column number it carries: a name with a status other than
    [COL_NOT_FOUND] for each element of the list, then [COL_NOT_FOUND],
    leaving the world [w_end]. *)
Inductive enumerates {W} (K : Header) (L : Cfitsio W)
    : W -> Z -> Z -> list string -> W -> Prop :=
| enum_done w status colref r w' :
    ffcall L (get_colname (CASEINSEN K) "*" colref status) w
      = (COL_NOT_FOUND K, r, w') ->
    enumerates K L w status colref [] w'
| enum_name w status colref status' name colref' w' names w_end :
    ffcall L (get_colname (CASEINSEN K) "*" colref status) w
      = (status', RColname name colref', w') ->
    status' <> COL_NOT_FOUND K ->
    enumerates K L w' status' colref' names w_end ->
    enumerates K L w status colref (name :: names) w_end.

(** ** Default arguments

    The source gives trailing parameters default values; a call that leaves
    them out is the call with these. *)

Section Defaults.

Context {W : Type}.
Variable K : Header.
Variable L : Cfitsio W.

Definition Cfits_write_col_default (filename : string) (data : rdata)
    (nrow : Z) : M W unit :=
  Cfits_write_col K L filename data nrow 1 2 1.

Definition Cfits_update_key_default (filename : string) (keyvalue : rdata)
    (keyname comment : string) : M W unit :=
  Cfits_update_key K L filename keyvalue keyname comment 2 1.

Definition Cfits_read_img_default (filename : string) : M W SEXP :=
  Cfits_read_img K L filename 100 100 1 (-32).

Definition Cfits_read_img_subset_default (filename : string) : M W SEXP :=
  Cfits_read_img_subset K L filename 1 100 1 100 1 (-32).

End Defaults.

(** ** Reading an exception message

    The name between the fixed prefix and the first colon of a message. *)

Fixpoint drop_prefix (p s : string) : option string :=
  match p with
  | EmptyString => Some s
  | String a p' =>
      match s with
      | String b s' => if Ascii.eqb a b then drop_prefix p' s' else None
      | EmptyString => None
      end
  end.

(** The character [:]. *)
Definition colon : Ascii.ascii := Ascii.ascii_of_nat 58.

Fixpoint upto_colon (s : string) : string :=
  match s with
  | EmptyString => EmptyString
  | String a s' =>
      if Ascii.eqb a colon then EmptyString else String a (upto_colon s')
  end.

Definition failing_call (message : string) : option string :=
  option_map upto_colon (drop_prefix "Error when invoking fits_" message).

(** ** A library with one string column

    A second stand-in, for the string branch: its world is the column, a list
    of strings; writing strings replaces them, reading gives them back. *)

Module Names.

Definition serve (c : call) (w : list string) : Z * reply * list string :=
  match c with
  | movabs_hdu _ => (0, RInt 0, w)
  | get_num_rows => (0, RInt (Z.of_nat (List.length w)), w)
  | get_num_cols => (0, RInt 1, w)
  | get_coltype _ => (0, RColtype 16 1 8, w)
  | get_col_display_width _ => (0, RInt 8, w)
  | read_col _ _ _ _ nelem _ => (0, RStrings (firstn (Z.to_nat nelem) w), w)
  | write_col _ _ _ _ nelem (BufStrs strs) =>
      (0, RNone, firstn (Z.to_nat nelem) strs)
  | _ => (0, RNone, w)
  end.

Definition lib : Cfitsio (list string) := {|
  ffcall := serve;
  ffgerr := fun _ => "unknown error status"
|}.

End Names.

(** ** A library with one numeric keyword

    A third stand-in, for the keyword functions: its world is the value of
    the keyword, if it is present. *)

Module Keys.

Definition serve (c : call) (w : option Z) : Z * reply * option Z :=
  match c with
  | movabs_hdu _ => (0, RInt 0, w)
  | update_key _ _ (BufVals _ (v :: _)) _ => (0, RNone, Some v)
  | read_key _ _ =>
      match w with
      | Some v => (0, RCells c_double [v], w)
      | None => (202, RNone, w)
      end
  | delete_key _ =>
      match w with
      | Some _ => (0, RNone, None)
      | None => (202, RNone, w)
      end
  | _ => (0, RNone, w)
  end.

Definition lib : Cfitsio (option Z) := {|
  ffcall := serve;
  ffgerr := fun status =>
    if status =? 202 then "keyword not found in header"
    else "unknown error status"
|}.

End Keys.

(** ** Auxiliary notions of the further properties *)

(** The handle is held. *)
Definition holds {W} (s : state W) : Prop :=
  handle_state (trace s) = Some Held.

(** The body of the loop of [Cfits_read_header], without the store into
    [out]. *)
Definition record_body {W} (L : Cfitsio W) (ii : Z) : M W string :=
  r <- fits_invoke L (read_record ii) ;; ret (reply_string r).

(** The two shorts an [int] is made of, low half first. *)
Definition short_halves (v : Z) : list Z :=
  [decode c_short (le_bytes 2 v); decode c_short (le_bytes 2 (v / 65536))].

(** * Theorems *)

(** ** Object representation *)

Lemma le_bytes_length (n : nat) (v : Z) : List.length (le_bytes n v) = n.
Proof.
  revert v; induction n as [|n IH]; intro v; simpl; [reflexivity|].
  now rewrite IH.
Qed.

Lemma le_value_le_bytes (n : nat) (v : Z) :
  le_value (le_bytes n v) = v mod 256 ^ Z.of_nat n.
Proof.
  revert v; induction n as [|n IH]; intro v.
  - simpl. now rewrite Z.mod_1_r.
  - cbn [le_bytes le_value]. rewrite IH.
    rewrite Nat2Z.inj_succ, Z.pow_succ_r by lia.
    rewrite Z.rem_mul_r by lia. reflexivity.
Qed.

Lemma pow_split (k : Z) : 0 < k -> 2 ^ k = 2 * 2 ^ (k - 1).
Proof.
  intro H. replace k with (Z.succ (k - 1)) at 1 by lia.
  rewrite Z.pow_succ_r by lia. reflexivity.
Qed.

Lemma bytes_pow (n : nat) : 256 ^ Z.of_nat n = 2 ^ (8 * Z.of_nat n).
Proof.
  change 256 with (2 ^ 8). rewrite <- Z.pow_mul_r by lia. reflexivity.
Qed.

Lemma sizeof_pos (t : ctype) : (0 < sizeof t)%nat.
Proof. destruct t; simpl; lia. Qed.

(** An object read back as the type it was stored as is the value stored. *)
Lemma decode_le_bytes (t : ctype) (z : Z) :
  in_range t z -> decode t (le_bytes (sizeof t) z) = z.
Proof.
  unfold in_range, decode. rewrite le_value_le_bytes, bytes_pow.
  pose proof (sizeof_pos t) as Hs.
  set (k := 8 * Z.of_nat (sizeof t)).
  assert (Hk : 0 < k) by (unfold k; lia).
  pose proof (pow_split k Hk) as Hp.
  assert (Hq : 0 < 2 ^ (k - 1)) by (apply Z.pow_pos_nonneg; lia).
  destruct (is_signed t); simpl; intro H.
  - destruct (Z_lt_ge_dec z 0) as [Hn|Hn].
    + assert (E : z mod 2 ^ k = z + 2 ^ k).
      { symmetry. apply Z.mod_unique with (q := -1); lia. }
      rewrite E. destruct (Z.leb_spec (2 ^ (k - 1)) (z + 2 ^ k)); lia.
    + rewrite Z.mod_small by lia.
      destruct (Z.leb_spec (2 ^ (k - 1)) z); lia.
  - apply Z.mod_small; lia.
Qed.

Lemma firstn_length_app {A} (l r : list A) :
  firstn (List.length l) (l ++ r) = l.
Proof. induction l as [|a l IH]; simpl; [now destruct r | now rewrite IH]. Qed.

Lemma skipn_length_app {A} (l r : list A) :
  skipn (List.length l) (l ++ r) = r.
Proof. induction l as [|a l IH]; simpl; [reflexivity | exact IH]. Qed.

Lemma chunks_flat_map (k : nat) (cells : list Z) :
  chunks k (List.length cells) (flat_map (le_bytes k) cells)
  = map (le_bytes k) cells.
Proof.
  induction cells as [|c cells IH]; simpl; [reflexivity|].
  pose proof (firstn_length_app (le_bytes k c) (flat_map (le_bytes k) cells))
    as Hf.
  pose proof (skipn_length_app (le_bytes k c) (flat_map (le_bytes k) cells))
    as Hs.
  rewrite le_bytes_length in Hf, Hs. rewrite Hf, Hs, IH. reflexivity.
Qed.

Lemma flat_map_le_bytes_length (k : nat) (cells : list Z) :
  List.length (flat_map (le_bytes k) cells) = (List.length cells * k)%nat.
Proof.
  induction cells as [|c cells IH]; simpl; [reflexivity|].
  rewrite length_app, le_bytes_length, IH. reflexivity.
Qed.

(** A vector whose element type is the type the library stored, and which
    the library filled entirely, holds the elements the library stored. *)
Lemma fill_same (t : ctype) (n : nat) (cells : list Z) :
  List.length cells = n -> Forall (in_range t) cells ->
  fill t t n cells = cells.
Proof.
  intros Hn Hr. unfold fill. subst n.
  pose proof (firstn_length_app (flat_map (le_bytes (sizeof t)) cells)
                (repeat 0 (List.length cells * sizeof t))) as Hf.
  rewrite flat_map_le_bytes_length in Hf. rewrite Hf.
  rewrite chunks_flat_map, map_map. clear Hf.
  induction Hr as [|c cells Hc Hr IH]; cbn [map]; [reflexivity|].
  rewrite decode_le_bytes by exact Hc. now rewrite IH.
Qed.

Lemma to_int_in_range (z : Z) : in_range c_int z -> to_int z = z.
Proof.
  unfold in_range, to_int. cbn [is_signed sizeof].
  change (8 * Z.of_nat 4 - 1) with 31. intro H.
  assert (E : 2 ^ 32 = 2 * 2 ^ 31) by reflexivity.
  assert (P : 0 < 2 ^ 31) by reflexivity.
  rewrite E. generalize dependent (2 ^ 31). intros p H _ P.
  rewrite Z.mod_small; lia.
Qed.

(** ** Reasoning about runs *)

Section Runs.

Context {W : Type}.
Variable K : Header.
Variable L : Cfitsio W.

Lemma bind_ok {A B} (m : M W A) (k : A -> M W B) s a s' :
  m s = (Ok a, s') -> bind m k s = k a s'.
Proof. unfold bind; intros ->; reflexivity. Qed.

Lemma bind_throw {A B} (m : M W A) (k : A -> M W B) s e s' :
  m s = (Throw e, s') -> bind m k s = (Throw e, s').
Proof. unfold bind; intros ->; reflexivity. Qed.

Lemma bind_fault {A B} (m : M W A) (k : A -> M W B) s f s' :
  m s = (Fault f, s') -> bind m k s = (Fault f, s').
Proof. unfold bind; intros ->; reflexivity. Qed.

(** A guarded step either ends the run or lets it go on. *)
Lemma bind_guard {A B} (b : bool) (f : failure) (a : A) (k : A -> M W B) s :
  bind (if b then fail_with f else ret a) k s
  = if b then (Fault f, s) else k a s.
Proof. destruct b; reflexivity. Qed.

Lemma received_ok buf n r (s : state W) :
  overruns buf n r = false -> received buf n r s = (Ok (filled buf n r), s).
Proof. unfold received. intros ->. reflexivity. Qed.

(** A vector of [n] elements of the type the library stores is not overrun
    by [n] elements. *)
Lemma received_same t n cells (s : state W) :
  List.length cells = Z.to_nat n -> Forall (in_range t) cells ->
  @received W t n (RCells t cells) s = (Ok cells, s).
Proof.
  intros Hn Hr. rewrite received_ok.
  - unfold filled. cbn [reply_elt reply_cells]. now rewrite fill_same.
  - unfold overruns. cbn [reply_elt reply_cells]. rewrite Hn.
    apply Nat.ltb_irrefl.
Qed.

Lemma int_mul_ok a b (s : state W) :
  in_int (a * b) = true -> @int_mul W a b s = (Ok (a * b), s).
Proof. unfold int_mul. intros ->. reflexivity. Qed.

Lemma new_vector_ok n (s : state W) : 0 <= n -> @new_vector W n s = (Ok tt, s).
Proof.
  intro H. unfold new_vector.
  now rewrite (proj2 (Z.ltb_ge n 0) H).
Qed.

Lemma new_matrix_ok n1 n2 (s : state W) :
  0 <= n1 -> 0 <= n2 -> @new_matrix W n1 n2 s = (Ok tt, s).
Proof.
  intros H1 H2. unfold new_matrix.
  now rewrite (proj2 (Z.ltb_ge n1 0) H1), (proj2 (Z.ltb_ge n2 0) H2).
Qed.

Lemma fits_invoke_ok c s r w' :
  ffcall L c (world s) = (0, r, w') ->
  fits_invoke L c s = (Ok r, after s c 0 w').
Proof.
  intro H. unfold fits_invoke, _fits_invoke, bind, ff. rewrite H. reflexivity.
Qed.

Lemma fits_invoke_fail c s status r w' :
  ffcall L c (world s) = (status, r, w') -> status <> 0 ->
  fits_invoke L c s
  = (Throw (fits_status_to_exception L (call_name c) status),
     after s c status w').
Proof.
  intros H Hs. unfold fits_invoke, _fits_invoke, bind, ff. rewrite H.
  cbn [fst snd]. apply Z.eqb_neq in Hs. rewrite Hs. reflexivity.
Qed.

Lemma fits_safe_open_file_ok f mode s r w' :
  ffcall L (open_file f mode) (world s) = (0, r, w') ->
  fits_safe_open_file L f mode s = (Ok r, after s (open_file f mode) 0 w').
Proof.
  intro H. unfold fits_safe_open_file, bind, ff. rewrite H. reflexivity.
Qed.

Lemma fits_invoke_cases c s :
  (exists r w', ffcall L c (world s) = (0, r, w') /\
                fits_invoke L c s = (Ok r, after s c 0 w')) \/
  (exists status w', status <> 0 /\
     fits_invoke L c s
     = (Throw (fits_status_to_exception L (call_name c) status),
        after s c status w')).
Proof.
  destruct (ffcall L c (world s)) as [[status r] w'] eqn:E.
  destruct (Z.eq_dec status 0) as [-> | Hne].
  - left. exists r, w'. split; [reflexivity | now apply fits_invoke_ok].
  - right. exists status, w'. split; [exact Hne|].
    now apply fits_invoke_fail with (r := r).
Qed.

(** *** The status discipline is kept by every building block *)

Lemma keeps_still {A} (m : M W A) :
  (forall s, snd (m s) = s) ->
  (forall s, unraised (thrown (fst (m s)))) ->
  keeps L m.
Proof.
  intros Hs Ht s. exists []. rewrite Hs. split; [reflexivity|].
  left. split; [constructor | apply Ht].
Qed.

Lemma keeps_ret {A} (a : A) : keeps L (ret a).
Proof. apply keeps_still; intro s; [reflexivity | now left]. Qed.

(** The one exception the wrappers raise themselves. *)
Lemma keeps_throw {A} : keeps L (@throw W A "unsupported type").
Proof. apply keeps_still; intro s; [reflexivity | now right]. Qed.

Lemma keeps_fail_with {A} (f : failure) : keeps L (@fail_with W A f).
Proof. apply keeps_still; intro s; [reflexivity | now left]. Qed.

Lemma keeps_print (line : string) : keeps L (@print W line).
Proof.
  intro s. exists []. split; [reflexivity|].
  left. split; [constructor | now left].
Qed.

Lemma checked_ok_quiet evs :
  checked L is_lookup evs None -> Forall (quiet is_lookup) evs.
Proof.
  intros [[H _] | (e & rest & _ & (_ & _ & H) & _)]; [exact H | discriminate].
Qed.

Lemma keeps_bind {A B} (m : M W A) (k : A -> M W B) :
  keeps L m -> (forall a, keeps L (k a)) -> keeps L (bind m k).
Proof.
  intros Hm Hk s. unfold bind.
  destruct (Hm s) as (evs1 & Ht1 & Hc1).
  destruct (m s) as [[a | e | f] s1]; cbn [fst snd thrown] in *.
  - destruct (Hk a s1) as (evs2 & Ht2 & Hc2).
    exists (evs2 ++ evs1)%list. split.
    + rewrite Ht2, Ht1. apply app_assoc.
    + apply checked_ok_quiet in Hc1.
      destruct Hc2 as [[Hq Hu] | (e & rest & -> & Hr & Hq)].
      * left. split; [apply Forall_app; split; assumption | exact Hu].
      * right. exists e, (rest ++ evs1)%list. repeat split; try apply Hr.
        apply Forall_app; split; assumption.
  - exists evs1. split; assumption.
  - exists evs1. split; assumption.
Qed.

Lemma keeps_call (name : string) (c : call) :
  name = call_name c ->
  is_colname c = false ->
  keeps L (sr <- ff L c ;;
         if fst sr =? 0 then ret (snd sr)
         else throw (fits_status_to_exception L name (fst sr))).
Proof.
  intros -> Hcol s. unfold bind, ff.
  destruct (ffcall L c (world s)) as [[status r] w'].
  cbn [fst snd]. exists [(c, status)]. split.
  - destruct (status =? 0); reflexivity.
  - destruct (Z.eqb_spec status 0) as [-> | Hne]; cbn [fst thrown ret throw].
    + left. split; [| now left].
      constructor; [left; reflexivity | constructor].
    + right. exists (c, status), []. repeat split; auto.
Qed.

Lemma keeps_fits_invoke (c : call) :
  is_colname c = false -> keeps L (fits_invoke L c).
Proof. intro H. now apply keeps_call. Qed.

Lemma keeps_fits_safe_open_file f mode :
  keeps L (fits_safe_open_file L f mode).
Proof. apply (keeps_call "open_file" (open_file f mode)); reflexivity. Qed.

Lemma keeps_ff_colname cs t k st :
  keeps L (ff L (get_colname cs t k st)).
Proof.
  intro s. unfold ff.
  destruct (ffcall L _ (world s)) as [[status r] w'].
  exists [(get_colname cs t k st, status)]. split; [reflexivity|].
  left. split; [| now left].
  constructor; [right; reflexivity | constructor].
Qed.

Lemma keeps_fmap {A B} (f : A -> B) (m : M W A) :
  keeps L m -> keeps L (fmap f m).
Proof. intro H. apply keeps_bind; [exact H | intro; apply keeps_ret]. Qed.

Lemma keeps_for_loop {A} (body : Z -> M W A) (n : nat) (ii : Z) :
  (forall i, keeps L (body i)) -> keeps L (for_loop n ii body).
Proof.
  intro Hb. revert ii. induction n as [|n IH]; intro ii; cbn [for_loop].
  - apply keeps_ret.
  - apply keeps_bind; [apply Hb | intro a].
    apply keeps_bind; [apply IH | intro; apply keeps_ret].
Qed.

Lemma keeps_colname_while (fuel : nat) (c : colname_loop) :
  keeps L (colname_while K L fuel c).
Proof.
  revert c. induction fuel as [|n IH]; intro c; cbn [colname_while];
    destruct (cl_status c =? COL_NOT_FOUND K); try apply keeps_ret.
  apply keeps_bind; [| intro; apply IH].
  unfold colname_body. apply keeps_bind; [apply keeps_ff_colname|].
  intro sr. destruct (negb _); [| apply keeps_ret].
  destruct (store_at _ _ _); [apply keeps_ret | apply keeps_fail_with].
Qed.

End Runs.

Ltac keeps_step :=
  first
    [ apply keeps_ret | apply keeps_throw | apply keeps_print
    | apply keeps_fail_with
    | apply keeps_fits_invoke; reflexivity
    | apply keeps_fits_safe_open_file
    | apply keeps_colname_while
    | apply keeps_for_loop; intro
    | apply keeps_fmap
    | apply keeps_bind; [| intro]
    | match goal with
      | |- keeps _ (if ?b then _ else _) => destruct b
      | |- keeps _ (match ?o with Some _ => _ | None => _ end) => destruct o
      end ].

Ltac keeps_all := repeat keeps_step.

(** The next call of the run succeeds, by the equation [H] on the library. *)
Ltac invoke H :=
  erewrite bind_ok;
  [| first [apply fits_invoke_ok | apply fits_safe_open_file_ok];
     cbn [world after init]; exact H].

(** Case analysis on the next guarded step of a run. *)
Ltac guarded :=
  unfold int_mul, new_vector, new_matrix, received;
  rewrite bind_guard;
  match goal with
  | |- context [if ?b then (Fault _, _) else _] =>
      let E := fresh "E" in destruct b eqn:E
  end.

(** The next step of the run is an allocation or a product that succeeds. *)
Ltac allocate :=
  erewrite bind_ok;
  [| first [ apply int_mul_ok | apply new_vector_ok | apply new_matrix_ok ];
     first [ assumption | reflexivity | lia ] ].

(** ** Status checking *)

Ltac unfold_wrappers :=
  unfold run, Cfits_read_col, Cfits_read_nrow, Cfits_read_ncol,
    Cfits_read_colname, Cfits_create_bintable, Cfits_write_col,
    Cfits_read_key, Cfits_update_key, Cfits_create_image, Cfits_read_img,
    Cfits_write_image, Cfits_read_header, Cfits_delete_HDU, Cfits_delete_key,
    Cfits_delete_header, Cfits_read_img_subset, received, int_mul,
    new_vector, new_matrix.

(** Every exported function checks the status of each call but the
    lookups. *)
Lemma run_keeps {W} (K : Header) (L : Cfitsio W) (fuel : nat)
    (op : operation) :
  keeps L (run K L fuel op).
Proof. destruct op; unfold_wrappers; keeps_all. Qed.

Lemma quiet_covered {W} (K : Header) (L : Cfitsio W) (evs : list event) :
  Forall (covered K L) evs -> Forall (quiet is_lookup) evs ->
  Forall (quiet (enumeration K)) evs.
Proof.
  intros Hc Hq. induction Hq as [|e evs He _ IH]; constructor.
  - apply Forall_inv in Hc. unfold covered in Hc.
    destruct He as [Hz | Hl]; [left; exact Hz|].
    unfold is_lookup in Hl. rewrite Hl in Hc. exact Hc.
  - apply IH. eapply Forall_inv_tail. exact Hc.
Qed.

(** C6, as amended: in every exported function, every CFITSIO call made
    through [fits_invoke] or [fits_safe_open_file] has its status checked at
    once, and a non-zero status ends the run with an exception whose message
    carries the name of the failing call and the library's text for the
    status, a text of at most 29 characters.  Of the lookups of
    [Cfits_read_colname] the statuses [COL_NOT_UNIQUE] and [COL_NOT_FOUND],
    by which the library enumerates the names, are not turned into
    exceptions.  The statement covers the runs whose lookups return 0 or one
    of these two statuses; it says nothing of a lookup that returns another
    status, nor of a status text of 30 characters. *)
Theorem status_checked_outside_enumeration :
  forall (W : Type) (K : Header) (L : Cfitsio W) (fuel : nat)
         (op : operation) (w : W),
    Forall (covered K L) (trace (snd (run K L fuel op (init w)))) ->
    disciplined L (enumeration K) (init w) (run K L fuel op (init w)).
Proof.
  intros W K L fuel op w Hcov.
  destruct (run_keeps K L fuel op (init w)) as (evs & Ht & Hc).
  exists evs. split; [exact Ht|].
  cbn [init trace] in Ht. rewrite app_nil_r in Ht. rewrite Ht in Hcov.
  destruct Hc as [[Hq Hu] | (e & rest & -> & (Hne & Hl & Hm) & Hq)].
  - left. split; [now apply (quiet_covered K L) | exact Hu].
  - right. exists e, rest. repeat split.
    + exact Hne.
    + unfold enumeration. unfold is_lookup in Hl. now rewrite Hl.
    + exact Hm.
    + apply (quiet_covered K L); [| exact Hq].
      eapply Forall_inv_tail. exact Hcov.
Qed.

Lemma status_checked_outside_enumeration_witness :
  let L := Toy.lib [("close_file", 104)] in
  let w := Toy.table 82 [Some 1] in
  let out := run fitsio_h L 3 (op_read_colname "t.fits" 1 2) (init w) in
  map snd (trace (snd out)) = [104; 219; 237; 237; 0; 0; 0] /\
  fst out
  = Throw "Error when invoking fits_close_file: could not open the named file"
  /\ disciplined L (enumeration fitsio_h) (init w) out.
Proof.
  intros L w out. split; [reflexivity|]. split; [reflexivity|].
  apply (status_checked_outside_enumeration Toy.world fitsio_h L 3
           (op_read_colname "t.fits" 1 2) w).
  repeat constructor; cbn; try discriminate; try tauto; intros _; lia.
Defined.

(** C6, as stated, fails: on a table of two columns the lookups of
    [Cfits_read_colname] return the non-zero statuses [COL_NOT_UNIQUE] (237),
    once per name, and then [COL_NOT_FOUND] (219); none of them is turned
    into an exception and the function returns the two names. *)
Lemma colname_status_unchecked :
  let L := Toy.lib [] in
  let s := init (Toy.table 82 [Some 1]) in
  let out := run fitsio_h L 3 (op_read_colname "t.fits" 1 2) s in
  fst out = Ok (VSexp (StringVector ["X"; "NAME"])) /\
  map snd (trace (snd out)) = [0; 219; 237; 237; 0; 0; 0] /\
  ~ disciplined L (fun _ => false) s out.
Proof.
  intros L s out.
  assert (Ef : fst out = Ok (VSexp (StringVector ["X"; "NAME"])))
    by reflexivity.
  let t := eval vm_compute in (trace (snd out)) in
  assert (Et : trace (snd out) = t) by reflexivity.
  clearbody out.
  split; [exact Ef|]. split; [rewrite Et; reflexivity|].
  intros (evs & Ht & Hc). rewrite Et in Ht. cbn [s init trace] in Ht.
  rewrite app_nil_r in Ht. subst evs. rewrite Ef in Hc. cbn [thrown] in Hc.
  destruct Hc as [[Hq _] | (e & rest & He & (Hne & _) & _)].
  - inversion Hq as [|? ? _ Hq1]; subst.
    inversion Hq1 as [|? ? [Hz | Hx] _]; subst; cbn in *; discriminate.
  - inversion He; subst. cbn in Hne. congruence.
Qed.

(** ** Unsupported type codes *)

Lemma not_in_eqb (x c : Z) (l : list Z) :
  ~ In x l -> In c l -> (x =? c) = false.
Proof. intros Hn Hc. apply Z.eqb_neq. intros ->. now apply Hn. Qed.

(** X19: the image readers raise "unsupported type" on a type code outside
    their chain, once the file is open and the HDU reached, whatever the
    axes or the corners of the rectangle asked for, as long as the number of
    pixels they compute from them first is an [int]. *)
Lemma read_img_unsupported {W} (K : Header) (L : Cfitsio W)
    f naxis1 naxis2 fpixel0 fpixel1 lpixel0 lpixel1 ext datatype s
    r1 w1 r2 w2 :
  img_dispatch K datatype = None ->
  in_int (naxis1 * naxis2) = true ->
  in_int (to_int (lpixel1 - fpixel0 + 1) * to_int (lpixel1 - lpixel0 + 1))
  = true ->
  ffcall L (open_image f (READONLY K)) (world s) = (0, r1, w1) ->
  ffcall L (movabs_hdu ext) w1 = (0, r2, w2) ->
  fst (Cfits_read_img K L f naxis1 naxis2 ext datatype s)
  = Throw "unsupported type" /\
  fst (Cfits_read_img_subset K L f fpixel0 fpixel1 lpixel0 lpixel1 ext
         datatype s)
  = Throw "unsupported type".
Proof.
  intros Hd Hn Hm H1 H2. unfold Cfits_read_img, Cfits_read_img_subset.
  split; invoke H1; invoke H2; allocate; rewrite Hd; reflexivity.
Qed.

(** X18: [Cfits_read_col] raises "unsupported type" when the type code the
    library reports for the column is outside its chain. *)
Lemma read_col_unsupported {W} (K : Header) (L : Cfitsio W)
    f colref ext s r1 w1 r2 w2 nrow w3 typecode repeat width w4 :
  (typecode =? TSTRING K) = false ->
  col_dispatch K typecode = None ->
  ffcall L (open_file f (READONLY K)) (world s) = (0, r1, w1) ->
  ffcall L (movabs_hdu ext) w1 = (0, r2, w2) ->
  ffcall L get_num_rows w2 = (0, RInt nrow, w3) ->
  ffcall L (get_coltype colref) w3 = (0, RColtype typecode repeat width, w4) ->
  fst (Cfits_read_col K L f colref ext s) = Throw "unsupported type".
Proof.
  intros Hs Hd H1 H2 H3 H4. unfold Cfits_read_col.
  invoke H1. invoke H2. invoke H3. invoke H4.
  cbn [reply_typecode]. rewrite Hs, Hd. reflexivity.
Qed.

(** X17: the writers, given any code outside their chains, make no write
    call: once the file is open and the HDU reached they close the file and
    return normally. *)
Lemma write_unsupported {W} (K : Header) (L : Cfitsio W)
    f data nrow colref ext code keyname comment n1 n2 (w0 w1 w2 w3 : W)
    r1 r2 r3 :
  ~ In code [TSTRING K; TINT K; TLONGLONG K; TDOUBLE K; TSHORT K; TLONG K;
             TFLOAT K] ->
  ffcall L (open_file f (READWRITE K)) w0 = (0, r1, w1) ->
  ffcall L (movabs_hdu ext) w1 = (0, r2, w2) ->
  ffcall L close_file w2 = (0, r3, w3) ->
  let quiet_run :=
    (Ok tt, after (after (after (init w0) (open_file f (READWRITE K)) 0 w1)
                         (movabs_hdu ext) 0 w2) close_file 0 w3) in
  Cfits_write_col K L f data nrow colref ext code (init w0) = quiet_run /\
  Cfits_update_key K L f data keyname comment ext code (init w0) = quiet_run /\
  Cfits_write_image K L f data code n1 n2 ext (init w0) = quiet_run.
Proof.
  intros Hcode H1 H2 H3 quiet_run.
  unfold Cfits_write_col, Cfits_update_key, Cfits_write_image.
  repeat split; invoke H1; invoke H2;
    rewrite !(not_in_eqb _ _ _ Hcode) by (simpl; tauto);
    (erewrite bind_ok; [| reflexivity]); invoke H3; reflexivity.
Qed.

(** C1: the writers do not.  Given a code their chain has no branch for
    ([TFLOAT] for [Cfits_write_col] and [Cfits_update_key], [TBYTE] for
    [Cfits_write_image]), they open the file, move to the HDU, close the file
    and return normally: nothing is written and nothing is raised. *)
Theorem unsupported_write_returns_normally :
  let L := Toy.lib [] in
  let t := Toy.table 82 [Some 1; Some 2] in
  let i := Toy.image 2 2 [1; 2; 3; 4] in
  let quiet_run w :=
    (Ok VUnit,
     {| world := w;
        trace := [(close_file, 0); (movabs_hdu 2, 0);
                  (open_file "t.fits" 1, 0)];
        rcout := [] |}) in
  run fitsio_h L 0 (op_write_col "t.fits" (RReals [7; 8]) 2 1 2 42) (init t)
    = quiet_run t /\
  run fitsio_h L 0 (op_write_image "t.fits" (RReals [7; 8; 9; 10]) 11 2 2 2)
      (init i)
    = quiet_run i /\
  run fitsio_h L 0 (op_update_key "t.fits" (RReals [7]) "KEY" "" 2 42) (init t)
    = quiet_run t.
Proof. repeat split. Qed.

(** ** Handles *)

(** X16: in every exported function, when the call that follows a
    successful open or create fails, the function throws and the handle is
    never closed. *)
Lemma any_failed_move_leaks {W} (K : Header) (L : Cfitsio W) fuel op (w0 : W) :
  (forall c w, opens_handle (c, 0) = true -> fst (fst (ffcall L c w)) = 0) ->
  (forall c w, match c with movabs_hdu _ | create_hdu => True | _ => False end ->
               fst (fst (ffcall L c w)) <> 0) ->
  let out := run K L fuel op (init w0) in
  thrown (fst out) <> None /\ opened (trace (snd out)) = 1%nat /\
  closed (trace (snd out)) = 0%nat.
Proof.
  intros Hopen Hmove out.
  assert (Eo : out = run K L fuel op (init w0)) by reflexivity.
  clearbody out.
  destruct op; unfold run, fmap, Cfits_read_col, Cfits_read_nrow,
    Cfits_read_ncol, Cfits_read_colname, Cfits_create_bintable,
    Cfits_write_col, Cfits_read_key, Cfits_update_key, Cfits_create_image,
    Cfits_read_img, Cfits_write_image, Cfits_read_header, Cfits_delete_HDU,
    Cfits_delete_key, Cfits_delete_header, Cfits_read_img_subset in Eo;
    unfold bind at 1 in Eo;
    match type of Eo with
    | context [bind (fits_safe_open_file ?L ?f ?m) ?k ?s] =>
        let E := fresh "E" in
        let Hz := fresh "Hz" in
        destruct (ffcall L (open_file f m) (world s)) as [[st1 r1] w1] eqn:E;
        pose proof (Hopen (open_file f m) (world s) eq_refl) as Hz;
        rewrite E in Hz; cbn in Hz; subst st1;
        rewrite (bind_ok _ k s _ _ (fits_safe_open_file_ok L f m s r1 w1 E))
          in Eo
    | context [bind (fits_invoke ?L ?c) ?k ?s] =>
        let E := fresh "E" in
        let Hz := fresh "Hz" in
        destruct (ffcall L c (world s)) as [[st1 r1] w1] eqn:E;
        pose proof (Hopen c (world s) eq_refl) as Hz;
        rewrite E in Hz; cbn in Hz; subst st1;
        rewrite (bind_ok _ k s _ _ (fits_invoke_ok L c s r1 w1 E)) in Eo
    end;
    match type of Eo with
    | context [bind (fits_invoke ?L ?c) ?k ?s] =>
        let E := fresh "E" in
        let Hne := fresh "Hne" in
        destruct (ffcall L c (world s)) as [[st2 r2] w2] eqn:E;
        pose proof (Hmove c (world s) I) as Hne;
        rewrite E in Hne; cbn in Hne;
        rewrite (bind_throw _ k s _ _
                   (fits_invoke_fail L c s st2 r2 w2 E Hne)) in Eo
    end;
    subst out; cbn; repeat split; try discriminate; reflexivity.
Qed.

(** C5: when [fits_movabs_hdu] fails after the file was opened,
    [Cfits_read_nrow] throws with the handle still open: one handle was
    handed out and [fits_close_file] was never called. *)
Theorem failed_move_leaks_handle :
  let L := Toy.lib [("movabs_hdu", 252)] in
  let out := run fitsio_h L 0 (op_read_nrow "t.fits" 2)
                 (init (Toy.table 82 [Some 1])) in
  fst out = Throw "Error when invoking fits_movabs_hdu: 1st key not SIMPLE or XTENSION"
  /\ opened (trace (snd out)) = 1%nat
  /\ closed (trace (snd out)) = 0%nat
  /\ Toy.handles (world (snd out)) = 1.
Proof. repeat split. Qed.

(** ** Null sentinels of [Cfits_read_col] *)

Lemma col_dispatch_datatype (K : Header) (typecode : Z) (b : col_branch) :
  col_dispatch K typecode = Some b -> cb_datatype b = typecode.
Proof.
  unfold col_dispatch.
  repeat match goal with
         | |- context [typecode =? ?c] =>
             destruct (Z.eqb_spec typecode c) as [E | _];
             [intro H; injection H as <-; symmetry; exact E|]
         end.
  discriminate.
Qed.

(** Case analysis on the next call of a run made through [fits_invoke]:
    it succeeded and the run goes on, or it failed and the run threw. *)
Ltac next_call :=
  match goal with
  | |- context [bind (fits_invoke ?L ?c) ?k ?s] =>
      let r := fresh "r" in
      let w' := fresh "w" in
      let st := fresh "st" in
      let Hc := fresh "Hc" in
      let E := fresh "E" in
      destruct (fits_invoke_cases L c s) as
        [(r & w' & Hc & E) | (st & w' & Hc & E)];
      [ rewrite (bind_ok (fits_invoke L c) k s _ _ E)
      | rewrite (bind_throw (fits_invoke L c) k s _ _ E) ];
      clear E; cbn [world after]
  end.

(** C4: the sentinel of a long column is not -999.  With CFITSIO's header,
    where [TLONG] is the number of [TINT32BIT], a long column is read by the
    [TINT32BIT] branch, which comes first in the chain and whose sentinel is
    0; the [TLONG] branch, whose sentinel is -999, is never reached.  On a
    long column holding 5 and an undefined cell the undefined cell comes
    back as 0, and no call with the sentinel -999 is made. *)
Lemma long_column_sentinel_is_zero :
  let out := run fitsio_h (Toy.lib []) 0 (op_read_col "t.fits" 1 2)
                 (init (Toy.table (TLONG fitsio_h) [Some 5; None])) in
  fst out = Ok (VSexp (IntegerVector [5; 0])) /\
  In (read_col (TLONG fitsio_h) 1 1 1 2 (Some (c_long, 0)), 0)
     (trace (snd out)) /\
  ~ (exists st, In (read_col (TLONG fitsio_h) 1 1 1 2 (Some (c_long, -999)), st)
                   (trace (snd out))).
Proof.
  cbv zeta. split; [reflexivity|]. split; [vm_compute; tauto|].
  intros (st & H). vm_compute in H.
  repeat (destruct H as [H | H]; [discriminate H|]). exact H.
Qed.

(** ** Images *)

(** Whatever the library does, a matrix [Cfits_read_img_subset] returns has
    [lpixel1 - fpixel0 + 1] rows and [lpixel1 - lpixel0 + 1] columns. *)
Lemma read_img_subset_dims {W} (K : Header) (L : Cfitsio W)
    f fpixel0 fpixel1 lpixel0 lpixel1 ext datatype s v :
  fst (Cfits_read_img_subset K L f fpixel0 fpixel1 lpixel0 lpixel1 ext
         datatype s) = Ok v ->
  dims v = Some (to_int (lpixel1 - fpixel0 + 1), to_int (lpixel1 - lpixel0 + 1)).
Proof.
  unfold Cfits_read_img_subset.
  next_call; [| discriminate]. next_call; [| discriminate].
  guarded; [discriminate|].
  unfold img_dispatch.
  repeat match goal with
         | |- context [datatype =? ?c] => destruct (datatype =? c)
         end;
    try discriminate;
    (guarded; [discriminate|]); (next_call; [| discriminate]);
    (guarded; [discriminate|]); (next_call; [| discriminate]);
    (guarded; [discriminate|]);
    cbn; intro H; injection H as <-; reflexivity.
Qed.

(** And one [Cfits_read_img] returns has [naxis1] rows and [naxis2] columns. *)
Lemma read_img_dims {W} (K : Header) (L : Cfitsio W)
    f naxis1 naxis2 ext datatype s v :
  fst (Cfits_read_img K L f naxis1 naxis2 ext datatype s) = Ok v ->
  dims v = Some (naxis1, naxis2).
Proof.
  unfold Cfits_read_img.
  next_call; [| discriminate]. next_call; [| discriminate].
  guarded; [discriminate|].
  unfold img_dispatch.
  repeat match goal with
         | |- context [datatype =? ?c] => destruct (datatype =? c)
         end;
    try discriminate;
    (guarded; [discriminate|]); (next_call; [| discriminate]);
    (guarded; [discriminate|]); (next_call; [| discriminate]);
    (guarded; [discriminate|]);
    cbn; intro H; injection H as <-; reflexivity.
Qed.

(** C2: on an image of 2 by 3 doubles, [Cfits_read_img] with the declared
    axes returns a 2 by 3 matrix, and [Cfits_read_img_subset] from (1,1) to
    (2,3) returns a 3 by 2 matrix: the two results differ. *)
Theorem whole_subset_differs_from_image :
  let L := Toy.lib [] in
  let w := Toy.image 2 3 [1; 2; 3; 4; 5; 6] in
  let px := [DBits 1; DBits 2; DBits 3; DBits 4; DBits 5; DBits 6] in
  let whole := fst (run fitsio_h L 0 (op_read_img "i.fits" 2 3 1 82) (init w)) in
  let part := fst (run fitsio_h L 0 (op_read_img_subset "i.fits" 1 1 2 3 1 82)
                       (init w)) in
  whole = Ok (VSexp (NumericMatrix 2 3 px)) /\
  part = Ok (VSexp (NumericMatrix 3 2 px)) /\
  whole <> part.
Proof. cbv zeta. repeat split. discriminate. Qed.

(** The image readers hand back the samples the library stored when the
    vector they read into has the element type the library stores: the
    float, double, short and long branches.  For axes that are not negative
    and whose product is an [int], [Cfits_read_img] then asks for
    [naxis1 * naxis2] samples from the first one with the null marker 0 and
    returns them, in the order read, as the storage of a matrix of [naxis1]
    rows and [naxis2] columns. *)
Lemma read_img_matching_buffer {W} (K : Header) (L : Cfitsio W)
    f naxis1 naxis2 ext datatype (w0 w1 w2 w3 w4 : W) r1 r2 r4 b cells :
  0 <= naxis1 -> 0 <= naxis2 -> naxis1 * naxis2 < 2 ^ 31 ->
  img_dispatch K datatype = Some b ->
  ffcall L (open_image f (READONLY K)) w0 = (0, r1, w1) ->
  ffcall L (movabs_hdu ext) w1 = (0, r2, w2) ->
  ffcall L (read_img datatype 1 (naxis1 * naxis2) (Some (c_int, 0))) w2
    = (0, RCells (ib_buf b) cells, w3) ->
  ffcall L close_file w3 = (0, r4, w4) ->
  List.length cells = Z.to_nat (naxis1 * naxis2) ->
  Forall (in_range (ib_buf b)) cells ->
  fst (Cfits_read_img K L f naxis1 naxis2 ext datatype (init w0))
  = Ok (ib_out b naxis1 naxis2 cells).
Proof.
  intros Hn1 Hn2 Hn Hb H1 H2 H3 H4 Hlen Hr. unfold Cfits_read_img.
  assert (Hp : 0 <= naxis1 * naxis2) by now apply Z.mul_nonneg_nonneg.
  assert (Hi : in_int (naxis1 * naxis2) = true).
  { unfold in_int. apply andb_true_intro. split.
    - apply Z.leb_le. assert (0 < 2 ^ 31) by reflexivity. lia.
    - now apply Z.ltb_lt. }
  invoke H1. invoke H2. allocate. rewrite Hb. allocate. invoke H3.
  erewrite bind_ok; [| now apply received_same]. invoke H4. allocate.
  reflexivity.
Qed.

(** C8: the byte branch reads into a vector of [int].  On an image of 2 by 2
    byte pixels 1, 2, 3, 4, [Cfits_read_img] with [TBYTE] returns a matrix
    whose first element packs the four bytes and whose other elements are 0,
    not the four samples. *)
Theorem read_img_byte_samples_packed :
  let L := Toy.lib [] in
  let w := Toy.image 2 2 [1; 2; 3; 4] in
  let out := run fitsio_h L 0 (op_read_img "i.fits" 2 2 1 (TBYTE fitsio_h))
                 (init w) in
  fst out = Ok (VSexp (IntegerMatrix 2 2 [67305985; 0; 0; 0])) /\
  fst out <> Ok (VSexp (IntegerMatrix 2 2 [1; 2; 3; 4])) /\
  In (read_img (TBYTE fitsio_h) 1 4 (Some (c_int, 0)), 0) (trace (snd out)).
Proof.
  cbv zeta. split; [reflexivity|]. split; [discriminate | vm_compute; tauto].
Qed.

(** ** The enumeration loop of [Cfits_read_colname] *)

Lemma store_at_some {A} (i : nat) (v : A) (out out' : list A) :
  store_at i v out = Some out' ->
  (i < List.length out)%nat /\ List.length out' = List.length out.
Proof.
  revert i out'. induction out as [|h t IH]; intros i out';
    [destruct i; discriminate|].
  destruct i as [|j]; cbn [store_at].
  - intro H. injection H as <-. cbn. lia.
  - destruct (store_at j v t) as [t'|] eqn:E; [| discriminate].
    cbn [option_map]. intro H. injection H as <-.
    destruct (IH j t' E). cbn [List.length]. lia.
Qed.

Lemma store_at_none {A} (i : nat) (v : A) (out : list A) :
  store_at i v out = None -> (List.length out <= i)%nat.
Proof.
  revert i. induction out as [|h t IH]; intro i; [cbn; lia|].
  destruct i as [|j]; cbn [store_at]; [discriminate|].
  destruct (store_at j v t) eqn:E; [discriminate|].
  intros _. specialize (IH j E). cbn [List.length]. lia.
Qed.

Section Enumeration.

Context {W : Type}.
Variable K : Header.
Variable L : Cfitsio W.

(** One execution of the body makes one lookup.  It stores inside the vector
    and goes on, or it has no name to store and goes on, or the store falls
    outside the vector. *)
Lemma colname_body_cases (c : colname_loop) (s : state W) :
  let lookup := get_colname (CASEINSEN K) "*" (cl_colref c) (cl_status c) in
  exists status w',
    fst (fst (ffcall L lookup (world s))) = status /\
    ((exists c',
        colname_body K L c s = (Ok c', after s lookup status w') /\
        cl_status c' = status /\ cl_ii c' = cl_ii c + 1 /\
        List.length (cl_out c') = List.length (cl_out c) /\
        (status <> COL_NOT_FOUND K ->
         (Z.to_nat (cl_ii c) < List.length (cl_out c))%nat)) \/
     (colname_body K L c s = (Fault out_of_bounds, after s lookup status w') /\
      status <> COL_NOT_FOUND K /\
      (List.length (cl_out c) <= Z.to_nat (cl_ii c))%nat)).
Proof.
  intro lookup. unfold colname_body, bind, ff. fold lookup.
  destruct (ffcall L lookup (world s)) as [[status r] w'].
  exists status, w'. cbn [fst snd]. split; [reflexivity|].
  destruct (Z.eqb_spec status (COL_NOT_FOUND K)) as [E | E]; cbn [negb].
  - left. eexists. repeat split. intro H. contradiction.
  - destruct (store_at _ _ (cl_out c)) as [out'|] eqn:Es.
    + destruct (store_at_some _ _ _ _ Es) as [Hi Hl].
      left. eexists. repeat split; [exact Hl | intros _; exact Hi].
    + right. repeat split; [exact E | now apply store_at_none in Es].
Qed.

(** The loop hands control back only with [status == COL_NOT_FOUND], and
    then the latest call was a lookup that returned that status. *)
Lemma colname_while_exit_lookup (fuel : nat) (c : colname_loop) (s : state W)
    c' s' :
  cl_status c <> COL_NOT_FOUND K ->
  colname_while K L fuel c s = (Ok (true, c'), s') ->
  exists cs t k st older,
    trace s' = (get_colname cs t k st, COL_NOT_FOUND K) :: older.
Proof.
  revert c s. induction fuel as [|n IH]; intros c s Hc; cbn [colname_while];
    rewrite (proj2 (Z.eqb_neq _ _) Hc); [discriminate|].
  destruct (colname_body_cases c s)
    as (st & w1 & _ & [(c1 & Hb & Hs1 & _) | (Hb & _)]).
  - rewrite (bind_ok _ _ _ _ _ Hb).
    destruct (Z.eq_dec (cl_status c1) (COL_NOT_FOUND K)) as [E | E].
    + destruct n; cbn [colname_while];
        rewrite (proj2 (Z.eqb_eq _ _) E); intro H; injection H as _ <-;
        cbn [after trace]; rewrite <- Hs1, E; now eexists _, _, _, _, _.
    + now apply IH.
  - rewrite (bind_fault _ _ _ _ _ Hb). discriminate.
Qed.

(** While the library never answers [COL_NOT_FOUND] and the counter is
    inside the vector, every execution of the body is followed by another
    one. *)
Lemma colname_while_runs (fuel : nat) (c : colname_loop) (s : state W) :
  (forall cs t k st w,
     fst (fst (ffcall L (get_colname cs t k st) w)) <> COL_NOT_FOUND K) ->
  cl_status c <> COL_NOT_FOUND K ->
  0 <= cl_ii c ->
  (Z.to_nat (cl_ii c) + fuel <= List.length (cl_out c))%nat ->
  exists c' s' evs,
    colname_while K L fuel c s = (Ok (false, c'), s') /\
    cl_ii c' = cl_ii c + Z.of_nat fuel /\
    trace s' = (evs ++ trace s)%list /\
    List.length evs = fuel /\
    Forall (fun e => is_colname (fst e) = true) evs.
Proof.
  intros Hlib. revert c s.
  induction fuel as [|n IH]; intros c s Hc Hii Hroom; cbn [colname_while];
    destruct (Z.eqb_spec (cl_status c) (COL_NOT_FOUND K)) as [E | _];
    try contradiction.
  - exists c, s, []. repeat split; [lia | constructor].
  - destruct (colname_body_cases c s)
      as (st & w1 & Hst & [(c1 & Hb & Hs1 & Hi1 & Hl1 & _) | (_ & _ & Hout)]);
      [| lia].
    rewrite (bind_ok _ _ _ _ _ Hb).
    assert (Hc1 : cl_status c1 <> COL_NOT_FOUND K).
    { rewrite Hs1, <- Hst. apply Hlib. }
    destruct (IH c1 (after s (get_colname (CASEINSEN K) "*" (cl_colref c)
                                          (cl_status c)) st w1) Hc1)
      as (c' & s' & evs & Hr & Hi & Ht & Hl & Hf); [lia | lia |].
    exists c', s', (evs ++ [(get_colname (CASEINSEN K) "*" (cl_colref c)
                                          (cl_status c), st)])%list.
    repeat split.
    + exact Hr.
    + rewrite Hi, Hi1. lia.
    + rewrite Ht. cbn [after trace]. now rewrite <- app_assoc.
    + rewrite length_app, Hl. cbn. lia.
    + apply Forall_app; split; [exact Hf | repeat constructor].
Qed.

Lemma closed_colname (evs tr : list event) :
  Forall (fun e => is_colname (fst e) = true) evs ->
  closed (evs ++ tr) = closed tr.
Proof.
  unfold closed. induction 1 as [|[c st] evs Hc _ IH]; [reflexivity|].
  cbn [app filter]. destruct c; try discriminate Hc. exact IH.
Qed.

(** [Cfits_read_colname] returns only after a lookup that reported
    [COL_NOT_FOUND]. *)
Lemma read_colname_returned (fuel : nat) f colref ext (s : state W) v :
  COL_NOT_FOUND K <> 0 ->
  fst (Cfits_read_colname K L fuel f colref ext s) = Ok (Some v) ->
  exists cs t k st,
    In (get_colname cs t k st, COL_NOT_FOUND K)
       (trace (snd (Cfits_read_colname K L fuel f colref ext s))).
Proof.
  intro Hnz. unfold Cfits_read_colname.
  match goal with
  | |- context [bind (fits_safe_open_file L ?f0 ?m) ?k ?s0] =>
      let E := fresh "E" in
      destruct (fits_safe_open_file L f0 m s0) as [[r | e | x] s1] eqn:E;
      [ rewrite (bind_ok _ k s0 _ _ E) | rewrite (bind_throw _ k s0 _ _ E)
      | rewrite (bind_fault _ k s0 _ _ E) ]
  end; [| discriminate | discriminate].
  next_call; [| discriminate]. next_call; [| discriminate].
  match goal with
  | |- context [bind (colname_while K L fuel ?c) ?k ?s0] =>
      destruct (colname_while K L fuel c s0) as [[[b c'] | e | x] s'] eqn:Ew;
      [ rewrite (bind_ok _ k s0 _ _ Ew) | rewrite (bind_throw _ k s0 _ _ Ew)
      | rewrite (bind_fault _ k s0 _ _ Ew) ]
  end; [| discriminate | discriminate].
  cbn [fst snd]. destruct b; [| discriminate].
  apply colname_while_exit_lookup in Ew; [| cbn; congruence].
  destruct Ew as (cs & t & k & st & older & Ht).
  intros _. exists cs, t, k, st.
  next_call; cbn [snd after trace ret]; rewrite Ht; right; left; reflexivity.
Qed.

End Enumeration.

(** C9, as amended: [Cfits_read_colname] returns only after a lookup that
    reported [COL_NOT_FOUND], the status its loop tests for.  When the
    library never answers a lookup with that status, the loop is still
    running after any number of executions of its body that the [ncol]
    elements of the output vector leave room for: the counter [ii] has been
    incremented once per execution, and the function has neither returned
    nor closed the file. *)
Theorem read_colname_runs_until_not_found :
  forall (W : Type) (K : Header) (L : Cfitsio W) f colref ext
         (w0 w1 w2 w3 : W) r1 r2 ncol,
    ffcall L (open_file f (READONLY K)) w0 = (0, r1, w1) ->
    ffcall L (movabs_hdu ext) w1 = (0, r2, w2) ->
    ffcall L get_num_cols w2 = (0, RInt ncol, w3) ->
    COL_NOT_FOUND K <> 0 ->
    0 <= ncol < 2 ^ 31 ->
    (forall fuel v,
       fst (run K L fuel (op_read_colname f colref ext) (init w0))
       = Ok (VSexp v) ->
       exists cs t k st,
         In (get_colname cs t k st, COL_NOT_FOUND K)
            (trace (snd (run K L fuel (op_read_colname f colref ext)
                             (init w0))))) /\
    ((forall cs t k st w,
        fst (fst (ffcall L (get_colname cs t k st) w)) <> COL_NOT_FOUND K) ->
     forall fuel, Z.of_nat fuel <= ncol ->
       exists c' s',
         colname_while K L fuel (colname_init colref ncol)
           (after (after (after (init w0) (open_file f (READONLY K)) 0 w1)
                         (movabs_hdu ext) 0 w2) get_num_cols 0 w3)
         = (Ok (false, c'), s') /\
         cl_ii c' = Z.of_nat fuel /\
         run K L fuel (op_read_colname f colref ext) (init w0)
         = (Ok VRunning, s') /\
         closed (trace s') = 0%nat).
Proof.
  intros W K L f colref ext w0 w1 w2 w3 r1 r2 ncol H1 H2 H3 Hnz Hncol.
  split.
  - intros fuel v. unfold run, fmap, bind.
    pose proof (read_colname_returned K L fuel f colref ext (init w0)) as Hr.
    destruct (Cfits_read_colname K L fuel f colref ext (init w0))
      as [[[v' |] | e | x] s'] eqn:E; try discriminate.
    intros _. cbn [fst snd ret] in *. now apply (Hr v').
  - intros Hlib fuel Hfuel.
    destruct (colname_while_runs K L fuel (colname_init colref ncol)
                (after (after (after (init w0) (open_file f (READONLY K)) 0 w1)
                              (movabs_hdu ext) 0 w2) get_num_cols 0 w3) Hlib)
      as (c' & s' & evs & Hr & Hi & Ht & _ & Hf).
    { cbn. congruence. }
    { cbn. lia. }
    { cbn [colname_init cl_ii cl_out]. rewrite repeat_length. lia. }
    exists c', s'. repeat split.
    + exact Hr.
    + exact Hi.
    + assert (Em : Cfits_read_colname K L fuel f colref ext (init w0)
                   = (Ok None, s')).
      { unfold Cfits_read_colname. invoke H1. invoke H2. invoke H3.
        cbn [reply_int]. rewrite (bind_ok _ _ _ _ _ Hr). reflexivity. }
      unfold run, fmap. rewrite (bind_ok _ _ _ _ _ Em). reflexivity.
    + rewrite Ht, closed_colname by exact Hf. reflexivity.
Qed.

Lemma read_colname_runs_until_not_found_witness :
  let L := Toy.lib [("get_colname", 104)] in
  let w0 := Toy.table 82 [Some 1] in
  exists c' s',
    colname_while fitsio_h L 2 (colname_init 1 2)
      (after (after (after (init w0) (open_file "t.fits" 0) 0
                           (Toy.set_handles w0 1))
                    (movabs_hdu 2) 0 (Toy.set_handles w0 1))
             get_num_cols 0 (Toy.set_handles w0 1))
    = (Ok (false, c'), s') /\
    cl_ii c' = 2 /\
    run fitsio_h L 2 (op_read_colname "t.fits" 1 2) (init w0)
    = (Ok VRunning, s') /\
    closed (trace s') = 0%nat.
Proof.
  intros L w0.
  refine (proj2 (read_colname_runs_until_not_found Toy.world fitsio_h L
            "t.fits" 1 2 w0 (Toy.set_handles w0 1) (Toy.set_handles w0 1)
            (Toy.set_handles w0 1) RNone (RInt 0) 2
            eq_refl eq_refl eq_refl _ _) _ 2%nat _).
  - discriminate.
  - split; [discriminate | reflexivity].
  - intros cs t k st w. cbn. discriminate.
  - discriminate.
Defined.

(** C9, as stated, fails on the counter: it does not grow without bound.
    On a table of two columns whose lookups all fail with status 104, the
    loop is still running after two executions of its body, and the third
    stores at [out[2]], outside the vector of two elements: the run has left
    the loop, by no exit of the loop and with the file open. *)
Lemma colname_counter_is_bounded :
  let L := Toy.lib [("get_colname", 104)] in
  let w0 := Toy.table 82 [Some 1] in
  let out fuel := run fitsio_h L fuel (op_read_colname "t.fits" 1 2) (init w0) in
  fst (out 2%nat) = Ok VRunning /\
  fst (out 3%nat) = Fault out_of_bounds /\
  fst (out 3%nat) <> Ok VRunning /\
  map snd (trace (snd (out 3%nat))) = [104; 104; 104; 0; 0; 0] /\
  closed (trace (snd (out 3%nat))) = 0%nat.
Proof.
  cbv zeta. repeat split. discriminate.
Qed.

(** ** 64-bit integer columns *)

Lemma decode_mod (t : ctype) (z : Z) :
  decode t (le_bytes (sizeof t) (z mod 256 ^ Z.of_nat (sizeof t)))
  = decode t (le_bytes (sizeof t) z).
Proof.
  unfold decode. rewrite !le_value_le_bytes, Z.mod_mod; [reflexivity|].
  apply Z.pow_nonzero; lia.
Qed.

(** C10: when the column's type code is [TLONGLONG], [Cfits_read_col] reads
    the cells as 64-bit integers and returns a numeric vector of class
    [integer64] whose elements carry the cells' bit patterns: the 8 bytes of
    each element, read as a two's complement integer, are the stored
    integer. *)
Theorem read_col_int64_bit_exact :
  forall (W : Type) (K : Header) (L : Cfitsio W) f colref ext
         (w0 w1 w2 w3 w4 w5 w6 : W) r1 r2 r6 nrow repeat width cells,
    ~ In (TLONGLONG K)
         [TSTRING K; TBYTE K; TINT K; TUINT K; TINT32BIT K; TSHORT K;
          TUSHORT K; TFLOAT K; TLONG K] ->
    ffcall L (open_file f (READONLY K)) w0 = (0, r1, w1) ->
    ffcall L (movabs_hdu ext) w1 = (0, r2, w2) ->
    ffcall L get_num_rows w2 = (0, RInt nrow, w3) ->
    ffcall L (get_coltype colref) w3
      = (0, RColtype (TLONGLONG K) repeat width, w4) ->
    ffcall L (read_col (TLONGLONG K) colref 1 1 nrow (Some (c_long, -999))) w4
      = (0, RCells c_int64 cells, w5) ->
    ffcall L close_file w5 = (0, r6, w6) ->
    List.length cells = Z.to_nat nrow ->
    Forall (in_range c_int64) cells ->
    exists bits,
      fst (Cfits_read_col K L f colref ext (init w0))
      = Ok (NumericVector (map DBits bits) (Some "integer64")) /\
      Forall (fun b => 0 <= b < 2 ^ 64) bits /\
      map (fun b => decode c_int64 (le_bytes 8 b)) bits = cells.
Proof.
  intros W K L f colref ext w0 w1 w2 w3 w4 w5 w6 r1 r2 r6 nrow repeat width
    cells Hcodes H1 H2 H3 H4 H5 H6 Hlen Hr.
  exists (map (fun z => z mod 2 ^ 64) cells). repeat split.
  - unfold Cfits_read_col. invoke H1. invoke H2. invoke H3. invoke H4.
    cbn [reply_typecode reply_int]. unfold col_dispatch.
    rewrite !(not_in_eqb _ _ _ Hcodes) by (simpl; tauto).
    rewrite Z.eqb_refl. cbn [cb_datatype cb_nullval cb_buf cb_out].
    invoke H5. erewrite bind_ok; [| now apply received_same].
    invoke H6. cbn [ret fst]. unfold memcpy_double. now rewrite map_map.
  - apply Forall_map, Forall_forall. intros z _.
    apply Z.mod_pos_bound. reflexivity.
  - rewrite map_map. rewrite <- (map_id cells) at 2.
    apply map_ext_Forall. revert Hr. apply Forall_impl. intros z Hz.
    change (2 ^ 64) with (256 ^ Z.of_nat (sizeof c_int64)).
    change 8%nat with (sizeof c_int64).
    rewrite decode_mod. now apply decode_le_bytes.
Qed.

Lemma read_col_int64_bit_exact_witness :
  let w0 := Toy.table 81 [Some (-2); Some 9007199254740993] in
  exists bits,
    fst (Cfits_read_col fitsio_h (Toy.lib []) "t.fits" 1 2 (init w0))
    = Ok (NumericVector (map DBits bits) (Some "integer64")) /\
    Forall (fun b => 0 <= b < 2 ^ 64) bits /\
    map (fun b => decode c_int64 (le_bytes 8 b)) bits
    = [-2; 9007199254740993].
Proof.
  intro w0.
  refine (read_col_int64_bit_exact Toy.world fitsio_h (Toy.lib []) "t.fits"
            1 2 w0 (Toy.set_handles w0 1) (Toy.set_handles w0 1)
            (Toy.set_handles w0 1) (Toy.set_handles w0 1)
            (Toy.set_handles w0 1) w0 RNone (RInt 0) RNone 2 1 8
            [-2; 9007199254740993] _ eq_refl eq_refl eq_refl eq_refl eq_refl
            eq_refl eq_refl _).
  - simpl. intuition discriminate.
  - repeat constructor; vm_compute; intuition discriminate.
Defined.

(** ** Clearing a header *)

Section DeleteHeader.

Context {W : Type}.
Variable K : Header.
Variable L : Cfitsio W.
Variable filename : string.
Variable ext : Z.
Variable hdr : W -> list string.
Hypothesis store : HeaderStore K L filename ext hdr.

(** Each round prints the counter and deletes the card at position 2; after
    as many rounds as there are cards behind the first, only the first is
    left. *)
Lemma delete_rounds (card1 : string) (rest : list string) :
  forall (ii : Z) (s : state W),
    hdr (world s) = card1 :: rest ->
    exists rs s',
      for_loop (List.length rest) ii (delete_round L) s = (Ok rs, s') /\
      hdr (world s') = [card1] /\
      trace s'
      = (repeat (delete_record 2, 0) (List.length rest) ++ trace s)%list /\
      rcout s'
      = (rev (map key_line (counters (List.length rest) ii)) ++ rcout s)%list.
Proof.
  induction rest as [|card2 rest IH]; intros ii s Hh.
  - exists [], s. repeat split. exact Hh.
  - destruct (hs_delete K L filename ext hdr store 2 (world s))
      as (r & w' & Hd & Hh').
    { rewrite Hh. cbn [List.length]. lia. }
    rewrite Hh in Hh'. cbn in Hh'.
    set (s1 := {| world := world s; trace := trace s;
                  rcout := key_line ii :: rcout s |}).
    assert (Hb : delete_round L ii s = (Ok r, after s1 (delete_record 2) 0 w')).
    { unfold delete_round, bind, print. fold s1.
      now rewrite (fits_invoke_ok L (delete_record 2) s1 r w' Hd). }
    destruct (IH (ii + 1) (after s1 (delete_record 2) 0 w') Hh')
      as (rs & s' & Hl & Hf & Ht & Ho).
    exists (r :: rs), s'. cbn [List.length for_loop].
    rewrite (bind_ok _ _ _ _ _ Hb), (bind_ok _ _ _ _ _ Hl).
    repeat split.
    + exact Hf.
    + rewrite Ht. cbn [after trace s1 repeat].
      rewrite (repeat_cons (List.length rest)), <- app_assoc. reflexivity.
    + rewrite Ho. cbn [after rcout s1 counters map rev].
      rewrite <- app_assoc. reflexivity.
Qed.

End DeleteHeader.

Lemma filter_repeat_delete (n : nat) (tr : list event) :
  filter is_delete_record (repeat (delete_record 2, 0) n ++ tr)
  = (repeat (delete_record 2, 0) n ++ filter is_delete_record tr)%list.
Proof. induction n as [|n IH]; cbn; [reflexivity | now rewrite IH]. Qed.

(** C7, as amended: on a header of n >= 2 cards, [Cfits_delete_header]
    deletes the record at position 2 n-1 times, with its counter running
    from 2 up to n (it prints each value), and when it returns only card 1
    is left in the header. *)
Theorem delete_header_leaves_first_card :
  forall (W : Type) (K : Header) (L : Cfitsio W) filename ext
         (hdr : W -> list string) (w0 : W) card1 card2 rest,
    HeaderStore K L filename ext hdr ->
    hdr w0 = card1 :: card2 :: rest ->
    let n := List.length (hdr w0) in
    exists s',
      Cfits_delete_header K L filename ext (init w0) = (Ok tt, s') /\
      hdr (world s') = [card1] /\
      filter is_delete_record (trace s')
      = repeat (delete_record 2, 0) (n - 1) /\
      rev (rcout s') = map key_line (counters (n - 1) 2).
Proof.
  intros W K L filename ext hdr w0 card1 card2 rest store Hh n.
  destruct (hs_open K L filename ext hdr store w0) as (r1 & w1 & H1 & E1).
  destruct (hs_movabs K L filename ext hdr store w1) as (r2 & w2 & H2 & E2).
  destruct (hs_hdrpos K L filename ext hdr store w2) as (kp & w3 & H3 & E3).
  assert (Hh3 : hdr w3 = card1 :: card2 :: rest) by congruence.
  assert (Hn : hdr w2 = card1 :: card2 :: rest) by congruence.
  set (s3 := after (after (after (init w0)
                (open_image filename (READWRITE K)) 0 w1)
                (movabs_hdu ext) 0 w2) get_hdrpos 0 w3).
  destruct (delete_rounds K L filename ext hdr store card1 (card2 :: rest)
              2 s3 Hh3) as (rs & s4 & Hl & Hf & Ht & Ho).
  destruct (hs_close K L filename ext hdr store (world s4))
    as (r5 & w5 & H5 & E5).
  exists (after s4 close_file 0 w5).
  assert (Hcount : Z.to_nat (Z.of_nat (List.length (hdr w2)) - 1)
                   = List.length (card2 :: rest)).
  { rewrite Hn. cbn [List.length]. lia. }
  assert (Hn1 : (n - 1)%nat = List.length (card2 :: rest)).
  { unfold n. rewrite Hh. cbn [List.length]. lia. }
  repeat split.
  - unfold Cfits_delete_header. invoke H1. invoke H2. invoke H3.
    cbn [reply_nkeys]. rewrite Hcount. fold s3.
    rewrite (bind_ok _ _ _ _ _ Hl). invoke H5. reflexivity.
  - cbn [after world]. congruence.
  - cbn [after trace]. rewrite Ht, Hn1.
    cbn [filter is_delete_record fst]. rewrite filter_repeat_delete.
    cbn. now rewrite app_nil_r.
  - cbn [after rcout]. rewrite Ho, Hn1. cbn [s3 after rcout init].
    now rewrite app_nil_r, rev_involutive.
Qed.

Lemma toy_header_store (filename : string) (ext : Z) :
  HeaderStore fitsio_h (Toy.lib []) filename ext Toy.cards.
Proof.
  constructor; intros; cbn.
  - now eexists _, _.
  - now eexists _, _.
  - now eexists _, _.
  - destruct H as [H1 H2]. apply Z.leb_le in H1, H2. rewrite H1, H2.
    now eexists _, _.
  - now eexists _, _.
Qed.

Lemma delete_header_leaves_first_card_witness :
  let w0 := Toy.image 2 2 [1; 2; 3; 4] in
  exists s',
    Cfits_delete_header fitsio_h (Toy.lib []) "i.fits" 1 (init w0)
    = (Ok tt, s') /\
    Toy.cards (world s') = ["SIMPLE"] /\
    filter is_delete_record (trace s') = repeat (delete_record 2, 0) 2 /\
    rev (rcout s') = map key_line (counters 2 2).
Proof.
  intro w0.
  exact (delete_header_leaves_first_card Toy.world fitsio_h (Toy.lib [])
           "i.fits" 1 Toy.cards w0 "SIMPLE" "BITPIX" ["NAXIS"]
           (toy_header_store "i.fits" 1) eq_refl).
Defined.

(** C7, as stated, fails on the direction of the counter: on a header of
    three cards the values printed are 2 and then 3, not 3 and then 2. *)
Lemma delete_header_counts_up :
  let out := run fitsio_h (Toy.lib []) 0 (op_delete_header "i.fits" 1)
                 (init (Toy.image 2 2 [1; 2; 3; 4])) in
  rev (rcout (snd out)) = ["The key is2"; "The key is3"] /\
  rev (rcout (snd out)) <> ["The key is3"; "The key is2"].
Proof. cbv zeta. split; [reflexivity | discriminate]. Qed.

(** ** Writing a column and reading it back *)

Lemma fill_recast (t u : ctype) (n : nat) (cells : list Z) :
  sizeof t = sizeof u -> List.length cells = n ->
  fill t u n cells = map (fun v => decode t (le_bytes (sizeof u) v)) cells.
Proof.
  intros Hs Hn. unfold fill. subst n. rewrite Hs.
  pose proof (firstn_length_app (flat_map (le_bytes (sizeof u)) cells)
                (repeat 0 (List.length cells * sizeof u))) as Hf.
  rewrite flat_map_le_bytes_length in Hf. rewrite Hf.
  now rewrite chunks_flat_map, map_map.
Qed.

Lemma decode_in_range (t : ctype) (v : Z) :
  in_range t (decode t (le_bytes (sizeof t) v)).
Proof.
  unfold in_range, decode. rewrite le_value_le_bytes, bytes_pow.
  pose proof (sizeof_pos t) as Hs.
  set (k := 8 * Z.of_nat (sizeof t)).
  assert (Hk : 0 < k) by (unfold k; lia).
  pose proof (pow_split k Hk) as Hp.
  assert (Hq : 0 < 2 ^ (k - 1)) by (apply Z.pow_pos_nonneg; lia).
  pose proof (Z.mod_pos_bound v (2 ^ k)) as Hm.
  destruct (is_signed t); cbn [andb]; [| lia].
  destruct (Z.leb_spec (2 ^ (k - 1)) (v mod 2 ^ k)); lia.
Qed.

(** A 64-bit pattern read as a signed integer and copied back is the same
    pattern. *)
Lemma int64_pattern (b : Z) :
  in_range c_double b -> decode c_int64 (le_bytes 8 b) mod 2 ^ 64 = b.
Proof.
  unfold in_range, decode. cbn [is_signed sizeof].
  change (8 * Z.of_nat 8) with 64. intro H.
  rewrite le_value_le_bytes. change (256 ^ Z.of_nat 8) with (2 ^ 64).
  rewrite (Z.mod_small b) by exact H.
  destruct (2 ^ (64 - 1) <=? b); cbn [andb].
  - rewrite <- (Z.mod_add _ 1) by (apply Z.pow_nonzero; lia).
    replace (b - 2 ^ 64 + 1 * 2 ^ 64) with b by lia.
    now apply Z.mod_small.
  - now apply Z.mod_small.
Qed.

Lemma codes_differ (K : Header) (i j : nat) (a b : Z) :
  codes_distinct K ->
  nth_error [TSTRING K; TBYTE K; TINT K; TUINT K; TINT32BIT K; TSHORT K;
             TUSHORT K; TFLOAT K; TLONGLONG K; TDOUBLE K] i = Some a ->
  nth_error [TSTRING K; TBYTE K; TINT K; TUINT K; TINT32BIT K; TSHORT K;
             TUSHORT K; TFLOAT K; TLONGLONG K; TDOUBLE K] j = Some b ->
  i <> j -> (a =? b) = false.
Proof.
  intros Hd Hi Hj Hne. apply Z.eqb_neq. intros ->. apply Hne.
  apply (proj1 (NoDup_nth_error _) Hd).
  - apply nth_error_Some. congruence.
  - congruence.
Qed.

Section RoundTrip.

Context {W : Type}.
Variable K : Header.
Variable L : Cfitsio W.
Variables (f : string) (colref ext : Z).
Hypothesis distinct : codes_distinct K.
Hypothesis long_longlong : TLONG K <> TLONGLONG K.
Hypothesis long_double : TLONG K <> TDOUBLE K.

Ltac codes i j :=
  rewrite (codes_differ K i j _ _ distinct eq_refl eq_refl) by lia.

(** The write: open, move, one [fits_write_col] with the case's array,
    close. *)
Lemma write_numeric typecode data nrow array lib_t nv expected
    (w0 w1 w2 w3 w4 : W) r1 r2 r3 r4 :
  numeric_case K typecode data nrow array lib_t nv expected ->
  ffcall L (open_file f (READWRITE K)) w0 = (0, r1, w1) ->
  ffcall L (movabs_hdu ext) w1 = (0, r2, w2) ->
  ffcall L (write_col typecode colref 1 1 nrow array) w2 = (0, r3, w3) ->
  ffcall L close_file w3 = (0, r4, w4) ->
  exists s', Cfits_write_col K L f data nrow colref ext typecode (init w0)
             = (Ok tt, s') /\ world s' = w4.
Proof.
  intros Hcase H1 H2 H3 H4.
  destruct Hcase; eexists; unfold Cfits_write_col; invoke H1; invoke H2;
    cbn [INTEGER REAL].
  - codes 2%nat 0%nat. rewrite Z.eqb_refl.
    erewrite bind_ok; [| invoke H3; reflexivity]. invoke H4.
    split; reflexivity.
  - codes 8%nat 0%nat. codes 8%nat 2%nat. rewrite Z.eqb_refl.
    erewrite bind_ok; [| invoke H3; reflexivity]. invoke H4.
    split; reflexivity.
  - codes 9%nat 0%nat. codes 9%nat 2%nat. codes 9%nat 8%nat.
    rewrite Z.eqb_refl.
    erewrite bind_ok; [| invoke H3; reflexivity]. invoke H4.
    split; reflexivity.
Qed.

(** The read, when the library hands back the objects of the written
    array. *)
Lemma read_numeric typecode data nrow array lib_t nv expected
    (w4 w5 w6 w7 w8 w9 w10 : W) r5 r6 r10 repeat width :
  numeric_case K typecode data nrow array lib_t nv expected ->
  ffcall L (open_file f (READONLY K)) w4 = (0, r5, w5) ->
  ffcall L (movabs_hdu ext) w5 = (0, r6, w6) ->
  ffcall L get_num_rows w6 = (0, RInt nrow, w7) ->
  ffcall L (get_coltype colref) w7 = (0, RColtype typecode repeat width, w8) ->
  ffcall L (read_col typecode colref 1 1 nrow (Some nv)) w8
    = (0, RCells lib_t (objects lib_t nrow array), w9) ->
  ffcall L close_file w9 = (0, r10, w10) ->
  fst (Cfits_read_col K L f colref ext (init w4)) = Ok expected.
Proof.
  intros Hcase H1 H2 H3 H4 H5 H6. unfold Cfits_read_col.
  invoke H1. invoke H2. invoke H3. invoke H4.
  cbn [reply_typecode reply_int]. unfold col_dispatch.
  assert (E1 : (TLONGLONG K =? TLONG K) = false) by (apply Z.eqb_neq; auto).
  assert (E2 : (TDOUBLE K =? TLONG K) = false) by (apply Z.eqb_neq; auto).
  destruct Hcase as [l Hl | l Hl | l Hl]; cbn [objects] in H5;
    rewrite Nat2Z.id in H5.
  - codes 2%nat 0%nat. codes 2%nat 1%nat. rewrite Z.eqb_refl.
    cbn [cb_datatype cb_nullval cb_buf cb_out].
    rewrite (fill_same c_int _ l eq_refl Hl) in H5.
    invoke H5.
    erewrite bind_ok;
      [| apply received_same; [now rewrite Nat2Z.id | exact Hl]].
    invoke H6. cbn [ret fst]. unfold int_vector.
    f_equal. f_equal. rewrite <- (map_id l) at 2.
    apply map_ext_Forall. revert Hl. apply Forall_impl.
    intros z Hz. now apply to_int_in_range.
  - codes 8%nat 0%nat. codes 8%nat 1%nat. codes 8%nat 2%nat.
    codes 8%nat 3%nat. codes 8%nat 4%nat. codes 8%nat 5%nat.
    codes 8%nat 6%nat. codes 8%nat 7%nat. rewrite E1, Z.eqb_refl.
    cbn [cb_datatype cb_nullval cb_buf cb_out].
    rewrite (fill_recast c_int64 c_double _ l eq_refl eq_refl) in H5.
    invoke H5.
    erewrite bind_ok;
      [| apply received_same;
         [ now rewrite length_map, Nat2Z.id
         | apply Forall_map, Forall_forall; intros z _;
           apply (decode_in_range c_int64) ] ].
    invoke H6. cbn [ret fst]. unfold memcpy_double.
    f_equal. f_equal. rewrite !map_map.
    apply map_ext_Forall. revert Hl. apply Forall_impl.
    intros z Hz. f_equal. now apply int64_pattern.
  - codes 9%nat 0%nat. codes 9%nat 1%nat. codes 9%nat 2%nat.
    codes 9%nat 3%nat. codes 9%nat 4%nat. codes 9%nat 5%nat.
    codes 9%nat 6%nat. codes 9%nat 7%nat. rewrite E2. codes 9%nat 8%nat.
    rewrite Z.eqb_refl.
    cbn [cb_datatype cb_nullval cb_buf cb_out].
    rewrite (fill_same c_double _ l eq_refl Hl) in H5.
    invoke H5.
    erewrite bind_ok;
      [| apply received_same; [now rewrite Nat2Z.id | exact Hl]].
    invoke H6. reflexivity.
Qed.

End RoundTrip.

(** C3: for each numeric type code [Cfits_write_col] supports ([TINT],
    [TLONGLONG], [TDOUBLE]), writing well-formed values to a column of that
    type and reading the same rows back with [Cfits_read_col] returns the
    values written, bit for bit, given that the library's calls succeed and
    that its read hands back the objects its write was handed.  (A value
    equal to the sentinel comes back as itself.) *)
Theorem write_col_read_col_round_trip :
  forall (W : Type) (K : Header) (L : Cfitsio W) f colref ext
         typecode data nrow array lib_t nv expected
         (w0 w1 w2 w3 w4 w5 w6 w7 w8 w9 w10 : W)
         r1 r2 r3 r4 r5 r6 r10 repeat width,
    codes_distinct K ->
    TLONG K <> TLONGLONG K ->
    TLONG K <> TDOUBLE K ->
    numeric_case K typecode data nrow array lib_t nv expected ->
    ffcall L (open_file f (READWRITE K)) w0 = (0, r1, w1) ->
    ffcall L (movabs_hdu ext) w1 = (0, r2, w2) ->
    ffcall L (write_col typecode colref 1 1 nrow array) w2 = (0, r3, w3) ->
    ffcall L close_file w3 = (0, r4, w4) ->
    ffcall L (open_file f (READONLY K)) w4 = (0, r5, w5) ->
    ffcall L (movabs_hdu ext) w5 = (0, r6, w6) ->
    ffcall L get_num_rows w6 = (0, RInt nrow, w7) ->
    ffcall L (get_coltype colref) w7
      = (0, RColtype typecode repeat width, w8) ->
    ffcall L (read_col typecode colref 1 1 nrow (Some nv)) w8
      = (0, RCells lib_t (objects lib_t nrow array), w9) ->
    ffcall L close_file w9 = (0, r10, w10) ->
    (exists s', Cfits_write_col K L f data nrow colref ext typecode (init w0)
                = (Ok tt, s') /\ world s' = w4) /\
    fst (Cfits_read_col K L f colref ext (init w4)) = Ok expected.
Proof.
  intros W K L f colref ext typecode data nrow array lib_t nv expected
    w0 w1 w2 w3 w4 w5 w6 w7 w8 w9 w10 r1 r2 r3 r4 r5 r6 r10 repeat width
    Hd Hl1 Hl2 Hcase Hw1 Hw2 Hw3 Hw4 Hr1 Hr2 Hr3 Hr4 Hr5 Hr6.
  split.
  - eapply write_numeric; eassumption.
  - eapply read_numeric; eassumption.
Qed.

Lemma fitsio_h_distinct : codes_distinct fitsio_h.
Proof.
  unfold codes_distinct. cbn.
  repeat (constructor; [cbn; intuition discriminate|]). constructor.
Qed.

Lemma write_col_read_col_round_trip_witness :
  let L := Toy.lib [] in
  let bits := [18446744073709551614; 5] in
  let w0 := Toy.table 81 [None; None] in
  let w4 := Toy.table 81 [Some (-2); Some 5] in
  (exists s', Cfits_write_col fitsio_h L "t.fits" (RReals bits) 2 1 2 81
                (init w0) = (Ok tt, s') /\ world s' = w4) /\
  fst (Cfits_read_col fitsio_h L "t.fits" 1 2 (init w4))
  = Ok (NumericVector (map DBits bits) (Some "integer64")).
Proof.
  intros L bits w0 w4.
  refine (write_col_read_col_round_trip Toy.world fitsio_h L "t.fits" 1 2
            81 (RReals bits) 2 (BufVals c_double bits) c_int64 (c_long, -999)
            (NumericVector (map DBits bits) (Some "integer64"))
            w0 (Toy.set_handles w0 1) (Toy.set_handles w0 1)
            (Toy.set_handles w4 1) w4
            (Toy.set_handles w4 1) (Toy.set_handles w4 1)
            (Toy.set_handles w4 1) (Toy.set_handles w4 1)
            (Toy.set_handles w4 1) w4
            RNone (RInt 0) RNone RNone RNone (RInt 0) RNone 1 8
            fitsio_h_distinct _ _ (case_longlong fitsio_h bits _)
            eq_refl eq_refl eq_refl eq_refl eq_refl eq_refl eq_refl eq_refl
            eq_refl eq_refl).
  - discriminate.
  - discriminate.
  - repeat constructor; vm_compute; intuition discriminate.
Defined.

(** * Further properties of the wrappers *)

(** ** Stepping through a run *)

Section Stepping.

Context {W : Type}.
Variable L : Cfitsio W.

Lemma bind_assoc {A B C} (m : M W A) (k1 : A -> M W B) (k2 : B -> M W C) s :
  bind (bind m k1) k2 s = bind m (fun a => bind (k1 a) k2) s.
Proof. unfold bind. destruct (m s) as [[a | e | x] s']; reflexivity. Qed.

Lemma fits_safe_open_file_cases f mode s :
  (exists r w', ffcall L (open_file f mode) (world s) = (0, r, w') /\
                fits_safe_open_file L f mode s
                = (Ok r, after s (open_file f mode) 0 w')) \/
  (exists status w', status <> 0 /\
     fits_safe_open_file L f mode s
     = (Throw (fits_status_to_exception L "open_file" status),
        after s (open_file f mode) status w')).
Proof.
  unfold fits_safe_open_file, bind, ff.
  destruct (ffcall L (open_file f mode) (world s)) as [[status r] w'].
  cbn [fst snd]. destruct (Z.eqb_spec status 0) as [-> | Hne].
  - left. exists r, w'. split; reflexivity.
  - right. exists status, w'. split; [exact Hne | reflexivity].
Qed.

(** A call through [fits_invoke] adds itself to the trace, whatever its
    status. *)
Lemma fits_invoke_trace c s :
  exists status,
    trace (snd (fits_invoke L c s)) = (c, status) :: trace s /\
    rcout (snd (fits_invoke L c s)) = rcout s.
Proof.
  destruct (fits_invoke_cases L c s) as [(r & w' & _ & E) | (st & w' & _ & E)];
    rewrite E; eexists; split; reflexivity.
Qed.

End Stepping.

(** One step of a run: the next call succeeds or fails, a branch of the
    source is taken, a [ret] or [throw] is reached. *)
Ltac run_step :=
  first
    [ rewrite bind_assoc
    | progress cbv beta iota
    | progress cbn [fst snd]
    | match goal with
      | |- context [bind (fits_invoke ?L ?c) ?k ?s] =>
          let r := fresh "r" in
          let w' := fresh "w" in
          let st := fresh "st" in
          let Hc := fresh "Hc" in
          let E := fresh "E" in
          destruct (fits_invoke_cases L c s) as
            [(r & w' & Hc & E) | (st & w' & Hc & E)];
          [ rewrite (bind_ok (fits_invoke L c) k s _ _ E)
          | rewrite (bind_throw (fits_invoke L c) k s _ _ E) ];
          clear E
      | |- context [bind (fits_safe_open_file ?L ?f ?m) ?k ?s] =>
          let r := fresh "r" in
          let w' := fresh "w" in
          let st := fresh "st" in
          let Hc := fresh "Hc" in
          let E := fresh "E" in
          destruct (fits_safe_open_file_cases L f m s) as
            [(r & w' & Hc & E) | (st & w' & Hc & E)];
          [ rewrite (bind_ok (fits_safe_open_file L f m) k s _ _ E)
          | rewrite (bind_throw (fits_safe_open_file L f m) k s _ _ E) ];
          clear E
      | |- context [bind (ret ?a) ?k ?s] =>
          change (bind (ret a) k s) with (k a s)
      | |- context [bind (throw ?e) ?k ?s] =>
          rewrite (bind_throw (throw e) k s e s eq_refl)
      | |- context [bind (fail_with ?x) ?k ?s] =>
          rewrite (bind_fault (fail_with x) k s x s eq_refl)
      | |- context [if ?b then _ else _] =>
          lazymatch b with
          | true => fail
          | false => fail
          | _ => destruct b
          end
      | |- context [match ?o with Some _ => _ | None => _ end] =>
          lazymatch o with
          | Some _ => fail
          | None => fail
          | _ => destruct o
          end
      end ].

(** ** The handle protocol *)

Section Handle.

Context {W : Type}.
Variable K : Header.
Variable L : Cfitsio W.

Lemma holds_invoke c s :
  is_open_call c = false -> closes_handle (c, 0) = false ->
  holds s -> holds (snd (fits_invoke L c s)).
Proof.
  intros Ho Hc Hs. destruct (fits_invoke_trace L c s) as (st & Ht & _).
  unfold holds in *. rewrite Ht. cbn [handle_state]. rewrite Hs.
  destruct c; try discriminate Ho; try discriminate Hc; reflexivity.
Qed.

Lemma holds_for_loop {A} (body : Z -> M W A) :
  (forall i s, holds s -> holds (snd (body i s))) ->
  forall n ii s, holds s -> holds (snd (for_loop n ii body s)).
Proof.
  intros Hb. induction n as [|n IH]; intros ii s Hs; cbn [for_loop].
  - exact Hs.
  - unfold bind at 1. specialize (Hb ii s Hs).
    destruct (body ii s) as [[a | e | x] s1]; cbn [snd] in *;
      [| exact Hb | exact Hb].
    unfold bind at 1. specialize (IH (ii + 1) s1 Hb).
    destruct (for_loop n (ii + 1) body s1) as [[rs | e | x] s2]; exact IH.
Qed.

Lemma holds_delete_round ii s :
  holds s -> holds (snd (delete_round L ii s)).
Proof.
  intro Hs. unfold delete_round, bind at 1, print.
  apply holds_invoke; [reflexivity | reflexivity | exact Hs].
Qed.

Lemma holds_read_record ii s :
  holds s ->
  holds (snd ((r <- fits_invoke L (read_record ii) ;;
               ret (reply_string r)) s)).
Proof.
  intro Hs. unfold bind at 1.
  pose proof (holds_invoke (read_record ii) s eq_refl eq_refl Hs) as H.
  destruct (fits_invoke L (read_record ii) s) as [[r | e | x] s1]; exact H.
Qed.

Lemma holds_colname_while fuel c s :
  holds s -> holds (snd (colname_while K L fuel c s)).
Proof.
  revert c s. induction fuel as [|n IH]; intros c s Hs; cbn [colname_while];
    destruct (cl_status c =? COL_NOT_FOUND K); try exact Hs.
  assert (Hl : forall st w1,
             holds (after s (get_colname (CASEINSEN K) "*" (cl_colref c)
                                         (cl_status c)) st w1)).
  { intros st w1. unfold holds in *. cbn [after trace handle_state].
    rewrite Hs. reflexivity. }
  destruct (colname_body_cases K L c s)
    as (st & w1 & _ & [(c1 & Hb & _) | (Hb & _)]).
  - rewrite (bind_ok _ _ _ _ _ Hb). apply IH, Hl.
  - rewrite (bind_fault _ _ _ _ _ Hb). apply Hl.
Qed.

End Handle.

Ltac handle_finish :=
  unfold handle_ok, holds in *;
  cbn [fst snd ret throw fail_with after trace init] in *;
  cbn [handle_state handle_step fst snd is_open_call] in *;
  repeat match goal with
         | H : handle_state _ = _ |- _ => rewrite H
         end;
  cbn [handle_state handle_step fst snd is_open_call];
  repeat match goal with
         | |- context [?a =? ?b] => destruct (Z.eqb_spec a b)
         end;
  first [reflexivity | discriminate | congruence].

(** X1: every exported function keeps the handle protocol with any library:
    its first call is the open or create, no other call is made without the
    handle, the handle is never opened twice, and nothing is called after
    [fits_close_file].  A normal return has closed the file, and the
    enumeration loop of [Cfits_read_colname], while it runs, holds it. *)
Theorem handle_protocol_kept :
  forall (W : Type) (K : Header) (L : Cfitsio W) (fuel : nat)
         (op : operation) (w : W),
    handle_ok (run K L fuel op (init w)).
Proof.
  intros W K L fuel op w.
  destruct op; unfold_wrappers; unfold fmap.
  all: repeat run_step.
  all: try handle_finish.
  - match goal with
    | |- context [bind (colname_while K L fuel ?c) ?k ?s] =>
        pose proof (holds_colname_while K L fuel c s eq_refl) as Hh;
        destruct (colname_while K L fuel c s) as [[[b c'] | e | x] s'] eqn:E;
        [ rewrite (bind_ok _ k s _ _ E) | rewrite (bind_throw _ k s _ _ E)
        | rewrite (bind_fault _ k s _ _ E) ]
    end; cbn [fst snd] in *; try destruct b; repeat run_step; handle_finish.
  - match goal with
    | |- context [bind (for_loop ?n ?ii ?body) ?k ?s] =>
        pose proof (holds_for_loop body (holds_read_record L) n ii s eq_refl)
          as Hh;
        destruct (for_loop n ii body s) as [[rs | e | x] s'] eqn:El;
        [ rewrite (bind_ok _ k s _ _ El) | rewrite (bind_throw _ k s _ _ El)
        | rewrite (bind_fault _ k s _ _ El) ]
    end; cbn [snd] in Hh; repeat run_step; handle_finish.
  - match goal with
    | |- context [bind (for_loop ?n ?ii ?body) ?k ?s] =>
        pose proof (holds_for_loop body (holds_delete_round L) n ii s eq_refl)
          as Hh;
        destruct (for_loop n ii body s) as [[rs | e | x] s'] eqn:El;
        [ rewrite (bind_ok _ k s _ _ El) | rewrite (bind_throw _ k s _ _ El)
        | rewrite (bind_fault _ k s _ _ El) ]
    end; cbn [snd] in Hh; repeat run_step; handle_finish.
Qed.

(** ** What the calls of a run are *)

Section Emits.

Context {W : Type}.
Variable K : Header.
Variable L : Cfitsio W.
Variable P : event -> Prop.

Lemma emits_ret {A} (a : A) : emits P (@ret W A a).
Proof. intro s. exists []. split; [reflexivity | constructor]. Qed.

Lemma emits_throw {A} (e : string) : emits P (@throw W A e).
Proof. intro s. exists []. split; [reflexivity | constructor]. Qed.

Lemma emits_fail_with {A} (x : failure) : emits P (@fail_with W A x).
Proof. intro s. exists []. split; [reflexivity | constructor]. Qed.

Lemma emits_print (line : string) : emits P (@print W line).
Proof. intro s. exists []. split; [reflexivity | constructor]. Qed.

Lemma emits_bind {A B} (m : M W A) (k : A -> M W B) :
  emits P m -> (forall a, emits P (k a)) -> emits P (bind m k).
Proof.
  intros Hm Hk s. unfold bind. destruct (Hm s) as (evs1 & Ht1 & Hp1).
  destruct (m s) as [[a | e | x] s1]; cbn [snd] in *.
  - destruct (Hk a s1) as (evs2 & Ht2 & Hp2).
    exists (evs2 ++ evs1)%list. split.
    + rewrite Ht2, Ht1. apply app_assoc.
    + apply Forall_app; split; assumption.
  - exists evs1. split; assumption.
  - exists evs1. split; assumption.
Qed.

Lemma emits_ff (c : call) : (forall st, P (c, st)) -> emits P (ff L c).
Proof.
  intros Hc s. unfold ff.
  destruct (ffcall L c (world s)) as [[status r] w'].
  exists [(c, status)]. split; [reflexivity | repeat constructor; apply Hc].
Qed.

Lemma emits_fits_invoke (c : call) :
  (forall st, P (c, st)) -> emits P (fits_invoke L c).
Proof.
  intro Hc. unfold fits_invoke, _fits_invoke.
  apply emits_bind; [now apply emits_ff | intro sr].
  destruct (fst sr =? 0); [apply emits_ret | apply emits_throw].
Qed.

Lemma emits_fits_safe_open_file f mode :
  (forall st, P (open_file f mode, st)) ->
  emits P (fits_safe_open_file L f mode).
Proof.
  intro Hc. unfold fits_safe_open_file.
  apply emits_bind; [now apply emits_ff | intro sr].
  destruct (fst sr =? 0); [apply emits_ret | apply emits_throw].
Qed.

Lemma emits_fmap {A B} (f : A -> B) (m : M W A) :
  emits P m -> emits P (fmap f m).
Proof. intro H. apply emits_bind; [exact H | intro; apply emits_ret]. Qed.

Lemma emits_for_loop {A} (body : Z -> M W A) (n : nat) (ii : Z) :
  (forall i, emits P (body i)) -> emits P (for_loop n ii body).
Proof.
  intro Hb. revert ii. induction n as [|n IH]; intro ii; cbn [for_loop].
  - apply emits_ret.
  - apply emits_bind; [apply Hb | intro a].
    apply emits_bind; [apply IH | intro; apply emits_ret].
Qed.

Lemma emits_colname_while (fuel : nat) (c : colname_loop) :
  (forall cs t k st st', P (get_colname cs t k st, st')) ->
  emits P (colname_while K L fuel c).
Proof.
  intro Hc. revert c.
  induction fuel as [|n IH]; intro c; cbn [colname_while];
    destruct (cl_status c =? COL_NOT_FOUND K); try apply emits_ret.
  apply emits_bind; [| intro; apply IH].
  unfold colname_body. apply emits_bind; [apply emits_ff; intro; apply Hc|].
  intro sr. destruct (negb _); [| apply emits_ret].
  destruct (store_at _ _ _); [apply emits_ret | apply emits_fail_with].
Qed.

End Emits.

Ltac emits_step :=
  first
    [ apply emits_ret | apply emits_throw | apply emits_print
    | apply emits_fail_with
    | apply emits_fits_invoke; intro
    | apply emits_fits_safe_open_file; intro
    | apply emits_colname_while; intros
    | apply emits_for_loop; intro
    | apply emits_fmap
    | apply emits_bind; [| intro]
    | match goal with
      | |- emits _ (if ?b then _ else _) => destruct b
      | |- emits _ (match ?o with Some _ => _ | None => _ end) => destruct o
      end ].

(** X2: the eight reading functions never make a call that changes the
    file, on any path and with any library. *)
Theorem readers_never_mutate :
  forall (W : Type) (K : Header) (L : Cfitsio W) (fuel : nat)
         (op : operation),
    is_reader op = true ->
    emits (fun e => mutates (fst e) = false) (run K L fuel op).
Proof.
  intros W K L fuel op Hop.
  destruct op; try discriminate Hop; unfold_wrappers;
    repeat emits_step; reflexivity.
Qed.

Lemma readers_never_mutate_witness :
  emits (fun e => mutates (fst e) = false)
        (run fitsio_h (Toy.lib []) 3 (op_read_colname "t.fits" 1 2)).
Proof.
  exact (readers_never_mutate Toy.world fitsio_h (Toy.lib []) 3
           (op_read_colname "t.fits" 1 2) eq_refl).
Defined.

(** ** Reading a header *)

Section ReadHeader.

Context {W : Type}.
Variable K : Header.
Variable L : Cfitsio W.
Variable filename : string.
Variable ext : Z.
Variable hdr : W -> list string.
Hypothesis reader : HeaderReader K L filename ext hdr.

(** From card [k + 1] on, the loop collects the remaining cards in order. *)
Lemma read_rounds (before rest : list string) :
  forall (s : state W),
    hdr (world s) = (before ++ rest)%list ->
    exists s',
      for_loop (List.length rest) (Z.of_nat (List.length before) + 1)
               (record_body L) s = (Ok rest, s') /\
      hdr (world s') = hdr (world s) /\
      rcout s' = rcout s.
Proof.
  revert before. induction rest as [|card rest IH]; intros before s Hh.
  - exists s. repeat split.
  - destruct (hr_record K L filename ext hdr reader (List.length before) card
                (world s)) as (w' & Hr & Hh').
    { rewrite Hh, nth_error_app2, Nat.sub_diag by lia. reflexivity. }
    set (c := read_record (Z.of_nat (List.length before) + 1)) in *.
    assert (Hb : record_body L (Z.of_nat (List.length before) + 1) s
                 = (Ok card, after s c 0 w')).
    { unfold record_body. fold c.
      now rewrite (bind_ok _ _ _ _ _ (fits_invoke_ok L c s _ w' Hr)). }
    destruct (IH (before ++ [card])%list (after s c 0 w')) as (s' & Hl & Hs & Ho).
    { cbn [after world]. rewrite Hh', Hh, <- app_assoc. reflexivity. }
    exists s'. cbn [List.length for_loop].
    rewrite (bind_ok _ _ _ _ _ Hb).
    replace (Z.of_nat (List.length before) + 1 + 1)
      with (Z.of_nat (List.length (before ++ [card])) + 1)
      by (rewrite length_app; cbn [List.length]; lia).
    rewrite (bind_ok _ _ _ _ _ Hl). repeat split.
    + rewrite Hs. exact Hh'.
    + exact Ho.
Qed.

End ReadHeader.

(** X3: with a library whose [fits_get_hdrpos] counts the cards and whose
    [fits_read_record] gives the card at the position asked,
    [Cfits_read_header] returns all the cards of the header in their order
    (none for an empty header), prints nothing and leaves the header as it
    was. *)
Theorem read_header_returns_cards :
  forall (W : Type) (K : Header) (L : Cfitsio W) filename ext
         (hdr : W -> list string) (w0 : W),
    HeaderReader K L filename ext hdr ->
    exists s',
      Cfits_read_header K L filename ext (init w0)
      = (Ok (StringVector (hdr w0)), s') /\
      hdr (world s') = hdr w0 /\
      rcout s' = [].
Proof.
  intros W K L filename ext hdr w0 reader.
  destruct (hr_open K L filename ext hdr reader w0) as (r1 & w1 & H1 & E1).
  destruct (hr_movabs K L filename ext hdr reader w1) as (r2 & w2 & H2 & E2).
  destruct (hr_hdrpos K L filename ext hdr reader w2) as (kp & w3 & H3 & E3).
  set (s3 := after (after (after (init w0)
                (open_image filename (READONLY K)) 0 w1)
                (movabs_hdu ext) 0 w2) get_hdrpos 0 w3).
  assert (Hh3 : hdr (world s3) = ([] ++ hdr w0)%list).
  { cbn [s3 after world app]. congruence. }
  destruct (read_rounds K L filename ext hdr reader [] (hdr w0) s3 Hh3)
    as (s4 & Hl & Hs & Ho).
  destruct (hr_close K L filename ext hdr reader (world s4))
    as (r5 & w5 & H5 & E5).
  exists (after s4 close_file 0 w5). repeat split.
  - unfold Cfits_read_header. invoke H1. invoke H2. invoke H3.
    cbn [reply_nkeys]. rewrite Nat2Z.id.
    replace (hdr w2) with (hdr w0) by congruence. fold s3.
    change 1 with (Z.of_nat (@List.length string []) + 1).
    fold (record_body L).
    rewrite (bind_ok _ _ _ _ _ Hl). invoke H5. reflexivity.
  - cbn [after world]. rewrite E5, Hs. cbn [s3 after world]. congruence.
  - cbn [after rcout]. rewrite Ho. reflexivity.
Qed.

Lemma toy_header_reader (filename : string) (ext : Z) :
  HeaderReader fitsio_h (Toy.lib []) filename ext Toy.cards.
Proof.
  constructor; intros; cbn.
  - now eexists _, _.
  - now eexists _, _.
  - now eexists _, _.
  - replace (Z.to_nat (Z.of_nat k + 1 - 1)) with k by lia. rewrite H.
    replace (1 <=? Z.of_nat k + 1) with true
      by (symmetry; apply Z.leb_le; lia).
    now eexists.
  - now eexists _, _.
Qed.

Lemma read_header_returns_cards_witness :
  let w0 := Toy.image 2 2 [1; 2; 3; 4] in
  exists s',
    Cfits_read_header fitsio_h (Toy.lib []) "i.fits" 1 (init w0)
    = (Ok (StringVector ["SIMPLE"; "BITPIX"; "NAXIS"]), s') /\
    Toy.cards (world s') = ["SIMPLE"; "BITPIX"; "NAXIS"] /\
    rcout s' = [].
Proof.
  intro w0.
  exact (read_header_returns_cards Toy.world fitsio_h (Toy.lib []) "i.fits" 1
           Toy.cards w0 (toy_header_reader "i.fits" 1)).
Defined.

(** X4: on a header of at most one card [Cfits_delete_header] deletes
    nothing: it makes no [fits_delete_record] call, prints nothing and
    leaves the header as it was. *)
Theorem delete_header_short_header_untouched :
  forall (W : Type) (K : Header) (L : Cfitsio W) filename ext
         (hdr : W -> list string) (w0 : W),
    HeaderStore K L filename ext hdr ->
    (List.length (hdr w0) <= 1)%nat ->
    exists s',
      Cfits_delete_header K L filename ext (init w0) = (Ok tt, s') /\
      hdr (world s') = hdr w0 /\
      filter is_delete_record (trace s') = [] /\
      rcout s' = [].
Proof.
  intros W K L filename ext hdr w0 store Hn.
  destruct (hs_open K L filename ext hdr store w0) as (r1 & w1 & H1 & E1).
  destruct (hs_movabs K L filename ext hdr store w1) as (r2 & w2 & H2 & E2).
  destruct (hs_hdrpos K L filename ext hdr store w2) as (kp & w3 & H3 & E3).
  destruct (hs_close K L filename ext hdr store w3) as (r4 & w4 & H4 & E4).
  eexists. repeat split.
  - unfold Cfits_delete_header. invoke H1. invoke H2. invoke H3.
    cbn [reply_nkeys].
    replace (Z.to_nat (Z.of_nat (List.length (hdr w2)) - 1)) with 0%nat
      by (rewrite E2, E1; lia).
    cbn [for_loop]. erewrite bind_ok; [| reflexivity]. invoke H4.
    reflexivity.
  - cbn [after world]. congruence.
  - reflexivity.
  - reflexivity.
Qed.

Lemma delete_header_short_header_untouched_witness :
  let w0 := Toy.set_cards Toy.blank ["SIMPLE"] in
  exists s',
    Cfits_delete_header fitsio_h (Toy.lib []) "i.fits" 1 (init w0)
    = (Ok tt, s') /\
    Toy.cards (world s') = ["SIMPLE"] /\
    filter is_delete_record (trace s') = [] /\
    rcout s' = [].
Proof.
  intro w0.
  refine (delete_header_short_header_untouched Toy.world fitsio_h (Toy.lib [])
            "i.fits" 1 Toy.cards w0 (toy_header_store "i.fits" 1) _).
  cbn. lia.
Defined.

(** ** Enumerating column names *)

Section Names.

Context {W : Type}.
Variable K : Header.
Variable L : Cfitsio W.

Lemma store_at_next {A} (done : list A) (v x : A) (rest : list A) :
  store_at (List.length done) v (done ++ x :: rest)
  = Some (done ++ v :: rest)%list.
Proof. induction done as [|d done IH]; cbn; [reflexivity | now rewrite IH]. Qed.

(** The body when the lookup reports [COL_NOT_FOUND]: nothing is stored. *)
Lemma colname_body_done (c : colname_loop) (s : state W) r w' :
  ffcall L (get_colname (CASEINSEN K) "*" (cl_colref c) (cl_status c))
         (world s) = (COL_NOT_FOUND K, r, w') ->
  exists c',
    colname_body K L c s
    = (Ok c', after s (get_colname (CASEINSEN K) "*" (cl_colref c)
                                   (cl_status c)) (COL_NOT_FOUND K) w') /\
    cl_status c' = COL_NOT_FOUND K /\ cl_out c' = cl_out c.
Proof.
  intro H. unfold colname_body, bind, ff. rewrite H. cbn [fst snd].
  rewrite Z.eqb_refl. cbn [negb]. eexists. repeat split.
Qed.

(** The body when the lookup gives a name and the counter is the index of
    an element of the vector: the name is stored there. *)
Lemma colname_body_name (c : colname_loop) (s : state W) status name k w'
    (done : list string) (x : string) (rest : list string) :
  ffcall L (get_colname (CASEINSEN K) "*" (cl_colref c) (cl_status c))
         (world s) = (status, RColname name k, w') ->
  status <> COL_NOT_FOUND K ->
  cl_out c = (done ++ x :: rest)%list ->
  cl_ii c = Z.of_nat (List.length done) ->
  colname_body K L c s
  = (Ok {| cl_colref := k; cl_status := status;
           cl_ii := Z.of_nat (List.length done) + 1; cl_colname := name;
           cl_out := (done ++ name :: rest)%list |},
     after s (get_colname (CASEINSEN K) "*" (cl_colref c) (cl_status c))
           status w').
Proof.
  intros H Hne Hout Hii. unfold colname_body, bind, ff. rewrite H.
  cbn [fst snd]. rewrite (proj2 (Z.eqb_neq _ _) Hne). cbn [negb].
  rewrite Hout, Hii, Nat2Z.id, store_at_next. reflexivity.
Qed.

(** The loop stores the names the library enumerates one after the other
    and exits at [COL_NOT_FOUND]. *)
Lemma colname_while_names (names : list string) :
  forall (fuel : nat) (c : colname_loop) (s : state W) w_end
         (done : list string) (extra : nat),
    enumerates K L (world s) (cl_status c) (cl_colref c) names w_end ->
    cl_status c <> COL_NOT_FOUND K ->
    cl_out c = (done ++ repeat "" (List.length names + extra))%list ->
    cl_ii c = Z.of_nat (List.length done) ->
    (List.length names < fuel)%nat ->
    exists c' s',
      colname_while K L fuel c s = (Ok (true, c'), s') /\
      cl_out c' = (done ++ names ++ repeat "" extra)%list /\
      world s' = w_end.
Proof.
  induction names as [|name names IH];
    intros fuel c s w_end done extra Henum Hst Hout Hii Hfuel;
    (destruct fuel as [|fuel]; [cbn in Hfuel; lia|]);
    cbn [colname_while];
    rewrite (proj2 (Z.eqb_neq _ _) Hst);
    inversion Henum as [? ? ? r w' Hcall | ? ? ? st' n col' w' ? ? Hcall Hne Hrest];
    subst.
  - destruct (colname_body_done c s r w_end Hcall) as (c1 & Hb & Hs1 & Ho1).
    rewrite (bind_ok _ _ _ _ _ Hb).
    destruct fuel; cbn [colname_while]; rewrite Hs1, Z.eqb_refl;
      (eexists _, _; split; [reflexivity|]);
      (split; [rewrite Ho1; exact Hout | reflexivity]).
  - cbn [List.length repeat Nat.add] in Hout.
    rewrite (bind_ok _ _ _ _ _
               (colname_body_name c s st' name col' w' done ""
                  (repeat "" (List.length names + extra)) Hcall Hne Hout Hii)).
    replace (done ++ (name :: names) ++ repeat "" extra)%list
      with ((done ++ [name]) ++ names ++ repeat "" extra)%list
      by (rewrite <- app_assoc; reflexivity).
    apply (IH fuel _ _ w_end (done ++ [name])%list extra).
    + exact Hrest.
    + exact Hne.
    + cbn [cl_out]. rewrite <- app_assoc. reflexivity.
    + cbn [cl_ii]. rewrite length_app. cbn [List.length]. lia.
    + cbn [List.length] in Hfuel. lia.
Qed.

End Names.

(** X5: when the library answers the lookups with one name after the other
    and then [COL_NOT_FOUND], and reports at least as many columns as it
    names, [Cfits_read_colname] (given room for one execution of the body per
    name, and one more) returns the names in that order, followed by an empty
    string for every column not named. *)
Theorem read_colname_returns_names :
  forall (W : Type) (K : Header) (L : Cfitsio W) fuel f colref ext
         (w0 w1 w2 w3 w_end w5 : W) r1 r2 r5 ncol names,
    ffcall L (open_file f (READONLY K)) w0 = (0, r1, w1) ->
    ffcall L (movabs_hdu ext) w1 = (0, r2, w2) ->
    ffcall L get_num_cols w2 = (0, RInt ncol, w3) ->
    COL_NOT_FOUND K <> 0 ->
    enumerates K L w3 0 colref names w_end ->
    ffcall L close_file w_end = (0, r5, w5) ->
    (List.length names <= Z.to_nat ncol)%nat ->
    (List.length names < fuel)%nat ->
    fst (Cfits_read_colname K L fuel f colref ext (init w0))
    = Ok (Some (StringVector
                  (names ++ repeat "" (Z.to_nat ncol - List.length names)))).
Proof.
  intros W K L fuel f colref ext w0 w1 w2 w3 w_end w5 r1 r2 r5 ncol names
    H1 H2 H3 Hnz Henum H5 Hlen Hfuel.
  unfold Cfits_read_colname. invoke H1. invoke H2. invoke H3.
  cbn [reply_int].
  set (s3 := after (after (after (init w0) (open_file f (READONLY K)) 0 w1)
                          (movabs_hdu ext) 0 w2) get_num_cols 0 w3).
  destruct (colname_while_names K L names fuel (colname_init colref ncol) s3
              w_end [] (Z.to_nat ncol - List.length names))
    as (c' & s' & Hw & Hout & Hworld).
  - exact Henum.
  - cbn. congruence.
  - cbn [colname_init cl_out app]. f_equal. lia.
  - reflexivity.
  - exact Hfuel.
  - rewrite (bind_ok _ _ _ _ _ Hw). cbn [fst snd].
    rewrite <- Hworld in H5. invoke H5. cbn [ret fst]. now rewrite Hout.
Qed.

Lemma read_colname_returns_names_witness :
  fst (Cfits_read_colname fitsio_h (Toy.lib []) 3 "t.fits" 1 2
         (init (Toy.table 82 [Some 1])))
  = Ok (Some (StringVector ["X"; "NAME"])).
Proof.
  set (w0 := Toy.table 82 [Some 1]).
  set (w1 := Toy.set_handles w0 1).
  refine (read_colname_returns_names Toy.world fitsio_h (Toy.lib []) 3
            "t.fits" 1 2 w0 w1 w1 w1 (Toy.set_cursor w1 2) _ RNone (RInt 0)
            RNone 2 ["X"; "NAME"] eq_refl eq_refl eq_refl _ _ eq_refl _ _).
  - discriminate.
  - eapply enum_name; [reflexivity | discriminate |].
    eapply enum_name; [reflexivity | discriminate |].
    eapply enum_done. reflexivity.
  - cbn. lia.
  - cbn. lia.
Defined.

(** ** Sizes of the results *)

Lemma chunks_length (k n : nat) (bs : list Z) : List.length (chunks k n bs) = n.
Proof.
  revert bs. induction n as [|n IH]; intro bs; cbn; [reflexivity|].
  now rewrite IH.
Qed.

(** A vector of [n] elements has [n] elements after the library wrote to it,
    whatever it wrote. *)
Lemma fill_length (buf src : ctype) (n : nat) (cells : list Z) :
  List.length (fill buf src n cells) = n.
Proof. unfold fill. now rewrite length_map, chunks_length. Qed.

Lemma filled_length (buf : ctype) (n : Z) (r : reply) :
  List.length (filled buf n r) = Z.to_nat n.
Proof. apply fill_length. Qed.

Lemma filled_strings_length (n : Z) (r : reply) :
  List.length (filled_strings n r) = Z.to_nat n.
Proof.
  unfold filled_strings. rewrite length_firstn, length_app, repeat_length. lia.
Qed.

Lemma col_dispatch_out_length (K : Header) (typecode : Z) (b : col_branch) :
  col_dispatch K typecode = Some b ->
  forall col, vlength (cb_out b col) = List.length col.
Proof.
  unfold col_dispatch.
  repeat match goal with
         | |- context [typecode =? ?c] =>
             destruct (typecode =? c);
             [intro H; injection H as <-; intro col; cbn;
              unfold memcpy_double; now rewrite ?length_map|]
         end.
  discriminate.
Qed.

Lemma img_dispatch_out_shape (K : Header) (datatype : Z) (b : img_branch) :
  img_dispatch K datatype = Some b ->
  forall n1 n2 pixels,
    dims (ib_out b n1 n2 pixels) = Some (n1, n2) /\
    vlength (ib_out b n1 n2 pixels) = List.length pixels.
Proof.
  unfold img_dispatch.
  repeat match goal with
         | |- context [datatype =? ?c] =>
             destruct (datatype =? c);
             [intro H; injection H as <-; intros n1 n2 pixels; cbn;
              now rewrite length_map|]
         end.
  discriminate.
Qed.

(** The length of the result of [Cfits_read_col]. *)
Lemma read_col_length :
  forall (W : Type) (K : Header) (L : Cfitsio W) f colref ext
         (w0 w1 w2 w3 : W) r1 r2 nrow v,
    ffcall L (open_file f (READONLY K)) w0 = (0, r1, w1) ->
    ffcall L (movabs_hdu ext) w1 = (0, r2, w2) ->
    ffcall L get_num_rows w2 = (0, RInt nrow, w3) ->
    fst (Cfits_read_col K L f colref ext (init w0)) = Ok v ->
    vlength v = Z.to_nat nrow.
Proof.
  intros W K L f colref ext w0 w1 w2 w3 r1 r2 nrow v H1 H2 H3.
  unfold Cfits_read_col. invoke H1. invoke H2. invoke H3. cbn [reply_int].
  next_call; [| discriminate].
  destruct (reply_typecode r =? TSTRING K).
  - next_call; [| discriminate]. next_call; [| discriminate].
    next_call; [| discriminate].
    cbn. intro H. injection H as <-. cbn. apply filled_strings_length.
  - destruct (col_dispatch K (reply_typecode r)) as [b|] eqn:Hb;
      [| discriminate].
    next_call; [| discriminate]. guarded; [discriminate|].
    next_call; [| discriminate].
    cbn [ret fst]. intro H. injection H as <-.
    rewrite (col_dispatch_out_length K _ b Hb). apply filled_length.
Qed.

(** X6: whatever the library stores and whichever branch is taken, a vector
    [Cfits_read_col] returns has as many elements as [fits_get_num_rows]
    reported rows. *)
Theorem read_col_length_is_row_count :
  forall (W : Type) (K : Header) (L : Cfitsio W) f colref ext
         (w0 w1 w2 w3 : W) r1 r2 nrow v,
    ffcall L (open_file f (READONLY K)) w0 = (0, r1, w1) ->
    ffcall L (movabs_hdu ext) w1 = (0, r2, w2) ->
    ffcall L get_num_rows w2 = (0, RInt nrow, w3) ->
    fst (Cfits_read_col K L f colref ext (init w0)) = Ok v ->
    vlength v = Z.to_nat nrow.
Proof. exact read_col_length. Qed.

Lemma read_col_length_is_row_count_witness :
  let w0 := Toy.table 30 [Some 1; None; Some 4000000000] in
  vlength (IntegerVector [1; 0; -294967296]) = Z.to_nat 3.
Proof.
  intro w0.
  exact (read_col_length_is_row_count Toy.world fitsio_h (Toy.lib [])
           "t.fits" 1 2 w0 (Toy.set_handles w0 1) (Toy.set_handles w0 1)
           (Toy.set_handles w0 1) RNone (RInt 0) 3
           (IntegerVector [1; 0; -294967296]) eq_refl eq_refl eq_refl eq_refl).
Defined.

(** X7: whatever the library stores, a matrix [Cfits_read_img] returns has
    [naxis1] rows, [naxis2] columns and [naxis1 * naxis2] elements. *)
Theorem read_img_shape :
  forall (W : Type) (K : Header) (L : Cfitsio W) f naxis1 naxis2 ext datatype
         (s : state W) v,
    fst (Cfits_read_img K L f naxis1 naxis2 ext datatype s) = Ok v ->
    dims v = Some (naxis1, naxis2) /\
    vlength v = Z.to_nat (naxis1 * naxis2).
Proof.
  intros W K L f naxis1 naxis2 ext datatype s v. unfold Cfits_read_img.
  next_call; [| discriminate]. next_call; [| discriminate].
  guarded; [discriminate|].
  destruct (img_dispatch K datatype) as [b|] eqn:Hb; [| discriminate].
  guarded; [discriminate|]. next_call; [| discriminate].
  guarded; [discriminate|]. next_call; [| discriminate].
  guarded; [discriminate|].
  cbn [ret fst]. intro H. injection H as <-.
  destruct (img_dispatch_out_shape K datatype b Hb naxis1 naxis2
              (filled (ib_buf b) (naxis1 * naxis2) r1)) as [Hd Hl].
  split; [exact Hd | rewrite Hl; apply filled_length].
Qed.

Lemma read_img_shape_witness :
  dims (IntegerMatrix 2 2 [67305985; 0; 0; 0]) = Some (2, 2) /\
  vlength (IntegerMatrix 2 2 [67305985; 0; 0; 0]) = Z.to_nat (2 * 2).
Proof.
  exact (read_img_shape Toy.world fitsio_h (Toy.lib []) "i.fits" 2 2 1 11
           (init (Toy.image 2 2 [1; 2; 3; 4]))
           (IntegerMatrix 2 2 [67305985; 0; 0; 0]) eq_refl).
Defined.



(** ** Numeric columns *)

(** The result of a numeric branch of [Cfits_read_col]. *)
Lemma read_col_cells :
  forall (W : Type) (K : Header) (L : Cfitsio W) f colref ext
         (w0 w1 w2 w3 w4 w5 w6 : W) r1 r2 r6 nrow typecode repeat width b
         cells,
    (typecode =? TSTRING K) = false ->
    col_dispatch K typecode = Some b ->
    ffcall L (open_file f (READONLY K)) w0 = (0, r1, w1) ->
    ffcall L (movabs_hdu ext) w1 = (0, r2, w2) ->
    ffcall L get_num_rows w2 = (0, RInt nrow, w3) ->
    ffcall L (get_coltype colref) w3
      = (0, RColtype typecode repeat width, w4) ->
    ffcall L (read_col typecode colref 1 1 nrow (Some (cb_nullval b))) w4
      = (0, RCells (cb_buf b) cells, w5) ->
    ffcall L close_file w5 = (0, r6, w6) ->
    List.length cells = Z.to_nat nrow ->
    Forall (in_range (cb_buf b)) cells ->
    fst (Cfits_read_col K L f colref ext (init w0)) = Ok (cb_out b cells).
Proof.
  intros W K L f colref ext w0 w1 w2 w3 w4 w5 w6 r1 r2 r6 nrow typecode
    repeat width b cells Hs Hb H1 H2 H3 H4 H5 H6 Hlen Hr.
  unfold Cfits_read_col. invoke H1. invoke H2. invoke H3. invoke H4.
  cbn [reply_typecode reply_int]. rewrite Hs, Hb.
  rewrite (col_dispatch_datatype K typecode b Hb).
  invoke H5. erewrite bind_ok; [| now apply received_same].
  invoke H6. reflexivity.
Qed.







Lemma to_int_unsigned (z : Z) :
  0 <= z < 2 ^ 32 ->
  to_int z = if z <? 2 ^ 31 then z else z - 2 ^ 32.
Proof.
  intro H. unfold to_int.
  assert (E : 2 ^ 32 = 2 * 2 ^ 31) by reflexivity.
  assert (P : 0 < 2 ^ 31) by reflexivity.
  rewrite E in *. generalize dependent (2 ^ 31). intros p H _ P.
  destruct (Z.ltb_spec z p).
  - rewrite Z.mod_small; lia.
  - replace (z + p) with (z - p + 1 * (2 * p)) by lia.
    rewrite Z.mod_add by lia. rewrite Z.mod_small; lia.
Qed.

(** X10: an unsigned 32-bit column comes back as R integers: a cell below
    2^31 is returned as it is, a cell from 2^31 on is returned lowered by
    2^32, so as a negative number. *)
Theorem read_col_unsigned_wraps :
  forall (W : Type) (K : Header) (L : Cfitsio W) f colref ext
         (w0 w1 w2 w3 w4 w5 w6 : W) r1 r2 r6 nrow repeat width cells,
    ~ In (TUINT K) [TSTRING K; TBYTE K; TINT K] ->
    ffcall L (open_file f (READONLY K)) w0 = (0, r1, w1) ->
    ffcall L (movabs_hdu ext) w1 = (0, r2, w2) ->
    ffcall L get_num_rows w2 = (0, RInt nrow, w3) ->
    ffcall L (get_coltype colref) w3
      = (0, RColtype (TUINT K) repeat width, w4) ->
    ffcall L (read_col (TUINT K) colref 1 1 nrow (Some (c_uint, 0))) w4
      = (0, RCells c_uint cells, w5) ->
    ffcall L close_file w5 = (0, r6, w6) ->
    List.length cells = Z.to_nat nrow ->
    Forall (in_range c_uint) cells ->
    fst (Cfits_read_col K L f colref ext (init w0))
    = Ok (IntegerVector
            (map (fun u => if u <? 2 ^ 31 then u else u - 2 ^ 32) cells)).
Proof.
  intros W K L f colref ext w0 w1 w2 w3 w4 w5 w6 r1 r2 r6 nrow repeat width
    cells Hcodes H1 H2 H3 H4 H5 H6 Hlen Hr.
  assert (Hb : col_dispatch K (TUINT K)
               = Some {| cb_datatype := TUINT K; cb_nullval := (c_uint, 0);
                         cb_buf := c_uint; cb_out := int_vector |}).
  { unfold col_dispatch.
    rewrite !(not_in_eqb _ _ _ Hcodes) by (simpl; tauto).
    now rewrite Z.eqb_refl. }
  rewrite (read_col_cells W K L f colref ext w0 w1 w2 w3 w4 w5 w6
             r1 r2 r6 nrow (TUINT K) repeat width _ cells
             (not_in_eqb _ _ _ Hcodes (or_introl eq_refl)) Hb
             H1 H2 H3 H4 H5 H6 Hlen Hr).
  cbn [cb_out]. unfold int_vector. f_equal. f_equal.
  apply map_ext_Forall. revert Hr. apply Forall_impl. intros u Hu.
  apply to_int_unsigned. exact Hu.
Qed.

Lemma read_col_unsigned_wraps_witness :
  fst (Cfits_read_col fitsio_h (Toy.lib []) "t.fits" 1 2
         (init (Toy.table 30 [Some 1; None; Some 4000000000])))
  = Ok (IntegerVector [1; 0; -294967296]).
Proof.
  set (w0 := Toy.table 30 [Some 1; None; Some 4000000000]).
  set (w1 := Toy.set_handles w0 1).
  refine (read_col_unsigned_wraps Toy.world fitsio_h (Toy.lib []) "t.fits"
            1 2 w0 w1 w1 w1 w1 w1 w0 RNone (RInt 0) RNone 3 1 8
            [1; 0; 4000000000] _ eq_refl eq_refl eq_refl eq_refl eq_refl
            eq_refl eq_refl _).
  - simpl. intuition discriminate.
  - repeat constructor; vm_compute; intuition discriminate.
Defined.

(** ** More on images *)



(** X12: an image of doubles written with [Cfits_write_image] and read back
    with [Cfits_read_img] and the same axes, which are not negative and
    whose product is an [int], comes back bit for bit, given that the
    library's calls succeed and that its read hands back the
    [naxis1 * naxis2] doubles its write was handed. *)
Theorem write_image_read_img_double :
  forall (W : Type) (K : Header) (L : Cfitsio W) f ext naxis1 naxis2 bits
         (w0 w1 w2 w3 w4 w5 w6 w7 w8 : W) r1 r2 r3 r4 r5 r6 r8,
    ~ In (TDOUBLE K) [TINT K; TSHORT K; TLONG K; TFLOAT K] ->
    0 <= naxis1 -> 0 <= naxis2 -> naxis1 * naxis2 < 2 ^ 31 ->
    Forall (in_range c_double) bits ->
    List.length bits = Z.to_nat (naxis1 * naxis2) ->
    ffcall L (open_file f (READWRITE K)) w0 = (0, r1, w1) ->
    ffcall L (movabs_hdu ext) w1 = (0, r2, w2) ->
    ffcall L (write_pix (TDOUBLE K) [1; 1] (naxis1 * naxis2)
                        (BufVals c_double bits)) w2 = (0, r3, w3) ->
    ffcall L close_file w3 = (0, r4, w4) ->
    ffcall L (open_image f (READONLY K)) w4 = (0, r5, w5) ->
    ffcall L (movabs_hdu ext) w5 = (0, r6, w6) ->
    ffcall L (read_img (TDOUBLE K) 1 (naxis1 * naxis2) (Some (c_int, 0))) w6
      = (0, RCells c_double
                   (objects c_double (naxis1 * naxis2) (BufVals c_double bits)),
         w7) ->
    ffcall L close_file w7 = (0, r8, w8) ->
    (exists s', Cfits_write_image K L f (RReals bits) (TDOUBLE K) naxis1
                  naxis2 ext (init w0) = (Ok tt, s') /\ world s' = w4) /\
    fst (Cfits_read_img K L f naxis1 naxis2 ext (TDOUBLE K) (init w4))
    = Ok (NumericMatrix naxis1 naxis2 (map DBits bits)).
Proof.
  intros W K L f ext naxis1 naxis2 bits w0 w1 w2 w3 w4 w5 w6 w7 w8
    r1 r2 r3 r4 r5 r6 r8 Hcodes Hn1 Hn2 Hn Hr Hlen Hw1 Hw2 Hw3 Hw4
    Hr1 Hr2 Hr3 Hr4.
  split.
  - eexists. unfold Cfits_write_image. invoke Hw1. invoke Hw2.
    rewrite !(not_in_eqb _ _ _ Hcodes) by (simpl; tauto).
    rewrite Z.eqb_refl. cbn [REAL].
    erewrite bind_ok; [| invoke Hw3; reflexivity]. invoke Hw4.
    split; reflexivity.
  - cbn [objects] in Hr3.
    rewrite (fill_same c_double _ bits Hlen Hr) in Hr3.
    assert (Hb : img_dispatch K (TDOUBLE K)
                 = Some {| ib_buf := c_double;
                           ib_out := numeric_matrix DBits |}).
    { unfold img_dispatch.
      rewrite (not_in_eqb _ (TFLOAT K) _ Hcodes) by (simpl; tauto).
      now rewrite Z.eqb_refl. }
    exact (read_img_matching_buffer K L f naxis1 naxis2 ext (TDOUBLE K)
             w4 w5 w6 w7 w8 r5 r6 r8 _ bits Hn1 Hn2 Hn Hb Hr1 Hr2 Hr3 Hr4
             Hlen Hr).
Qed.

Lemma write_image_read_img_double_witness :
  let L := Toy.lib [] in
  let w0 := Toy.image 2 2 [0; 0; 0; 0] in
  let w4 := Toy.image 2 2 [5; 6; 7; 8] in
  (exists s', Cfits_write_image fitsio_h L "i.fits" (RReals [5; 6; 7; 8]) 82
                2 2 1 (init w0) = (Ok tt, s') /\ world s' = w4) /\
  fst (Cfits_read_img fitsio_h L "i.fits" 2 2 1 82 (init w4))
  = Ok (NumericMatrix 2 2 [DBits 5; DBits 6; DBits 7; DBits 8]).
Proof.
  intros L w0 w4.
  refine (write_image_read_img_double Toy.world fitsio_h L "i.fits" 1 2 2
            [5; 6; 7; 8] w0 (Toy.set_handles w0 1) (Toy.set_handles w0 1)
            (Toy.set_handles w4 1) w4 (Toy.set_handles w4 1)
            (Toy.set_handles w4 1) (Toy.set_handles w4 1) w4
            RNone (RInt 0) RNone RNone RNone (RInt 0) RNone
            _ _ _ _ _ eq_refl eq_refl eq_refl eq_refl eq_refl eq_refl eq_refl
            eq_refl eq_refl).
  - simpl. intuition discriminate.
  - discriminate.
  - discriminate.
  - reflexivity.
  - repeat constructor; vm_compute; intuition discriminate.
Defined.

(** ** Default arguments *)

(** X13: [Cfits_write_col] and [Cfits_update_key] called with their default
    [typecode] (1) and [ext] (2) write nothing when 1 is none of the four
    codes their chains know, as in CFITSIO's header: the file is opened,
    the HDU reached, the file closed, and the call returns normally. *)
Theorem default_typecode_writes_nothing :
  forall (W : Type) (K : Header) (L : Cfitsio W) f data nrow keyname comment
         (w0 w1 w2 w3 : W) r1 r2 r3,
    ~ In 1 [TSTRING K; TINT K; TLONGLONG K; TDOUBLE K] ->
    ffcall L (open_file f (READWRITE K)) w0 = (0, r1, w1) ->
    ffcall L (movabs_hdu 2) w1 = (0, r2, w2) ->
    ffcall L close_file w2 = (0, r3, w3) ->
    let quiet_run :=
      (Ok tt, after (after (after (init w0) (open_file f (READWRITE K)) 0 w1)
                           (movabs_hdu 2) 0 w2) close_file 0 w3) in
    Cfits_write_col_default K L f data nrow (init w0) = quiet_run /\
    Cfits_update_key_default K L f data keyname comment (init w0) = quiet_run.
Proof.
  intros W K L f data nrow keyname comment w0 w1 w2 w3 r1 r2 r3
    Hcode H1 H2 H3 quiet_run.
  unfold Cfits_write_col_default, Cfits_update_key_default, Cfits_write_col,
    Cfits_update_key.
  split; invoke H1; invoke H2;
    rewrite !(not_in_eqb _ _ _ Hcode) by (simpl; tauto);
    (erewrite bind_ok; [| reflexivity]); invoke H3; reflexivity.
Qed.

Lemma default_typecode_writes_nothing_witness :
  let L := Toy.lib [] in
  let w0 := Toy.table 82 [Some 1; Some 2] in
  let quiet_run :=
    (Ok tt,
     {| world := w0;
        trace := [(close_file, 0); (movabs_hdu 2, 0);
                  (open_file "t.fits" 1, 0)];
        rcout := [] |}) in
  Cfits_write_col_default fitsio_h L "t.fits" (RReals [7; 8]) 2 (init w0)
  = quiet_run /\
  Cfits_update_key_default fitsio_h L "t.fits" (RReals [7; 8]) "KEY" ""
    (init w0) = quiet_run.
Proof.
  intros L w0 quiet_run.
  refine (default_typecode_writes_nothing Toy.world fitsio_h L "t.fits"
            (RReals [7; 8]) 2 "KEY" "" w0 (Toy.set_handles w0 1)
            (Toy.set_handles w0 1) w0 RNone (RInt 0) RNone _
            eq_refl eq_refl eq_refl).
  simpl. intuition discriminate.
Defined.

(** X14: [Cfits_read_img] and [Cfits_read_img_subset] called with their
    default [datatype] (-32) raise "unsupported type" when -32 is none of
    the five codes their chain knows, as in CFITSIO's header: the file is
    opened, the HDU reached, and the exception leaves with the file open and
    nothing read. *)
Theorem default_datatype_is_refused :
  forall (W : Type) (K : Header) (L : Cfitsio W) f (w0 w1 w2 : W) r1 r2,
    ~ In (-32) [TFLOAT K; TDOUBLE K; TBYTE K; TSHORT K; TLONG K] ->
    ffcall L (open_image f (READONLY K)) w0 = (0, r1, w1) ->
    ffcall L (movabs_hdu 1) w1 = (0, r2, w2) ->
    let refused :=
      (@Throw SEXP "unsupported type",
       after (after (init w0) (open_image f (READONLY K)) 0 w1)
             (movabs_hdu 1) 0 w2) in
    Cfits_read_img_default K L f (init w0) = refused /\
    Cfits_read_img_subset_default K L f (init w0) = refused.
Proof.
  intros W K L f w0 w1 w2 r1 r2 Hcode H1 H2 refused.
  assert (Hd : img_dispatch K (-32) = None).
  { unfold img_dispatch.
    now rewrite !(not_in_eqb _ _ _ Hcode) by (simpl; tauto). }
  unfold Cfits_read_img_default, Cfits_read_img_subset_default,
    Cfits_read_img, Cfits_read_img_subset.
  split; invoke H1; invoke H2; allocate; rewrite Hd; reflexivity.
Qed.

Lemma default_datatype_is_refused_witness :
  let L := Toy.lib [] in
  let w0 := Toy.image 2 2 [1; 2; 3; 4] in
  let refused :=
    (@Throw SEXP "unsupported type",
     {| world := Toy.set_handles w0 1;
        trace := [(movabs_hdu 1, 0); (open_image "i.fits" 0, 0)];
        rcout := [] |}) in
  Cfits_read_img_default fitsio_h L "i.fits" (init w0) = refused /\
  Cfits_read_img_subset_default fitsio_h L "i.fits" (init w0) = refused.
Proof.
  intros L w0 refused.
  refine (default_datatype_is_refused Toy.world fitsio_h L "i.fits" w0
            (Toy.set_handles w0 1) (Toy.set_handles w0 1) RNone (RInt 0) _
            eq_refl eq_refl).
  simpl. intuition discriminate.
Defined.

(** ** Exception messages *)

Lemma failing_call_message {W} (L : Cfitsio W) (c : call) (status : Z) :
  failing_call (fits_status_to_exception L (call_name c) status)
  = Some (call_name c).
Proof. destruct c; reflexivity. Qed.

(** X15: in every exported function, when the latest call of a run returned
    a non-zero status (the lookups of [Cfits_read_colname] apart), the run
    threw, and the name between "Error when invoking fits_" and the first
    colon of the message is the name of that call. *)
Theorem failed_call_is_named :
  forall (W : Type) (K : Header) (L : Cfitsio W) (fuel : nat)
         (op : operation) (w : W) c status earlier,
    trace (snd (run K L fuel op (init w))) = (c, status) :: earlier ->
    status <> 0 ->
    is_colname c = false ->
    exists message,
      fst (run K L fuel op (init w)) = Throw message /\
      failing_call message = Some (call_name c).
Proof.
  intros W K L fuel op w c status earlier Ht Hne Hcol.
  destruct (run_keeps K L fuel op (init w)) as (evs & He & Hc).
  cbn [init trace] in He. rewrite app_nil_r in He. rewrite Ht in He.
  subst evs.
  destruct Hc as [[Hq _] | (e & rest & Heq & (_ & _ & Hmsg) & _)].
  - inversion Hq as [|? ? [Hz | Hx] _]; subst; unfold is_lookup in *;
      cbn in *; congruence.
  - injection Heq as <- <-. cbn [fst snd] in Hmsg.
    destruct (fst (run K L fuel op (init w))) as [v | message | x];
      [discriminate | | discriminate].
    injection Hmsg as ->. eexists. split; [reflexivity|].
    apply failing_call_message.
Qed.

Lemma failed_call_is_named_witness :
  exists message,
    fst (run fitsio_h (Toy.lib [("get_hdrpos", 252)]) 0
             (op_read_header "i.fits" 1) (init (Toy.image 2 2 [1; 2; 3; 4])))
    = Throw message /\
    failing_call message = Some "get_hdrpos".
Proof.
  refine (failed_call_is_named Toy.world fitsio_h
            (Toy.lib [("get_hdrpos", 252)]) 0 (op_read_header "i.fits" 1)
            (Toy.image 2 2 [1; 2; 3; 4]) get_hdrpos 252 _ eq_refl _ eq_refl).
  discriminate.
Defined.

(** ** Witnesses of earlier lemmas *)

Lemma any_failed_move_leaks_witness :
  let out := run fitsio_h (Toy.lib [("movabs_hdu", 252); ("create_hdu", 252)])
                 0 (op_create_image "new.fits" 16 2 2) (init Toy.blank) in
  thrown (fst out) <> None /\ opened (trace (snd out)) = 1%nat /\
  closed (trace (snd out)) = 0%nat.
Proof.
  refine (any_failed_move_leaks fitsio_h
            (Toy.lib [("movabs_hdu", 252); ("create_hdu", 252)]) 0
            (op_create_image "new.fits" 16 2 2) Toy.blank _ _).
  - intros c w H. destruct c; try discriminate H; reflexivity.
  - intros c w H. destruct c; try contradiction; cbn; discriminate.
Defined.

Lemma write_unsupported_witness :
  let L := Toy.lib [] in
  let w0 := Toy.table 82 [Some 1; Some 2] in
  let quiet_run :=
    (Ok tt,
     {| world := w0;
        trace := [(close_file, 0); (movabs_hdu 2, 0);
                  (open_file "t.fits" 1, 0)];
        rcout := [] |}) in
  Cfits_write_col fitsio_h L "t.fits" (RReals [7; 8]) 2 1 2 30 (init w0)
  = quiet_run /\
  Cfits_update_key fitsio_h L "t.fits" (RReals [7; 8]) "KEY" "" 2 30 (init w0)
  = quiet_run /\
  Cfits_write_image fitsio_h L "t.fits" (RReals [7; 8]) 30 1 2 2 (init w0)
  = quiet_run.
Proof.
  intros L w0 quiet_run.
  refine (write_unsupported fitsio_h L "t.fits" (RReals [7; 8]) 2 1 2 30
            "KEY" "" 1 2 w0 (Toy.set_handles w0 1) (Toy.set_handles w0 1) w0
            RNone (RInt 0) RNone _ eq_refl eq_refl eq_refl).
  simpl. intuition discriminate.
Defined.

Lemma read_col_unsupported_witness :
  fst (Cfits_read_col fitsio_h (Toy.lib []) "t.fits" 1 2
         (init (Toy.table 14 [Some 1])))
  = Throw "unsupported type".
Proof.
  set (w0 := Toy.table 14 [Some 1]).
  exact (read_col_unsupported fitsio_h (Toy.lib []) "t.fits" 1 2 (init w0)
           RNone (Toy.set_handles w0 1) (RInt 0) (Toy.set_handles w0 1) 1
           (Toy.set_handles w0 1) 14 1 8 (Toy.set_handles w0 1)
           eq_refl eq_refl eq_refl eq_refl eq_refl eq_refl).
Defined.

Lemma read_img_unsupported_witness :
  let s := init (Toy.image 4 4 [1; 2; 3; 4; 5; 6; 7; 8; 9; 10; 11; 12; 13;
                                14; 15; 16]) in
  fst (Cfits_read_img fitsio_h (Toy.lib []) "i.fits" 4 4 1 31 s)
  = Throw "unsupported type" /\
  fst (Cfits_read_img_subset fitsio_h (Toy.lib []) "i.fits" 2 3 3 4 1 31 s)
  = Throw "unsupported type".
Proof.
  intro s.
  exact (read_img_unsupported fitsio_h (Toy.lib []) "i.fits" 4 4 2 3 3 4 1 31
           s RNone (Toy.set_handles (world s) 1) (RInt 0)
           (Toy.set_handles (world s) 1)
           eq_refl eq_refl eq_refl eq_refl eq_refl).
Defined.

(** ** Reading a keyword *)

(** X20: [Cfits_read_key] returns only for the type codes [TDOUBLE] and
    [TSTRING], and what it returns is a vector of exactly one element,
    whatever the library stores. *)
Theorem read_key_returns_one_value :
  forall (W : Type) (K : Header) (L : Cfitsio W) f keyname typecode ext
         (s : state W) v,
    fst (Cfits_read_key K L f keyname typecode ext s) = Ok v ->
    vlength v = 1%nat /\ (typecode = TDOUBLE K \/ typecode = TSTRING K).
Proof.
  intros W K L f keyname typecode ext s v. unfold Cfits_read_key.
  match goal with
  | |- context [bind (fits_safe_open_file L ?f0 ?m) ?k ?s0] =>
      destruct (fits_safe_open_file_cases L f0 m s0)
        as [(r & w' & _ & E) | (st & w' & _ & E)];
      [ rewrite (bind_ok _ k s0 _ _ E) | rewrite (bind_throw _ k s0 _ _ E) ]
  end; [| discriminate].
  next_call; [| discriminate].
  destruct (Z.eqb_spec typecode (TDOUBLE K)) as [Ed | _].
  - next_call; [| discriminate]. guarded; [discriminate|].
    next_call; [| discriminate].
    cbn [ret fst]. intro H. injection H as <-. split; [| now left].
    reflexivity.
  - destruct (Z.eqb_spec typecode (TSTRING K)) as [Es | _]; [| discriminate].
    next_call; [| discriminate]. next_call; [| discriminate].
    cbn [ret fst]. intro H. injection H as <-. split; [reflexivity | now right].
Qed.

Lemma read_key_returns_one_value_witness :
  vlength (NumericVector [DBits 0] None) = 1%nat /\ (82 = 82 \/ 82 = 16).
Proof.
  exact (read_key_returns_one_value Toy.world fitsio_h
           (Toy.lib [("read_key", 0)]) "t.fits" "KEY" 82 1
           (init (Toy.table 82 [Some 1])) (NumericVector [DBits 0] None)
           eq_refl).
Defined.

(** ** Writing a short image from R integers *)

Lemma chunks_firstn (k n : nat) (bs : list Z) :
  chunks k n (firstn (n * k) bs) = chunks k n bs.
Proof.
  revert bs. induction n as [|n IH]; intro bs; cbn [chunks]; [reflexivity|].
  rewrite firstn_firstn.
  replace (Nat.min k (S n * k)) with k by (cbn; lia).
  f_equal. rewrite skipn_firstn_comm.
  replace (S n * k - k)%nat with (n * k)%nat by (cbn; lia). apply IH.
Qed.

Lemma chunks_prefix (k n m : nat) (bs : list Z) :
  (n <= m)%nat -> chunks k n bs = firstn n (chunks k m bs).
Proof.
  revert m bs. induction n as [|n IH]; intros m bs Hnm; [reflexivity|].
  destruct m as [|m]; [lia|]. cbn [chunks firstn]. f_equal.
  apply IH. lia.
Qed.

Lemma le_bytes_int_halves (v : Z) :
  le_bytes 4 v = (le_bytes 2 v ++ le_bytes 2 (v / 65536))%list.
Proof.
  cbn [le_bytes app]. rewrite !Z.div_div by lia. reflexivity.
Qed.

Lemma chunks_int_as_shorts (l : list Z) (rest : list Z) :
  chunks 2 (2 * List.length l) (flat_map (le_bytes 4) l ++ rest)
  = flat_map (fun v => [le_bytes 2 v; le_bytes 2 (v / 65536)]) l.
Proof.
  induction l as [|v l IH]; [reflexivity|].
  cbn [List.length flat_map].
  replace (2 * S (List.length l))%nat with (S (S (2 * List.length l))) by lia.
  rewrite le_bytes_int_halves, <- !app_assoc. cbn [chunks].
  change (firstn 2 (le_bytes 2 v ++ ?x)) with (le_bytes 2 v).
  cbn [le_bytes app firstn skipn]. cbn [le_bytes app] in IH.
  now rewrite IH.
Qed.

Lemma map_decode_halves (l : list Z) :
  map (decode c_short)
      (flat_map (fun v => [le_bytes 2 v; le_bytes 2 (v / 65536)]) l)
  = flat_map short_halves l.
Proof.
  induction l as [|v l IH]; cbn [flat_map]; [reflexivity|].
  now rewrite map_app, IH.
Qed.

(** The shorts at the start of an array of [int]s are the low and the high
    half of each [int] in turn. *)
Lemma ints_as_shorts (n : nat) (l : list Z) :
  (n <= 2 * List.length l)%nat ->
  fill c_short c_int n l = firstn n (flat_map short_halves l).
Proof.
  intro Hn. unfold fill. cbn [sizeof].
  rewrite chunks_firstn.
  rewrite (chunks_prefix 2 n (2 * List.length l)) by exact Hn.
  rewrite chunks_int_as_shorts, <- firstn_map, map_decode_halves.
  reflexivity.
Qed.

Lemma short_halves_small (v : Z) :
  0 <= v < 2 ^ 15 -> short_halves v = [v; 0].
Proof.
  intro H. unfold short_halves.
  assert (P : 2 ^ 15 < 65536) by reflexivity.
  rewrite (Z.div_small v 65536) by lia.
  rewrite decode_le_bytes.
  - reflexivity.
  - unfold in_range. cbn [is_signed sizeof].
    change (8 * Z.of_nat 2 - 1) with 15. lia.
Qed.

Lemma short_halves_all_small (l : list Z) :
  Forall (fun v => 0 <= v < 2 ^ 15) l ->
  flat_map short_halves l = flat_map (fun v => [v; 0]) l.
Proof.
  induction 1 as [|v l Hv _ IH]; [reflexivity|].
  cbn [flat_map]. now rewrite IH, short_halves_small.
Qed.

(** X21: [Cfits_write_image] with [TSHORT] hands the library the R integers
    themselves, an array of 4-byte [int]s, for it to take [naxis1 * naxis2]
    shorts from.  The shorts at the start of that array are the low and the
    high half of each integer in turn (little-endian): for values from 0 to
    32767 the pixels written are the first half of the data with a 0 after
    each value, not the data. *)
Theorem write_image_short_takes_halves :
  forall (W : Type) (K : Header) (L : Cfitsio W) f ints naxis1 naxis2 ext
         (w0 w1 w2 w3 w4 : W) r1 r2 r3 r4,
    TSHORT K <> TINT K ->
    Z.of_nat (List.length ints) = naxis1 * naxis2 ->
    ffcall L (open_file f (READWRITE K)) w0 = (0, r1, w1) ->
    ffcall L (movabs_hdu ext) w1 = (0, r2, w2) ->
    ffcall L (write_pix (TSHORT K) [1; 1] (naxis1 * naxis2)
                        (BufVals c_int ints)) w2 = (0, r3, w3) ->
    ffcall L close_file w3 = (0, r4, w4) ->
    fst (Cfits_write_image K L f (RInts ints) (TSHORT K) naxis1 naxis2 ext
           (init w0)) = Ok tt /\
    objects c_short (naxis1 * naxis2) (BufVals c_int ints)
    = firstn (List.length ints) (flat_map short_halves ints) /\
    (Forall (fun v => 0 <= v < 2 ^ 15) ints ->
     objects c_short (naxis1 * naxis2) (BufVals c_int ints)
     = firstn (List.length ints) (flat_map (fun v => [v; 0]) ints)).
Proof.
  intros W K L f ints naxis1 naxis2 ext w0 w1 w2 w3 w4 r1 r2 r3 r4
    Hcode Hlen H1 H2 H3 H4.
  assert (Ho : objects c_short (naxis1 * naxis2) (BufVals c_int ints)
               = firstn (List.length ints) (flat_map short_halves ints)).
  { cbn [objects]. rewrite <- Hlen, Nat2Z.id. apply ints_as_shorts. lia. }
  repeat split.
  - unfold Cfits_write_image. invoke H1. invoke H2.
    rewrite (proj2 (Z.eqb_neq _ _) Hcode), Z.eqb_refl. cbn [INTEGER].
    erewrite bind_ok; [| invoke H3; reflexivity]. invoke H4. reflexivity.
  - exact Ho.
  - intro Hsmall. now rewrite Ho, short_halves_all_small.
Qed.

Lemma write_image_short_takes_halves_witness :
  let L := Toy.lib [] in
  let w0 := Toy.image 2 2 [0; 0; 0; 0] in
  fst (Cfits_write_image fitsio_h L "i.fits" (RInts [1; 2; 3; 4]) 21 2 2 1
         (init w0)) = Ok tt /\
  objects c_short (2 * 2) (BufVals c_int [1; 2; 3; 4])
  = firstn 4 (flat_map short_halves [1; 2; 3; 4]) /\
  (Forall (fun v => 0 <= v < 2 ^ 15) [1; 2; 3; 4] ->
   objects c_short (2 * 2) (BufVals c_int [1; 2; 3; 4])
   = firstn 4 (flat_map (fun v => [v; 0]) [1; 2; 3; 4])).
Proof.
  intros L w0.
  refine (write_image_short_takes_halves Toy.world fitsio_h L "i.fits"
            [1; 2; 3; 4] 2 2 1 w0 (Toy.set_handles w0 1)
            (Toy.set_handles w0 1)
            (Toy.set_handles (Toy.image 2 2 [1; 0; 2; 0]) 1)
            (Toy.image 2 2 [1; 0; 2; 0]) RNone (RInt 0) RNone RNone
            _ eq_refl eq_refl eq_refl eq_refl eq_refl).
  discriminate.
Defined.

(** ** No partial success *)

(** X22: when an exported function returns normally, every CFITSIO call it
    made returned status 0, the lookups of [Cfits_read_colname] apart: no
    function returns a result after a failed call. *)
Theorem normal_return_means_all_calls_succeeded :
  forall (W : Type) (K : Header) (L : Cfitsio W) (fuel : nat)
         (op : operation) (w : W) v,
    fst (run K L fuel op (init w)) = Ok v ->
    Forall (fun e => snd e = 0 \/ is_colname (fst e) = true)
           (trace (snd (run K L fuel op (init w)))).
Proof.
  intros W K L fuel op w v Hv.
  destruct (run_keeps K L fuel op (init w)) as (evs & He & Hc).
  cbn [init trace] in He. rewrite app_nil_r in He. rewrite He.
  rewrite Hv in Hc. cbn [thrown] in Hc.
  exact (checked_ok_quiet L evs Hc).
Qed.

Lemma normal_return_means_all_calls_succeeded_witness :
  Forall (fun e => snd e = 0 \/ is_colname (fst e) = true)
         (trace (snd (run fitsio_h (Toy.lib []) 3
                          (op_read_colname "t.fits" 1 2)
                          (init (Toy.table 82 [Some 1]))))).
Proof.
  exact (normal_return_means_all_calls_succeeded Toy.world fitsio_h
           (Toy.lib []) 3 (op_read_colname "t.fits" 1 2)
           (Toy.table 82 [Some 1]) (VSexp (StringVector ["X"; "NAME"]))
           eq_refl).
Defined.

(** ** Row count and column length *)

(** X23: for a table of fewer than 2^31 rows, the number [Cfits_read_nrow]
    returns is the number of elements of any vector [Cfits_read_col]
    returns for a column of the same HDU, the library reporting the same
    row count to both. *)
Theorem read_nrow_is_column_length :
  forall (W : Type) (K : Header) (L : Cfitsio W) f colref ext nrow
         (w0 w1 w2 w3 w4 u0 u1 u2 u3 : W) r1 r2 r4 q1 q2 v,
    0 <= nrow < 2 ^ 31 ->
    ffcall L (open_file f (READONLY K)) w0 = (0, r1, w1) ->
    ffcall L (movabs_hdu ext) w1 = (0, r2, w2) ->
    ffcall L get_num_rows w2 = (0, RInt nrow, w3) ->
    ffcall L close_file w3 = (0, r4, w4) ->
    ffcall L (open_file f (READONLY K)) u0 = (0, q1, u1) ->
    ffcall L (movabs_hdu ext) u1 = (0, q2, u2) ->
    ffcall L get_num_rows u2 = (0, RInt nrow, u3) ->
    fst (Cfits_read_col K L f colref ext (init u0)) = Ok v ->
    fst (Cfits_read_nrow K L f ext (init w0)) = Ok nrow /\
    vlength v = Z.to_nat nrow.
Proof.
  intros W K L f colref ext nrow w0 w1 w2 w3 w4 u0 u1 u2 u3 r1 r2 r4 q1 q2 v
    Hn H1 H2 H3 H4 G1 G2 G3 Hv.
  split.
  - unfold Cfits_read_nrow. invoke H1. invoke H2. invoke H3. invoke H4.
    cbn [ret fst reply_int]. f_equal. unfold to_int.
    assert (E : 2 ^ 32 = 2 * 2 ^ 31) by reflexivity.
    assert (P : 0 < 2 ^ 31) by reflexivity.
    rewrite E. generalize dependent (2 ^ 31). intros p Hn _ P.
    rewrite Z.mod_small; lia.
  - exact (read_col_length W K L f colref ext u0 u1 u2 u3
             q1 q2 nrow v G1 G2 G3 Hv).
Qed.

Lemma read_nrow_is_column_length_witness :
  let L := Toy.lib [] in
  let w0 := Toy.table 21 [Some (-5); None; Some 7] in
  fst (Cfits_read_nrow fitsio_h L "t.fits" 2 (init w0)) = Ok 3 /\
  vlength (IntegerVector [-5; -128; 7]) = Z.to_nat 3.
Proof.
  intros L w0.
  refine (read_nrow_is_column_length Toy.world fitsio_h L "t.fits" 1 2 3
            w0 (Toy.set_handles w0 1) (Toy.set_handles w0 1)
            (Toy.set_handles w0 1) w0
            w0 (Toy.set_handles w0 1) (Toy.set_handles w0 1)
            (Toy.set_handles w0 1) RNone (RInt 0) RNone RNone (RInt 0)
            (IntegerVector [-5; -128; 7]) _
            eq_refl eq_refl eq_refl eq_refl eq_refl eq_refl eq_refl eq_refl).
  split; [discriminate | reflexivity].
Defined.

(** ** String columns and keywords *)

(** X24: strings written to a column with [Cfits_write_col] and read back
    with [Cfits_read_col] come back unchanged and in order, given that the
    library's calls succeed, that the column reports [TSTRING] and that the
    library's read hands back the strings its write was handed.  The read
    asks for the display width of the column first and passes no sentinel. *)
Theorem write_col_read_col_strings :
  forall (W : Type) (K : Header) (L : Cfitsio W) f colref ext strs
         (w0 w1 w2 w3 w4 w5 w6 w7 w8 w9 w10 w11 : W)
         r1 r2 r3 r4 r5 r6 r11 repeat width cwidth,
    let nrow := Z.of_nat (List.length strs) in
    ffcall L (open_file f (READWRITE K)) w0 = (0, r1, w1) ->
    ffcall L (movabs_hdu ext) w1 = (0, r2, w2) ->
    ffcall L (write_col (TSTRING K) colref 1 1 nrow (BufStrs strs)) w2
      = (0, r3, w3) ->
    ffcall L close_file w3 = (0, r4, w4) ->
    ffcall L (open_file f (READONLY K)) w4 = (0, r5, w5) ->
    ffcall L (movabs_hdu ext) w5 = (0, r6, w6) ->
    ffcall L get_num_rows w6 = (0, RInt nrow, w7) ->
    ffcall L (get_coltype colref) w7
      = (0, RColtype (TSTRING K) repeat width, w8) ->
    ffcall L (get_col_display_width colref) w8 = (0, RInt cwidth, w9) ->
    ffcall L (read_col (TSTRING K) colref 1 1 nrow None) w9
      = (0, RStrings strs, w10) ->
    ffcall L close_file w10 = (0, r11, w11) ->
    (exists s', Cfits_write_col K L f (RStrs strs) nrow colref ext (TSTRING K)
                  (init w0) = (Ok tt, s') /\ world s' = w4) /\
    fst (Cfits_read_col K L f colref ext (init w4)) = Ok (StringVector strs).
Proof.
  intros W K L f colref ext strs w0 w1 w2 w3 w4 w5 w6 w7 w8 w9 w10 w11
    r1 r2 r3 r4 r5 r6 r11 repeat width cwidth nrow
    Hw1 Hw2 Hw3 Hw4 Hr1 Hr2 Hr3 Hr4 Hr5 Hr6 Hr7.
  subst nrow. split.
  - eexists. unfold Cfits_write_col. invoke Hw1. invoke Hw2.
    rewrite Z.eqb_refl. cbn [STRINGS]. rewrite Nat2Z.id, firstn_all.
    erewrite bind_ok; [| invoke Hw3; reflexivity]. invoke Hw4.
    split; reflexivity.
  - unfold Cfits_read_col. invoke Hr1. invoke Hr2. invoke Hr3. invoke Hr4.
    cbn [reply_typecode reply_int]. rewrite Z.eqb_refl.
    invoke Hr5. invoke Hr6. invoke Hr7. cbn [ret fst].
    unfold filled_strings. cbn [reply_strings].
    rewrite Nat2Z.id, firstn_length_app. reflexivity.
Qed.

Lemma write_col_read_col_strings_witness :
  let strs := ["a"; "bb"; "ccc"] in
  (exists s', Cfits_write_col fitsio_h Names.lib "t.fits" (RStrs strs) 3 2 2 16
                (init []) = (Ok tt, s') /\ world s' = strs) /\
  fst (Cfits_read_col fitsio_h Names.lib "t.fits" 2 2 (init strs))
  = Ok (StringVector strs).
Proof.
  intro strs.
  exact (write_col_read_col_strings (list string) fitsio_h Names.lib "t.fits"
           2 2 strs [] [] [] strs strs strs strs strs strs strs strs strs
           RNone (RInt 0) RNone RNone RNone (RInt 0) RNone 1 8 8
           eq_refl eq_refl eq_refl eq_refl eq_refl eq_refl eq_refl eq_refl
           eq_refl eq_refl eq_refl).
Defined.

(** X25: a double written to a keyword with [Cfits_update_key] and read back
    with [Cfits_read_key] comes back bit for bit as a vector of one element,
    given that the library's calls succeed and that its read hands back the
    double its update was handed. *)
Theorem update_key_read_key_double :
  forall (W : Type) (K : Header) (L : Cfitsio W) f keyname comment ext bits
         (w0 w1 w2 w3 w4 w5 w6 w7 w8 : W) r1 r2 r3 r4 r5 r6 r8,
    ~ In (TDOUBLE K) [TSTRING K; TINT K; TLONGLONG K] ->
    in_range c_double bits ->
    ffcall L (open_file f (READWRITE K)) w0 = (0, r1, w1) ->
    ffcall L (movabs_hdu ext) w1 = (0, r2, w2) ->
    ffcall L (update_key (TDOUBLE K) keyname (BufVals c_double [bits])
                         comment) w2 = (0, r3, w3) ->
    ffcall L close_file w3 = (0, r4, w4) ->
    ffcall L (open_file f (READWRITE K)) w4 = (0, r5, w5) ->
    ffcall L (movabs_hdu ext) w5 = (0, r6, w6) ->
    ffcall L (read_key (TDOUBLE K) keyname) w6
      = (0, RCells c_double [bits], w7) ->
    ffcall L close_file w7 = (0, r8, w8) ->
    (exists s', Cfits_update_key K L f (RReals [bits]) keyname comment ext
                  (TDOUBLE K) (init w0) = (Ok tt, s') /\ world s' = w4) /\
    fst (Cfits_read_key K L f keyname (TDOUBLE K) ext (init w4))
    = Ok (NumericVector [DBits bits] None).
Proof.
  intros W K L f keyname comment ext bits w0 w1 w2 w3 w4 w5 w6 w7 w8
    r1 r2 r3 r4 r5 r6 r8 Hcodes Hb Hw1 Hw2 Hw3 Hw4 Hr1 Hr2 Hr3 Hr4.
  split.
  - eexists. unfold Cfits_update_key. invoke Hw1. invoke Hw2.
    rewrite !(not_in_eqb _ _ _ Hcodes) by (simpl; tauto).
    rewrite Z.eqb_refl. cbn [REAL].
    erewrite bind_ok; [| invoke Hw3; reflexivity]. invoke Hw4.
    split; reflexivity.
  - unfold Cfits_read_key. invoke Hr1. invoke Hr2. rewrite Z.eqb_refl.
    invoke Hr3.
    erewrite bind_ok;
      [| apply received_same;
         [reflexivity | constructor; [exact Hb | constructor]]].
    invoke Hr4. reflexivity.
Qed.

Lemma update_key_read_key_double_witness :
  (exists s', Cfits_update_key fitsio_h Keys.lib "i.fits"
                (RReals [4614253070214989087]) "EXPTIME" "seconds" 1 82
                (init None) = (Ok tt, s') /\
              world s' = Some 4614253070214989087) /\
  fst (Cfits_read_key fitsio_h Keys.lib "i.fits" "EXPTIME" 82 1
         (init (Some 4614253070214989087)))
  = Ok (NumericVector [DBits 4614253070214989087] None).
Proof.
  refine (update_key_read_key_double (option Z) fitsio_h Keys.lib "i.fits"
            "EXPTIME" "seconds" 1 4614253070214989087
            None None None (Some 4614253070214989087)
            (Some 4614253070214989087) (Some 4614253070214989087)
            (Some 4614253070214989087) (Some 4614253070214989087)
            (Some 4614253070214989087)
            RNone (RInt 0) RNone RNone RNone (RInt 0) RNone
            _ _ eq_refl eq_refl eq_refl eq_refl eq_refl eq_refl eq_refl
            eq_refl).
  - simpl. intuition discriminate.
  - vm_compute. intuition discriminate.
Defined.

(** X26: given a type code other than [TDOUBLE] and [TSTRING], so also the
    integer codes [TINT] and [TLONGLONG] that [Cfits_update_key] accepts,
    [Cfits_read_key] raises "unsupported type" once the file is open
    read-write and the HDU reached: it does not ask the library for the
    keyword and does not close the file. *)
Theorem read_key_refuses_other_codes :
  forall (W : Type) (K : Header) (L : Cfitsio W) f keyname typecode ext
         (w0 w1 w2 : W) r1 r2,
    ~ In typecode [TDOUBLE K; TSTRING K] ->
    ffcall L (open_file f (READWRITE K)) w0 = (0, r1, w1) ->
    ffcall L (movabs_hdu ext) w1 = (0, r2, w2) ->
    Cfits_read_key K L f keyname typecode ext (init w0)
    = (Throw "unsupported type",
       after (after (init w0) (open_file f (READWRITE K)) 0 w1)
             (movabs_hdu ext) 0 w2).
Proof.
  intros W K L f keyname typecode ext w0 w1 w2 r1 r2 Hcodes H1 H2.
  unfold Cfits_read_key. invoke H1. invoke H2.
  rewrite !(not_in_eqb _ _ _ Hcodes) by (simpl; tauto). reflexivity.
Qed.

Lemma read_key_refuses_other_codes_witness :
  Cfits_read_key fitsio_h Keys.lib "i.fits" "NAXIS1" 31 1 (init (Some 5))
  = (Throw "unsupported type",
     {| world := Some 5;
        trace := [(movabs_hdu 1, 0); (open_file "i.fits" 1, 0)];
        rcout := [] |}).
Proof.
  refine (read_key_refuses_other_codes (option Z) fitsio_h Keys.lib "i.fits"
            "NAXIS1" 31 1 (Some 5) (Some 5) (Some 5) RNone (RInt 0)
            _ eq_refl eq_refl).
  simpl. intuition discriminate.
Defined.
